(** * Token evaluation pipeline of pumpfun-telegram-bot

    A shallow embedding of [src/index.js].  The source file holds three
    variants of the bot, one after the other:

    - the feed poller ([pollOnce], lines 45-79), module [Poller];
    - the polling bot with provider fallbacks ([processToken],
      [markProcessed], [wasProcessed], lines 181-519), module [Bot];
    - the webhook scanner ([percentBigInt], [processTokenEvent],
      lines 861-1024), module [Scanner].

    Calls to the outside (Redis, Moralis, Helius, CoinGecko, Telegram) are
    answered by an explicit [env] record, one field per call site; the
    mutable resources (the ledger, the console, the Telegram chat) are
    threaded as an explicit state. *)

From Stdlib Require Import ZArith QArith Bool List Sorted Ascii String Lia.
From stdpp Require Import gmap strings list.
Import ListNotations.

Local Open Scope string_scope.
Local Open Scope Z_scope.

(** ** JavaScript numbers *)

Module Js.

(** A JS number.  A finite double is represented by the rational it
    denotes; comparisons on doubles agree with comparisons on those
    rationals.  The one quotient taken here, [hundredth], is written
    exactly and stands for the double nearest to it. *)
Inductive number : Type :=
| NaN
| NegInf
| Fin (q : Q)
| PosInf.

(** [x < y] *)
Definition lt (x y : number) : bool :=
  match x, y with
  | NaN, _ | _, NaN => false
  | NegInf, NegInf => false
  | NegInf, _ => true
  | Fin _, NegInf => false
  | Fin a, Fin b => negb (Qle_bool b a)
  | Fin _, PosInf => true
  | PosInf, _ => false
  end.

(** [x <= y] *)
Definition le (x y : number) : bool :=
  match x, y with
  | NaN, _ | _, NaN => false
  | NegInf, _ => true
  | Fin _, NegInf => false
  | Fin a, Fin b => Qle_bool a b
  | Fin _, PosInf => true
  | PosInf, PosInf => true
  | PosInf, _ => false
  end.

(** [x > y] and [x >= y] *)
Definition gt (x y : number) : bool := lt y x.
Definition ge (x y : number) : bool := le y x.

(** [Boolean(x)]: [0] and [NaN] are falsy. *)
Definition truthy (x : number) : bool :=
  match x with
  | NaN => false
  | Fin q => negb (Qeq_bool q 0)
  | NegInf | PosInf => true
  end.

(** [x === 0] *)
Definition is_zero (x : number) : bool :=
  match x with
  | Fin q => Qeq_bool q 0
  | NaN | NegInf | PosInf => false
  end.

(** A number written as an integer literal. *)
Definition int (z : Z) : number := Fin (inject_Z z).

(** The multiple of [2 ^ s] nearest to [z >= 0], the even multiple when
    two are as near. *)
Definition round_at (s z : Z) : Z :=
  let p := 2 ^ s in
  let q := z / p in
  let r := z mod p in
  if (p <? 2 * r) || ((2 * r =? p) && Z.odd q) then (q + 1) * p else q * p.

(** The integer [z >= 0] rounded to 53 significant bits, as the
    conversion to a double does (roundTiesToEven): an integer of at most
    53 bits is kept, a longer one loses the bits beyond the 53rd. *)
Definition round53 (z : Z) : Z :=
  let s := Z.log2 z - 52 in
  if s <=? 0 then z else round_at s z.

(** [Number(z)] for a BigInt [z]: the nearest double, an infinity once
    the rounded magnitude reaches [2 ^ 1024]. *)
Definition ofBigInt (z : Z) : number :=
  let m := round53 (Z.abs z) in
  if 2 ^ 1024 <=? m then (if z <? 0 then NegInf else PosInf)
  else Fin (inject_Z (if z <? 0 then - m else m)).

(** [x / 100].  The quotient of a finite double is written as the exact
    quotient, which stands for the double nearest to it (so [1234 / 100]
    is written [1234 # 100] and stands for the double [12.34]). *)
Definition hundredth (x : number) : number :=
  match x with
  | Fin q => Fin (Qnum q # Qden q * 100)
  | NaN => NaN
  | NegInf => NegInf
  | PosInf => PosInf
  end.

(** A value that is a number, [null] or [undefined]; [??] and the
    [=== null || === undefined] tests of the source treat the last two
    alike, and both are [None] here. *)
Definition value : Type := option number.

(** [Boolean(v)] on such a value. *)
Definition truthy_value (v : value) : bool :=
  match v with
  | None => false
  | Some n => truthy n
  end.

(** [a ?? b] *)
Definition nullish (a b : value) : value :=
  match a with
  | Some _ => a
  | None => b
  end.

(** [a || null] *)
Definition or_null (a : value) : value :=
  if truthy_value a then a else None.

(** [Boolean(s)] on a string that may be missing: [''] is falsy. *)
Definition truthy_string (s : option string) : bool :=
  match s with
  | None => false
  | Some s => negb (String.eqb s "")
  end.

(** [a || b] on such strings. *)
Definition or_string (a b : option string) : option string :=
  if truthy_string a then a else b.

(** [c.toLowerCase()] on the ASCII letters. *)
Definition lower_ascii (c : ascii) : ascii :=
  let n := nat_of_ascii c in
  if (Nat.leb 65 n && Nat.leb n 90)%bool then ascii_of_nat (n + 32) else c.

Fixpoint toLowerCase (s : string) : string :=
  match s with
  | EmptyString => EmptyString
  | String c s' => String (lower_ascii c) (toLowerCase s')
  end.

End Js.

(** ** The Upstash Redis commands the source uses

    The database maps a key to the instant (in milliseconds) at which it
    expires; every value the source writes is ['1'].  A key is live while
    the clock is before that instant. *)

Module Redis.

Definition live (db : gmap string Z) (key : string) (now : Z) : bool :=
  match db !! key with
  | Some expires => now <? expires
  | None => false
  end.

(** [GET key]: is there a (truthy) value under the key. *)
Definition get (db : gmap string Z) (key : string) (now : Z) : bool :=
  live db key now.

(** [SET key 1 EX ex] *)
Definition set (db : gmap string Z) (key : string) (ex now : Z)
  : gmap string Z :=
  <[key := now + 1000 * ex]> db.

(** [SET key 1 EX ex NX]: ['OK'] ([true]) when the key was created,
    [null] ([false]) when it was already there. *)
Definition set_nx (db : gmap string Z) (key : string) (ex now : Z)
  : bool * gmap string Z :=
  if live db key now then (false, db) else (true, set db key ex now).

End Redis.

(** Console output, by severity. *)
Inductive level : Type := Info | Warn | Error.

(** ** The feed poller *)

Module Poller.

(** A field of a token object of the feed: missing, [null] or a number.
    The comparisons of the filter convert it with [Number]. *)
Inductive field : Type :=
| Undefined
| Null
| Num (n : Js.number).

Definition toNumber (f : field) : Js.number :=
  match f with
  | Undefined => Js.NaN
  | Null => Js.int 0
  | Num n => n
  end.

Definition truthy (f : field) : bool :=
  match f with
  | Num n => Js.truthy n
  | Undefined | Null => false
  end.

Record token : Type := Token {
  address : option string;
  marketcap : field;
  holders : field;
  top10_holders_pct : field;
  dev_hold_pct : field;
  volume_24h : field
}.

(** The [redis] variable of lines 12-25: the Upstash client, or the
    object built around a [Set], whose [set] ignores the expiry. *)
Inductive store : Type :=
| Upstash (db : gmap string Z)
| InMemory (cache : gset string).

(** The answers of the outside world during one turn of the loop. *)
Record env : Type := Env {
  now : Z;
  redis_get_raises : bool;
  redis_set_raises : bool;
  telegram_raises : bool
}.

Inductive event : Type :=
| TelegramSendFailed
| PollOnceFailed.

Record state : Type := State {
  redis : store;
  console : list (level * event);
  chat : list token
}.

Definition log (l : level) (ev : event) (st : state) : state :=
  State (redis st) (console st ++ [(l, ev)]) (chat st).

(** [`seen:${token.address}`] *)
Definition key_of (t : token) : string :=
  "seen:" ++ default "undefined" (address t).

(** [await redis.get(key)] as a condition; [None] when it raises. *)
Definition redis_get (e : env) (key : string) (st : state) : option bool :=
  match redis st with
  | Upstash db =>
      if redis_get_raises e then None else Some (Redis.get db key (now e))
  | InMemory cache => Some (bool_decide (key ∈ cache))
  end.

(** [await redis.set(key, 1, { ex: 3600 })]; [None] when it raises. *)
Definition redis_set (e : env) (key : string) (st : state) : option state :=
  match redis st with
  | Upstash db =>
      if redis_set_raises e then None
      else Some (State (Upstash (Redis.set db key 3600 (now e)))
                       (console st) (chat st))
  | InMemory cache =>
      Some (State (InMemory ({[key]} ∪ cache)) (console st) (chat st))
  end.

(** Lines 59-63: does one of the five tests say [continue]. *)
Definition rejected (t : token) : bool :=
  Js.lt (toNumber (marketcap t)) (Js.int 15000)
  || Js.lt (toNumber (holders t)) (Js.int 30)
  || Js.gt (toNumber (top10_holders_pct t)) (Js.int 20)
  || Js.gt (toNumber (dev_hold_pct t)) (Js.int 3)
  || (negb (truthy (volume_24h t))
      || Js.le (toNumber (volume_24h t)) (Js.int 0)).

(** [sendTelegramMessage(msg)], lines 28-42. *)
Definition sendTelegramMessage (e : env) (t : token) (st : state) : state :=
  if telegram_raises e then log Error TelegramSendFailed st
  else State (redis st) (console st) (chat st ++ [t]).

(** How one turn of the loop of lines 52-75 ended. *)
Inductive outcome : Type :=
| Skipped      (* line 55: seen before *)
| Rejected     (* lines 59-63 *)
| Notified     (* line 74 *)
| Raised.      (* a Redis call raised: the loop is left *)

Definition pollStep (e : env) (t : token) (st : state) : outcome * state :=
  let key := key_of t in
  match redis_get e key st with
  | None => (Raised, st)
  | Some true => (Skipped, st)
  | Some false =>
      match redis_set e key st with
      | None => (Raised, st)
      | Some st1 =>
          if rejected t then (Rejected, st1)
          else (Notified, sendTelegramMessage e t st1)
      end
  end.

(** The loop of lines 52-75 inside the [try] of [pollOnce]: the tokens
    are taken in order, each with the answers it meets. *)
Fixpoint pollLoop (tokens : list (env * token)) (st : state)
  : list outcome * state :=
  match tokens with
  | [] => ([], st)
  | (e, t) :: rest =>
      match pollStep e t st with
      | (Raised, st1) => ([Raised], log Error PollOnceFailed st1)
      | (o, st1) =>
          let '(os, st2) := pollLoop rest st1 in (o :: os, st2)
      end
  end.

(** [pollOnce()], lines 45-79; [None] when fetching or parsing the feed
    raises. *)
Definition pollOnce (feed : option (list (env * token))) (st : state)
  : list outcome * state :=
  match feed with
  | None => ([], log Error PollOnceFailed st)
  | Some tokens => pollLoop tokens st
  end.

End Poller.

(** ** The webhook scanner *)

Module Scanner.

(** [percentBigInt(numer, denom)], lines 861-872.  Both call sites pass
    BigInt values, on which [BigInt(x || '0')] is the identity ([0n] is
    falsy and becomes ['0'], which converts back to [0n]) and nothing in
    the [try] block raises.  BigInt division truncates toward zero
    ([Z.quot]).  [Number(scaled)] rounds to the nearest double and
    [/ 100] divides that double. *)
Definition percentBigInt (numer denom : Z) : Js.number :=
  let n := numer in
  let d := denom in
  if d =? 0 then Js.int 0
  else
    let scaled := Z.quot (n * 10000) d in
    Js.hundredth (Js.ofBigInt scaled).

(** The [balance] of a holder as the provider sent it, by what
    [BigInt(h.balance || '0')] does with it. *)
Inductive balance_field : Type :=
| BalFalsy                (* missing, null, '', 0: replaced by '0' *)
| BalInteger (z : Z)      (* converts to the BigInt z *)
| BalMalformed.           (* BigInt raises *)

(** [BigInt(b || '0')]; [None] when it raises. *)
Definition toBigInt (b : balance_field) : option Z :=
  match b with
  | BalFalsy => Some 0
  | BalInteger z => Some z
  | BalMalformed => None
  end.

Record holder : Type := Holder {
  h_address : option string;
  h_balance : balance_field
}.

(** What [fetchTokenHolders] returned: [null], an array, or
    [{ total, holders }]. *)
Inductive holders_reply : Type :=
| HoldersNull
| HoldersArray (l : list holder)
| HoldersObject (total : Js.number) (l : list holder).

(** What [fetchTokenMetadata] returned.  [totalSupply] is the BigInt that
    line 930 reads from the string (or, when that raises, line 934 from
    its digits); [None] when the field is [null]. *)
Record metadata : Type := Metadata {
  totalSupply : option Z
}.

(** What [fetchTokenMarketData] returned. *)
Record market_data : Type := MarketData {
  md_marketCap : Js.value;
  md_volume24h : Js.value
}.

(** The argument of [processTokenEvent]. *)
Record token_event : Type := TokenEvent {
  chain : option string;
  address : option string;
  creator : option string
}.

(** The answers of the outside world during one call. *)
Record env : Type := Env {
  now : Z;
  redis_get_raises : bool;
  redis_set_raises : bool;
  fetchTokenMetadata : option metadata;
  fetchTokenHolders : holders_reply;
  fetchTokenMarketData : market_data;
  telegram_configured : bool;
  telegram_raises : bool
}.

(** The five values the filter looks at (lines 985-991). *)
Record metrics : Type := Metrics {
  marketCap : Js.value;
  holdersCount : Js.number;
  top10Percent : Js.number;
  devPercent : Js.number;
  vol24h : Js.value
}.

(** The alert: the address, the chain and the figures put in the text. *)
Record message : Type := Message {
  msg_address : string;
  msg_chain : string;
  msg_metrics : metrics
}.

Inductive event : Type :=
| AlreadyProcessed (c a : string)
| RedisGetFailed
| NoMetadata (a c : string)
| HoldersMissing (a : string)
| SupplyMissingOrZero (a : string)
| DidNotPass (a : string) (m : metrics)
| TelegramNotConfigured
| TelegramFailed
| PassedAndSent (a : string)
| ProcessError.

Record state : Type := State {
  ledger : gmap string Z;
  console : list (level * event);
  chat : list message
}.

Definition log (l : level) (ev : event) (st : state) : state :=
  State (ledger st) (console st ++ [(l, ev)]) (chat st).

(** [try { await redis.set(key, '1', { ex }) } catch (e) {}] *)
Definition try_set (e : env) (key : string) (ex : Z) (st : state) : state :=
  if redis_set_raises e then st
  else State (Redis.set (ledger st) key ex (now e)) (console st) (chat st).

(** [sendTelegramMarkdown], lines 685-696: one attempt, every failure
    is caught and logged, nothing is returned. *)
Definition sendTelegramMarkdown (e : env) (text : message) (st : state)
  : state :=
  if negb (telegram_configured e) then log Warn TelegramNotConfigured st
  else if telegram_raises e then log Warn TelegramFailed st
  else State (ledger st) (console st) (chat st ++ [text]).

(** [v && p(v)] as a condition. *)
Definition and_then (v : Js.value) (p : Js.number -> bool) : bool :=
  match v with
  | Some n => Js.truthy n && p n
  | None => false
  end.

Definition minMarketCap : Js.number := Js.int 15000.
Definition minHolders : Js.number := Js.int 30.
Definition maxTop10Percent : Js.number := Js.int 20.
Definition maxDevPercent : Js.number := Js.int 3.

(** Lines 985-991. *)
Definition passed (m : metrics) : bool :=
  and_then (marketCap m) (fun x => Js.ge x minMarketCap)
  && (Js.truthy (holdersCount m) && Js.ge (holdersCount m) minHolders)
  && Js.lt (top10Percent m) maxTop10Percent
  && Js.lt (devPercent m) maxDevPercent
  && and_then (vol24h m) (fun x => Js.gt x (Js.int 0)).

(** Lines 902-912: the list of holders and the first count. *)
Definition holdersList_of (r : holders_reply) : list holder :=
  match r with
  | HoldersNull => []
  | HoldersArray l => l
  | HoldersObject _ l => take 200 l
  end.

Definition holdersCount_of (r : holders_reply) : Js.number :=
  match r with
  | HoldersNull => Js.int 0
  | HoldersArray l => Js.int (Z.of_nat (length l))
  | HoldersObject total l =>
      if Js.truthy total then total else Js.int (Z.of_nat (length l))
  end.

(** Lines 923-924: the balances of the first ten holders, summed;
    [None] when one of them makes [BigInt] raise. *)
Fixpoint sum_balances (l : list holder) : option Z :=
  match l with
  | [] => Some 0
  | h :: l' =>
      match toBigInt (h_balance h), sum_balances l' with
      | Some b, Some s => Some (b + s)
      | _, _ => None
      end
  end.

Definition topSum_of (holdersList : list holder) : option Z :=
  sum_balances (take 10 holdersList).

(** [(h.address || '').toLowerCase() === (creator || '').toLowerCase()] *)
Definition is_creator (creator : string) (h : holder) : bool :=
  String.eqb (Js.toLowerCase (default "" (h_address h)))
             (Js.toLowerCase creator).

(** Lines 953-955 and 965-967: the share of one holder, [0] when its
    balance makes [BigInt] raise. *)
Definition share_or_zero (h : holder) (totalSupplyBig : Z) : Js.number :=
  match toBigInt (h_balance h) with
  | Some devBal => percentBigInt devBal totalSupplyBig
  | None => Js.int 0
  end.

(** Lines 946-969. *)
Definition devPercent_of (holdersList : list holder)
    (creator : option string) (totalSupplyBig : Z) : Js.number :=
  if Js.truthy_string creator then
    match List.find (is_creator (default "" creator)) holdersList with
    | Some found => share_or_zero found totalSupplyBig
    | None => Js.int 0
    end
  else
    match holdersList with
    | probableDev :: _ => share_or_zero probableDev totalSupplyBig
    | [] => Js.int 0
    end.

(** Lines 993-1019: what follows the filter. *)
Definition decide_and_notify (e : env) (c a key : string) (m : metrics)
    (st : state) : state :=
  if negb (passed m) then
    try_set e key (60 * 60 * 6) (log Info (DidNotPass a m) st)
  else
    let st1 := sendTelegramMarkdown e (Message a c m) st in
    let st2 := try_set e key (60 * 60 * 24) st1 in
    log Info (PassedAndSent a) st2.

(** Lines 892-991: from the metadata to the five figures. *)
Definition evaluate (e : env) (creator : option string) (c a key : string)
    (st : state) : state :=
  match fetchTokenMetadata e with
  | None => try_set e key (60 * 20) (log Info (NoMetadata a c) st)
  | Some meta =>
      let holdersRaw := fetchTokenHolders e in
      let holdersList := holdersList_of holdersRaw in
      let holdersCount := holdersCount_of holdersRaw in
      match holdersRaw with
      | HoldersNull => try_set e key (60 * 60) (log Info (HoldersMissing a) st)
      | _ =>
          match topSum_of holdersList with
          | None => log Error ProcessError st
          | Some topSum =>
              let totalSupplyBig := default 0 (totalSupply meta) in
              if totalSupplyBig =? 0 then
                try_set e key (60 * 60) (log Info (SupplyMissingOrZero a) st)
              else
                let top10Percent := percentBigInt topSum totalSupplyBig in
                let devPercent :=
                  devPercent_of holdersList creator totalSupplyBig in
                let holdersCount :=
                  if Js.truthy holdersCount then holdersCount
                  else Js.int (Z.of_nat (length holdersList)) in
                let market := fetchTokenMarketData e in
                let marketCap := Js.or_null (md_marketCap market) in
                let vol24h := Js.or_null (md_volume24h market) in
                decide_and_notify e c a key
                  (Metrics marketCap holdersCount top10Percent devPercent
                           vol24h) st
          end
      end
  end.

Definition key_of (c a : string) : string :=
  "processed:" ++ c ++ ":" ++ a.

(** [processTokenEvent({ chain, address, creator })], lines 874-1024. *)
Definition processTokenEvent (e : env) (t : token_event) (st : state)
  : state :=
  if negb (Js.truthy_string (address t)) then st
  else
    let a := Js.toLowerCase (default "" (address t)) in
    let c := Js.toLowerCase
               (default "" (Js.or_string (chain t) (Some "unknown"))) in
    let key := key_of c a in
    if redis_get_raises e then
      evaluate e (creator t) c a key (log Warn RedisGetFailed st)
    else if Redis.get (ledger st) key (now e) then
      log Info (AlreadyProcessed c a) st
    else
      evaluate e (creator t) c a key st.

End Scanner.

(** ** The polling bot with provider fallbacks *)

Module Bot.

(** The configuration read from the environment, lines 135-178. *)
Record config : Type := Config {
  MIN_MARKETCAP : Js.number;
  MIN_HOLDERS : Js.number;
  MAX_TOP10_PERCENT : Js.number;
  MAX_DEV_PERCENT : Js.number;
  DEDUPE_TTL_SEC : Z;
  MORALIS_API_KEY : bool;       (* is it set *)
  HELIUS_RPC_URL : bool;        (* is it set *)
  telegram_configured : bool;   (* TELEGRAM_BOT_TOKEN && TELEGRAM_CHAT_ID *)
  redisClient : bool            (* false: the in-memory Map is used *)
}.

(** A token object of the feed.  The numeric fields are JSON numbers or
    missing. *)
Record token : Type := Token {
  address : option string;
  mint : option string;
  token_ : option string;
  creator : option string;
  dev : option string;
  marketcap : Js.value;
  mc : Js.value;
  holders : Js.value;
  holder_count : Js.value;
  top10_percent : Js.value;
  top10 : Js.value;
  dev_hold : Js.value;
  dev_hold_percent : Js.value;
  creator_hold : Js.value;
  volume_24h : Js.value;
  volume : Js.value
}.

(** An entry of [getTokenLargestAccounts]: [a.address || a.pubkey ||
    a.owner] and [Number(a.uiAmount ?? a.amount ?? 0)]. *)
Record account : Type := Account {
  acc_id : option string;
  acc_amount : Js.number
}.

(** The two Helius answers read by [computeDevHoldPercent]:
    [largestAccounts] (line 282) and [supply] (lines 283-286). *)
Record helius_data : Type := HeliusData {
  largestAccounts : list account;
  supply : Js.value
}.

(** [res.data] of the Moralis price endpoint: the two fields read, when
    they are numbers. *)
Record price_data : Type := PriceData {
  pd_marketCap : Js.value;
  pd_totalVolume24h : Js.value
}.

(** The answers of the outside world during one call.  [percent4] stands
    for the floating-point expression
    [Number(((amt / supply) * 100).toFixed(4))], which is not embedded. *)
Record env : Type := Env {
  now : Z;
  redis_get_raises : bool;
  redis_set_raises : bool;
  fetchMoralisTokenHoldersCount : Js.value;
  fetchMoralisTokenPrice : option price_data;
  computeTop10PercentViaHelius : Js.value;
  heliusRpc : option helius_data;     (* None: a call raises *)
  percent4 : Js.number -> Js.number -> Js.number;
  telegram_raises : bool
}.

(** [{ marketcap, holders, top10Percent, devPercent, volume24h }] *)
Record metrics : Type := Metrics {
  m_marketcap : Js.value;
  m_holders : Js.value;
  m_top10Percent : Js.value;
  m_devPercent : Js.value;
  m_volume24h : Js.value
}.

Record message : Type := Message {
  msg_address : string;
  msg_metrics : metrics
}.

Inductive event : Type :=
| MissingAddress
| RedisSetFailed
| RedisGetFailed
| VolumeNotVisible (a : string)
| TelegramNotConfigured
| TelegramFailed
| Reported (a : string)
| DidNotMatch (a : string) (m : metrics).

Record state : Type := State {
  redis : gmap string Z;
  inMemoryProcessed : gmap string Z;
  console : list (level * event);
  chat : list message
}.

Definition log (l : level) (ev : event) (st : state) : state :=
  State (redis st) (inMemoryProcessed st) (console st ++ [(l, ev)])
        (chat st).

Definition key_of (address : string) : string := "processed:" ++ address.

(** [markProcessed(address)], lines 181-198. *)
Definition markProcessed (cfg : config) (e : env) (address : string)
    (st : state) : bool * state :=
  let key := key_of address in
  if redisClient cfg then
    if redis_set_raises e then (false, log Error RedisSetFailed st)
    else
      let '(res, db) :=
        Redis.set_nx (redis st) key (DEDUPE_TTL_SEC cfg) (now e) in
      (res, State db (inMemoryProcessed st) (console st) (chat st))
  else
    match inMemoryProcessed st !! key with
    | Some _ => (false, st)
    | None =>
        (true, State (redis st) (<[key := now e]> (inMemoryProcessed st))
                     (console st) (chat st))
    end.

(** [wasProcessed(address)], lines 200-213. *)
Definition wasProcessed (cfg : config) (e : env) (address : string)
    (st : state) : bool * state :=
  let key := key_of address in
  if redisClient cfg then
    if redis_get_raises e then (false, log Error RedisGetFailed st)
    else (Redis.get (redis st) key (now e), st)
  else
    (bool_decide (is_Some (inMemoryProcessed st !! key)), st).

(** The sweep of lines 216-222. *)
Definition sweep (cfg : config) (now : Z) (st : state) : state :=
  State (redis st)
        (filter (fun kt => ¬ (now - kt.2 > DEDUPE_TTL_SEC cfg * 1000))
                (inMemoryProcessed st))
        (console st) (chat st).

(** [computeDevHoldPercent(mint, candidateDevAddress)], lines 278-310. *)
Definition computeDevHoldPercent (e : env)
    (candidateDevAddress : option string) : Js.value :=
  match heliusRpc e with
  | None => None
  | Some r =>
      match supply r with
      | None => None
      | Some supply =>
          if negb (Js.truthy supply) then None
          else
            let of_account (a : account) : Js.value :=
              Some (percent4 e (acc_amount a) supply) in
            let fallback : Js.value :=
              match largestAccounts r with
              | topItem :: _ => of_account topItem
              | [] => None
              end in
            if Js.truthy_string candidateDevAddress then
              match List.find
                      (fun a => bool_decide (acc_id a = candidateDevAddress))
                      (largestAccounts r) with
              | Some match_ => of_account match_
              | None => fallback
              end
            else fallback
      end
  end.

(** [sendTelegramMessage(text)], lines 344-359: one attempt; a failure
    is caught, logged and answered by [null], which the caller drops. *)
Definition sendTelegramMessage (cfg : config) (e : env) (text : message)
    (st : state) : state :=
  if negb (telegram_configured cfg) then log Warn TelegramNotConfigured st
  else if telegram_raises e then log Error TelegramFailed st
  else State (redis st) (inMemoryProcessed st) (console st)
             (chat st ++ [text]).

(** Lines 403-446: the five figures, from the token object first and from
    the providers for what is missing. *)
Definition resolve (cfg : config) (e : env) (t : token) : metrics :=
  let marketcap := Js.nullish (marketcap t) (mc t) in
  let holders := Js.nullish (holders t) (holder_count t) in
  let top10Percent := Js.nullish (top10_percent t) (top10 t) in
  let devPercent :=
    Js.nullish (dev_hold t) (Js.nullish (dev_hold_percent t) (creator_hold t)) in
  let volume24h := Js.nullish (volume_24h t) (volume t) in
  let holders :=
    if bool_decide (holders = None) && MORALIS_API_KEY cfg
    then fetchMoralisTokenHoldersCount e else holders in
  let priceData :=
    if (bool_decide (marketcap = None) || bool_decide (volume24h = None))
       && MORALIS_API_KEY cfg
    then fetchMoralisTokenPrice e else None in
  let marketcap :=
    match priceData with
    | Some pd =>
        if negb (Js.truthy_value marketcap)
           && bool_decide (is_Some (pd_marketCap pd))
        then pd_marketCap pd else marketcap
    | None => marketcap
    end in
  let volume24h :=
    match priceData with
    | Some pd =>
        if negb (Js.truthy_value volume24h)
           && bool_decide (is_Some (pd_totalVolume24h pd))
        then pd_totalVolume24h pd else volume24h
    | None => volume24h
    end in
  let top10Percent :=
    if bool_decide (top10Percent = None) && HELIUS_RPC_URL cfg
    then Js.nullish (computeTop10PercentViaHelius e) top10Percent
    else top10Percent in
  let devPercent :=
    if bool_decide (devPercent = None) && HELIUS_RPC_URL cfg
    then Js.nullish
           (computeDevHoldPercent e (Js.or_string (creator t) (dev t)))
           devPercent
    else devPercent in
  Metrics marketcap holders top10Percent devPercent volume24h.

(** [v === null ? false : p(v)] *)
Definition present_and (v : Js.value) (p : Js.number -> bool) : bool :=
  match v with
  | None => false
  | Some n => p n
  end.

(** Lines 463-469. *)
Definition passed (cfg : config) (m : metrics) : bool :=
  present_and (m_marketcap m) (fun x => Js.ge x (MIN_MARKETCAP cfg))
  && present_and (m_holders m) (fun x => Js.ge x (MIN_HOLDERS cfg))
  && present_and (m_top10Percent m) (fun x => Js.lt x (MAX_TOP10_PERCENT cfg))
  && present_and (m_devPercent m) (fun x => Js.lt x (MAX_DEV_PERCENT cfg))
  && bool_decide (is_Some (m_volume24h m)).

(** Lines 471-484: what follows the filter. *)
Definition decide_and_notify (cfg : config) (e : env) (address : string)
    (m : metrics) (st : state) : state :=
  if passed cfg m then
    let st1 := sendTelegramMessage cfg e (Message address m) st in
    let st2 := (markProcessed cfg e address st1).2 in
    log Info (Reported address) st2
  else
    let st1 :=
      if bool_decide (is_Some (m_marketcap m))
         && bool_decide (is_Some (m_holders m))
      then (markProcessed cfg e address st).2 else st in
    log Info (DidNotMatch address m) st1.

(** Lines 402-484: everything after the dedupe check. *)
Definition evaluate (cfg : config) (e : env) (t : token) (address : string)
    (st : state) : state :=
  let m := resolve cfg e t in
  let st1 :=
    if bool_decide (m_volume24h m = None)
    then log Info (VolumeNotVisible address) st else st in
  decide_and_notify cfg e address m st1.

(** [processToken(token)], lines 388-485. *)
Definition processToken (cfg : config) (e : env) (t : token) (st : state)
  : state :=
  let address :=
    Js.or_string (Js.or_string (address t) (mint t)) (token_ t) in
  if negb (Js.truthy_string address) then log Warn MissingAddress st
  else
    let address := default "" address in
    let '(seen, st1) := wasProcessed cfg e address st in
    if seen then st1 else evaluate cfg e t address st1.

End Bot.

(** The share written in the specification:
    [floor(amount * 10000 / total) / 100], absent when [total <= 0]. *)
Definition sharePercent_spec (amount total : Z) : Js.value :=
  if total <=? 0 then None
  else Some (Js.Fin ((amount * 10000 / total) # 100)).

(** The balance of a holder as an integer ([0] where [BigInt] raises). *)
Definition balance_of (h : Scanner.holder) : Z :=
  default 0 (Scanner.toBigInt (Scanner.h_balance h)).




(** ** The webhook payload *)

Module Webhook.

(** An entry of [payload.tokens]. *)
Record token_item : Type := TokenItem {
  ti_address : option string;
  ti_mint : option string;
  ti_chain : option string;
  ti_creator : option string;
  ti_mintAuthority : option string
}.

(** An entry of [tx.tokenTransfers]. *)
Record transfer : Type := Transfer {
  tt_tokenAddress : option string;
  tt_from : option string
}.

(** An entry of [tx.tokenData]. *)
Record token_datum : Type := TokenDatum {
  d_mint : option string;
  d_mintAuthority : option string
}.

(** An entry of [payload.transactions]; a list that is missing is
    [None]. *)
Record transaction : Type := Transaction {
  tx_chain : option string;
  tx_tokenTransfers : option (list transfer);
  tx_tokenData : option (list token_datum)
}.

(** The body of the request, as far as [extractTokensFromHelius] reads
    it; the two arrays are [None] when [Array.isArray] says no. *)
Record payload : Type := Payload {
  p_mint : option string;
  p_tokenAddress : option string;
  p_chain : option string;
  p_mintAuthority : option string;
  p_creator : option string;
  p_tokens : option (list token_item);
  p_transactions : option (list transaction)
}.

(** Lines 721-722: the two flat fields. *)
Definition from_flat (p : payload) : list Scanner.token_event :=
  (if Js.truthy_string (p_mint p)
   then [Scanner.TokenEvent (Js.or_string (p_chain p) (Some "solana"))
                            (p_mint p)
                            (Js.or_string (p_mintAuthority p) (p_creator p))]
   else [])
  ++ (if Js.truthy_string (p_tokenAddress p)
      then [Scanner.TokenEvent (Js.or_string (p_chain p) (Some "ethereum"))
                               (p_tokenAddress p) (p_creator p)]
      else []).

(** Lines 725-729: the [tokens] array. *)
Definition from_item (p : payload) (t : token_item)
  : list Scanner.token_event :=
  if Js.truthy_string (Js.or_string (ti_address t) (ti_mint t))
  then [Scanner.TokenEvent
          (Js.or_string (ti_chain t)
                        (Js.or_string (p_chain p) (Some "unknown")))
          (Js.or_string (ti_address t) (ti_mint t))
          (Js.or_string (ti_creator t) (ti_mintAuthority t))]
  else [].

(** Lines 733-745: one transaction, its transfers first, then its token
    data. *)
Definition from_transaction (p : payload) (tx : transaction)
  : list Scanner.token_event :=
  let chain :=
    Js.or_string (tx_chain tx) (Js.or_string (p_chain p) (Some "unknown")) in
  flat_map (fun tt =>
              if Js.truthy_string (tt_tokenAddress tt)
              then [Scanner.TokenEvent chain (tt_tokenAddress tt) (tt_from tt)]
              else [])
           (default [] (tx_tokenTransfers tx))
  ++ flat_map (fun d =>
                 if Js.truthy_string (d_mint d)
                 then [Scanner.TokenEvent chain (d_mint d) (d_mintAuthority d)]
                 else [])
              (default [] (tx_tokenData tx)).

(** The array [out] when line 748 is reached. *)
Definition candidates (p : payload) : list Scanner.token_event :=
  from_flat p
  ++ flat_map (from_item p) (default [] (p_tokens p))
  ++ flat_map (from_transaction p) (default [] (p_transactions p)).

(** [`${(t.chain||'').toLowerCase()}:${t.address.toLowerCase()}`] *)
Definition dedupe_key (t : Scanner.token_event) : string :=
  Js.toLowerCase (default "" (Js.or_string (Scanner.chain t) (Some "")))
  ++ ":" ++ Js.toLowerCase (default "" (Scanner.address t)).

(** [map.has(key)], the Map being the list of its entries in the order
    of their insertion. *)
Definition has (map : list (string * Scanner.token_event)) (key : string)
  : bool :=
  existsb (fun kv => String.eqb kv.1 key) map.

(** Lines 749-754: the loop that fills the Map. *)
Fixpoint dedupe (out : list Scanner.token_event)
    (map : list (string * Scanner.token_event))
  : list (string * Scanner.token_event) :=
  match out with
  | [] => map
  | t :: rest =>
      if negb (Js.truthy_string (Scanner.address t)) then dedupe rest map
      else
        let key := dedupe_key t in
        if has map key then dedupe rest map
        else
          dedupe rest
            (map ++ [(key,
                      Scanner.TokenEvent
                        (Js.or_string (Scanner.chain t) (Some "unknown"))
                        (Scanner.address t) (Scanner.creator t))])
  end.

(** [extractTokensFromHelius(payload)], lines 715-756; [None] is a
    missing body. *)
Definition extractTokensFromHelius (payload : option payload)
  : list Scanner.token_event :=
  match payload with
  | None => []
  | Some p => map snd (dedupe (candidates p) [])
  end.

End Webhook.

(** The ledger key under which [processTokenEvent] files an event. *)
Definition ledger_key (t : Scanner.token_event) : string :=
  Scanner.key_of
    (Js.toLowerCase
       (default "" (Js.or_string (Scanner.chain t) (Some "unknown"))))
    (Js.toLowerCase (default "" (Scanner.address t))).

(** Every candidate carries a chain and an address. *)
Definition well_formed (t : Scanner.token_event) : Prop :=
  Js.truthy_string (Scanner.chain t) = true
  /\ Js.truthy_string (Scanner.address t) = true.

(** What the loop of lines 749-754 keeps true of the Map: no key twice,
    every value filed under its own key and taken from the candidates. *)
Definition map_ok (src : list Scanner.token_event)
    (map : list (string * Scanner.token_event)) : Prop :=
  NoDup map.*1
  /\ Forall (fun kv => kv.1 = Webhook.dedupe_key kv.2
                       /\ well_formed kv.2 /\ kv.2 ∈ src) map.

(** ** Escaping for the Telegram message *)

Module Html.

(** The callback of line 384: what one matched character becomes; the
    other characters are left alone by [replace]. *)
Definition escape_char (c : ascii) : string :=
  if Ascii.eqb c "&" then "&amp;"
  else if Ascii.eqb c "<" then "&lt;"
  else if Ascii.eqb c ">" then "&gt;"
  else String c EmptyString.

(** [String(text).replace(/[&<>]/g, ...)] *)
Fixpoint replace_all (s : string) : string :=
  match s with
  | EmptyString => EmptyString
  | String c s' => escape_char c ++ replace_all s'
  end.

(** [escapeHtml(text)], lines 382-385. *)
Definition escapeHtml (text : option string) : string :=
  if negb (Js.truthy_string text) then ""
  else replace_all (default "" text).

End Html.

(** ** The turns of a poll of the polling bot *)

Module BotPoll.

(** What runs one after the other while [pollOnce] (lines 490-519) goes
    through its tokens: a turn of the loop of lines 507-513, or, between
    two turns, the sweep that the timer of lines 216-222 fires. *)
Inductive turn : Type :=
| Process (e : Bot.env) (t : Bot.token)
| Sweep (now : Z).

Definition step (cfg : Bot.config) (a : turn) (st : Bot.state) : Bot.state :=
  match a with
  | Process e t => Bot.processToken cfg e t st
  | Sweep now => Bot.sweep cfg now st
  end.

Definition run (cfg : Bot.config) (turns : list turn) (st : Bot.state)
  : Bot.state :=
  fold_left (fun st a => step cfg a st) turns st.

End BotPoll.

(** The ledger of the polling bot holds the key of the address at least
    until [until]: in Redis an expiry that late, in the in-memory Map an
    entry that no sweep removes before. *)
Definition held_until (cfg : Bot.config) (st : Bot.state) (address : string)
    (until : Z) : Prop :=
  if Bot.redisClient cfg
  then exists expires,
         Bot.redis st !! Bot.key_of address = Some expires /\ until <= expires
  else exists written,
         Bot.inMemoryProcessed st !! Bot.key_of address = Some written
         /\ until <= written + 1000 * Bot.DEDUPE_TTL_SEC cfg.

(** Every sweep among the turns runs at [until] at the latest. *)
Definition sweeps_by (until : Z) (turns : list BotPoll.turn) : Prop :=
  Forall (fun a => match a with
                   | BotPoll.Sweep now => now <= until
                   | BotPoll.Process _ _ => True
                   end) turns.

(** ** Concrete inputs used below *)

Module Examples.

(** Two holders in descending order; the creator ["dev"] holds nothing
    and is not listed. *)
Definition two_holders : list Scanner.holder :=
  [ Scanner.Holder (Some "Whale") (Scanner.BalInteger 900);
    Scanner.Holder (Some "fish") (Scanner.BalInteger 100) ].

(** Thirty-one holders of ten units each, then the creator with five. *)
Definition many_holders : list Scanner.holder :=
  repeat (Scanner.Holder (Some "holder") (Scanner.BalInteger 10)) 31
  ++ [ Scanner.Holder (Some "Dev") (Scanner.BalInteger 5) ].

(** The thresholds and settings of lines 135-178 when the environment
    sets none of them, Telegram being configured and Redis not. *)
Definition default_config : Bot.config :=
  Bot.Config (Js.int 15000) (Js.int 30) (Js.int 20) (Js.int 3)
             (60 * 60 * 24) false false true false.

(** The same with the Upstash client. *)
Definition redis_config : Bot.config :=
  Bot.Config (Js.int 15000) (Js.int 30) (Js.int 20) (Js.int 3)
             (60 * 60 * 24) false false true true.

(** A token object carrying its five figures. *)
Definition bot_token (a : string) (marketcap holders top10 dev : Z)
    (volume : Js.value) : Bot.token :=
  Bot.Token (Some a) None None None None
            (Some (Js.int marketcap)) None (Some (Js.int holders)) None
            (Some (Js.int top10)) None (Some (Js.int dev)) None None
            volume None.

(** Marketcap 20000, 50 holders, top ten 15 %, developer 1 %, volume 0. *)
Definition zero_volume_token : Bot.token :=
  bot_token "Mint1" 20000 50 15 1 (Some (Js.int 0)).

(** The same with a volume of 500. *)
Definition good_token : Bot.token :=
  bot_token "Mint1" 20000 50 15 1 (Some (Js.int 500)).

(** Nothing outside answers; every call goes through, or raises where
    the flag says so. *)
Definition bot_env (now : Z) (get_raises set_raises telegram_raises : bool)
  : Bot.env :=
  Bot.Env now get_raises set_raises None None None None
          (fun _ _ => Js.NaN) telegram_raises.

Definition bot_start : Bot.state := Bot.State ∅ ∅ [] [].

(** A token of the feed poller with a volume and nothing else. *)
Definition bare_token : Poller.token :=
  Poller.Token (Some "Mint2") Poller.Undefined Poller.Undefined
               Poller.Undefined Poller.Undefined
               (Poller.Num (Js.int 500)).

(** A token object with no identifier at all. *)
Definition anonymous_token : Bot.token :=
  Bot.Token None None None None None
            (Some (Js.int 20000)) None (Some (Js.int 50)) None
            (Some (Js.int 15)) None (Some (Js.int 1)) None None
            (Some (Js.int 500)) None.

(** The scanner meets a token with a supply of one million, the holders
    of [many_holders], a market cap of 20000 and a volume of 500. *)
Definition scanner_env (now : Z)
    (get_raises set_raises telegram_raises : bool) : Scanner.env :=
  Scanner.Env now get_raises set_raises
              (Some (Scanner.Metadata (Some 1000000)))
              (Scanner.HoldersArray many_holders)
              (Scanner.MarketData (Some (Js.int 20000)) (Some (Js.int 500)))
              true telegram_raises.

Definition scanner_event : Scanner.token_event :=
  Scanner.TokenEvent (Some "solana") (Some "Mint3") (Some "dev").

Definition scanner_start : Scanner.state := Scanner.State ∅ [] [].

(** A ledger in which the key of [scanner_event] is live at instant 0. *)
Definition scanner_marked : Scanner.state :=
  Scanner.State (Redis.set ∅ "processed:solana:mint3" 3600 0) [] [].

(** The same meeting, the metadata giving a supply of zero. *)
Definition zero_supply_env : Scanner.env :=
  Scanner.Env 0 false false
              (Some (Scanner.Metadata (Some 0)))
              (Scanner.HoldersArray many_holders)
              (Scanner.MarketData (Some (Js.int 20000)) (Some (Js.int 500)))
              true false.

(** A token of the feed poller that passes its filter. *)
Definition poller_token : Poller.token :=
  Poller.Token (Some "Mint4") (Poller.Num (Js.int 20000))
               (Poller.Num (Js.int 50)) (Poller.Num (Js.int 15))
               (Poller.Num (Js.int 1)) (Poller.Num (Js.int 500)).

Definition poller_env (now : Z) : Poller.env :=
  Poller.Env now false false false.

Definition poller_start : Poller.state :=
  Poller.State (Poller.Upstash ∅) [] [].

End Examples.

(** ** Concrete webhook payload *)

Module MoreExamples.

(** A mint given flat, and a [tokens] array that repeats it in another
    case and adds a second token without a chain. *)
Definition payload : Webhook.payload :=
  Webhook.Payload (Some "MintA") None None None (Some "dev")
    (Some [ Webhook.TokenItem (Some "minta") None (Some "SOLANA") None None;
            Webhook.TokenItem None (Some "MintB") None None None ])
    None.

(** A supply of zero and a first holder whose balance is no integer. *)
Definition malformed_balance_env : Scanner.env :=
  Scanner.Env 0 false false
              (Some (Scanner.Metadata (Some 0)))
              (Scanner.HoldersArray
                 [ Scanner.Holder (Some "Whale") Scanner.BalMalformed ])
              (Scanner.MarketData (Some (Js.int 20000)) (Some (Js.int 500)))
              true false.

(** A ledger of the polling bot in which the key of ["Mint1"] is live
    for a day from instant 0. *)
Definition bot_marked : Bot.state :=
  Bot.State (Redis.set ∅ "processed:Mint1" 86400 0) ∅ [] [].

(** An in-memory Map of the polling bot with two entries, made a day
    apart. *)
Definition two_marks : Bot.state :=
  Bot.State ∅ (<["processed:Old" := 0]> (<["processed:New" := 86400000]> ∅))
            [] [].

(** A token object of the polling bot with an address and no figure. *)
Definition unresolved_token : Bot.token :=
  Bot.Token (Some "Mint1") None None None None
            None None None None None None None None None None None.

End MoreExamples.

(** Does line 923 of the scanner raise: there are holders, and one of
    the first ten balances makes [BigInt] raise. *)
Definition raises_at_line_923 (e : Scanner.env) : bool :=
  match Scanner.fetchTokenHolders e,
        Scanner.topSum_of (Scanner.holdersList_of (Scanner.fetchTokenHolders e))
  with
  | Scanner.HoldersNull, _ => false
  | _, None => true
  | _, Some _ => false
  end.

(** ** Runs of the feed poller that overlap

    [setInterval(pollOnce, 15000)] (line 81) starts a run every fifteen
    seconds whether or not the one before has ended, and every [await]
    of a run lets another run go on.  A turn of the loop is cut here at
    the [await] of line 54, between the read of the key and its write. *)
Module Overlap.

(** Lines 53-54: the key is read; [None] when the read raises. *)
Definition check (e : Poller.env) (t : Poller.token) (st : Poller.state)
  : option bool :=
  Poller.redis_get e (Poller.key_of t) st.

(** Lines 55-74, for a run that has read [seen] and goes on in the
    state it then finds. *)
Definition resume (e : Poller.env) (t : Poller.token) (seen : bool)
    (st : Poller.state) : Poller.outcome * Poller.state :=
  if seen then (Poller.Skipped, st)
  else
    match Poller.redis_set e (Poller.key_of t) st with
    | None => (Poller.Raised, st)
    | Some st1 =>
        if Poller.rejected t then (Poller.Rejected, st1)
        else (Poller.Notified, Poller.sendTelegramMessage e t st1)
    end.

End Overlap.

(** The five figures the scanner puts before its filter (lines 944-977)
    once the metadata, the holders, the sum of the first ten balances and
    a supply other than zero are there. *)
Definition scanner_figures (e : Scanner.env) (creator : option string)
    (totalSupplyBig topSum : Z) : Scanner.metrics :=
  let holdersRaw := Scanner.fetchTokenHolders e in
  let holdersList := Scanner.holdersList_of holdersRaw in
  let holdersCount := Scanner.holdersCount_of holdersRaw in
  Scanner.Metrics
    (Js.or_null (Scanner.md_marketCap (Scanner.fetchTokenMarketData e)))
    (if Js.truthy holdersCount then holdersCount
     else Js.int (Z.of_nat (length holdersList)))
    (Scanner.percentBigInt topSum totalSupplyBig)
    (Scanner.devPercent_of holdersList creator totalSupplyBig)
    (Js.or_null (Scanner.md_volume24h (Scanner.fetchTokenMarketData e))).

(** ** Notions used to state the ledger properties *)

(** Does the ledger of the polling bot hold the key of this address: a
    live key in Redis, an entry of the in-memory Map. *)
Definition ledger_has (cfg : Bot.config) (now : Z) (st : Bot.state)
    (address : string) : bool :=
  if Bot.redisClient cfg
  then Redis.live (Bot.redis st) (Bot.key_of address) now
  else bool_decide (is_Some (Bot.inMemoryProcessed st !! Bot.key_of address)).

(** The store of the feed poller holds the key at least until [until]. *)
Definition marked (s : Poller.store) (key : string) (until : Z) : Prop :=
  match s with
  | Poller.Upstash db => exists expires, db !! key = Some expires /\ until <= expires
  | Poller.InMemory cache => key ∈ cache
  end.

(** A turn of the poller's loop that went past the dedupe check and
    through the filter. *)
Definition evaluated (o : Poller.outcome) : Prop :=
  o = Poller.Rejected \/ o = Poller.Notified.

(** * Properties *)

(** ** Rounding to a double *)

Lemma round_at_bounds (s z : Z) :
  0 <= s ->
  z / 2 ^ s * 2 ^ s <= Js.round_at s z <= (z / 2 ^ s + 1) * 2 ^ s.
Proof.
  intros Hs. unfold Js.round_at.
  assert (Hp : 0 < 2 ^ s) by (apply Z.pow_pos_nonneg; lia).
  destruct (_ || _); nia.
Qed.

Lemma round_at_mono (s a b : Z) :
  0 <= s -> a <= b -> Js.round_at s a <= Js.round_at s b.
Proof.
  intros Hs Hab.
  assert (Hp : 0 < 2 ^ s) by (apply Z.pow_pos_nonneg; lia).
  pose proof (Z.div_le_mono a b (2 ^ s) Hp Hab) as Hq.
  destruct (Z.eq_dec (a / 2 ^ s) (b / 2 ^ s)) as [Heq | Hne].
  - unfold Js.round_at. cbv zeta. rewrite <- Heq.
    pose proof (Z.div_mod a (2 ^ s)) as Ha.
    pose proof (Z.div_mod b (2 ^ s)) as Hb.
    assert (Hr : a mod 2 ^ s <= b mod 2 ^ s) by nia.
    destruct (Z.odd (a / 2 ^ s));
      destruct (Z.ltb_spec (2 ^ s) (2 * (a mod 2 ^ s)));
      destruct (Z.ltb_spec (2 ^ s) (2 * (b mod 2 ^ s)));
      destruct (Z.eqb_spec (2 * (a mod 2 ^ s)) (2 ^ s));
      destruct (Z.eqb_spec (2 * (b mod 2 ^ s)) (2 ^ s));
      simpl; nia.
  - pose proof (round_at_bounds s a Hs) as [_ Ha].
    pose proof (round_at_bounds s b Hs) as [Hb _].
    nia.
Qed.

Lemma round53_small (z : Z) : 0 <= z < 2 ^ 53 -> Js.round53 z = z.
Proof.
  intros [H0 H]. unfold Js.round53.
  destruct (Z.leb_spec (Z.log2 z - 52) 0) as [_ | Hs]; [reflexivity |].
  exfalso.
  assert (0 < z) by (destruct (Z.eq_dec z 0) as [-> | ?]; [simpl in Hs; lia | lia]).
  apply Z.log2_lt_pow2 in H; lia.
Qed.

Lemma log2_bounds (z : Z) :
  0 < z -> 2 ^ Z.log2 z <= z < 2 * 2 ^ Z.log2 z.
Proof.
  intros Hz. pose proof (Z.log2_spec z Hz) as H.
  rewrite Z.pow_succ_r in H by apply Z.log2_nonneg. exact H.
Qed.

Lemma round53_mono (a b : Z) :
  0 <= a -> a <= b -> Js.round53 a <= Js.round53 b.
Proof.
  intros Ha Hab. unfold Js.round53.
  pose proof (Z.log2_le_mono a b Hab) as Hlog.
  destruct (Z.leb_spec (Z.log2 a - 52) 0) as [Hsa | Hsa];
    destruct (Z.leb_spec (Z.log2 b - 52) 0) as [Hsb | Hsb]; try lia.
  - (* a short, b long *)
    assert (Hb0 : 0 < b)
      by (destruct (Z.eq_dec b 0) as [-> | ?]; [simpl in Hsb; lia | lia]).
    set (s := Z.log2 b - 52) in *.
    pose proof (round_at_bounds s b ltac:(lia)) as [Hlow _].
    pose proof (log2_bounds b Hb0) as [Hb _].
    replace (Z.log2 b) with (52 + s) in Hb by (subst s; lia).
    rewrite Z.pow_add_r in Hb by lia.
    assert (Hp : 2 <= 2 ^ s).
    { change 2 with (2 ^ 1) at 1. apply Z.pow_le_mono_r; lia. }
    assert (Hq : 2 ^ 52 <= b / 2 ^ s) by (apply Z.div_le_lower_bound; lia).
    assert (Ha53 : a < 2 ^ 53).
    { destruct (Z.eq_dec a 0) as [-> | ?]; [reflexivity |].
      apply Z.log2_lt_pow2; lia. }
    change (2 ^ 53) with (2 ^ 52 * 2) in Ha53. nia.
  - (* both long *)
    assert (Ha0 : 0 < a)
      by (destruct (Z.eq_dec a 0) as [-> | ?]; [simpl in Hsa; lia | lia]).
    destruct (Z.eq_dec (Z.log2 a) (Z.log2 b)) as [Heq | Hne].
    + rewrite Heq. apply round_at_mono; lia.
    + set (sa := Z.log2 a - 52) in *. set (sb := Z.log2 b - 52) in *.
      pose proof (round_at_bounds sa a ltac:(lia)) as [_ Hup].
      pose proof (round_at_bounds sb b ltac:(lia)) as [Hlow _].
      pose proof (log2_bounds a Ha0) as [_ Hau].
      pose proof (log2_bounds b ltac:(lia)) as [Hbl _].
      replace (Z.log2 a) with (52 + sa) in Hau by (subst sa; lia).
      replace (Z.log2 b) with (52 + (sa + 1) + (sb - sa - 1)) in Hbl
        by (subst sa sb; lia).
      rewrite Z.pow_add_r in Hau by lia.
      rewrite !Z.pow_add_r in Hbl by (subst sa sb; lia).
      assert (Hpa : 0 < 2 ^ sa) by (apply Z.pow_pos_nonneg; lia).
      assert (Hpd : 1 <= 2 ^ (sb - sa - 1))
        by (apply (Z.pow_le_mono_r 2 0); subst sa sb; lia).
      assert (Hpb : 2 ^ sb = 2 ^ sa * 2 * 2 ^ (sb - sa - 1)).
      { replace sb with (sa + 1 + (sb - sa - 1)) at 1 by lia.
        rewrite !Z.pow_add_r by (subst sa sb; lia). reflexivity. }
      assert (Hqa : a / 2 ^ sa < 2 ^ 53).
      { apply Z.div_lt_upper_bound; [lia |].
        change (2 ^ 53) with (2 ^ 52 * 2). nia. }
      assert (Hqb : 2 ^ 52 <= b / 2 ^ sb).
      { apply Z.div_le_lower_bound; [apply Z.pow_pos_nonneg; subst sb; lia |].
        rewrite Hpb. rewrite Z.pow_1_r in Hbl. nia. }
      assert (H1 : Js.round_at sa a <= 2 ^ 53 * 2 ^ sa) by nia.
      assert (H2 : 2 ^ 52 * 2 ^ sb <= Js.round_at sb b) by nia.
      rewrite Hpb in H2.
      change (2 ^ 53) with (2 ^ 52 * 2) in H1.
      assert (0 < 2 ^ 52) by reflexivity.
      nia.
Qed.

Lemma round53_nonneg (z : Z) : 0 <= z -> 0 <= Js.round53 z.
Proof.
  intros Hz. pose proof (round53_mono 0 z ltac:(lia) Hz) as H.
  exact H.
Qed.

Lemma ofBigInt_nonneg (z : Z) :
  0 <= z ->
  Js.ofBigInt z
  = if 2 ^ 1024 <=? Js.round53 z then Js.PosInf
    else Js.Fin (inject_Z (Js.round53 z)).
Proof.
  intros Hz. unfold Js.ofBigInt. rewrite Z.abs_eq by exact Hz.
  destruct (Z.ltb_spec z 0); [lia | reflexivity].
Qed.

(** An integer below [2 ^ 53] in magnitude is a double. *)
Lemma ofBigInt_exact (z : Z) :
  - 2 ^ 53 < z < 2 ^ 53 -> Js.ofBigInt z = Js.Fin (inject_Z z).
Proof.
  intros Hz. unfold Js.ofBigInt.
  assert (Habs : 0 <= Z.abs z < 2 ^ 53) by lia.
  rewrite (round53_small _ Habs).
  assert (H53 : 2 ^ 53 < 2 ^ 1024) by (apply Z.pow_lt_mono_r; lia).
  destruct (Z.leb_spec (2 ^ 1024) (Z.abs z)); [lia |].
  destruct (Z.ltb_spec z 0); do 2 f_equal; lia.
Qed.

Lemma hundredth_int (z : Z) :
  Js.hundredth (Js.Fin (inject_Z z)) = Js.Fin (z # 100).
Proof. reflexivity. Qed.

(** [Number(z) / 100] grows with [z]. *)
Lemma hundredth_ofBigInt_mono (a b : Z) :
  0 <= a -> a <= b ->
  Js.le (Js.hundredth (Js.ofBigInt a)) (Js.hundredth (Js.ofBigInt b)) = true.
Proof.
  intros Ha Hab. rewrite !ofBigInt_nonneg by lia.
  pose proof (round53_mono a b Ha Hab) as Hm.
  destruct (Z.leb_spec (2 ^ 1024) (Js.round53 a));
    destruct (Z.leb_spec (2 ^ 1024) (Js.round53 b)); try lia;
    try reflexivity.
  rewrite !hundredth_int. simpl. unfold Qle_bool. simpl.
  apply Z.leb_le. lia.
Qed.

(** ** The share computation *)

Lemma percentBigInt_nonzero (numer denom : Z) :
  denom <> 0 ->
  Scanner.percentBigInt numer denom
  = Js.hundredth (Js.ofBigInt (Z.quot (numer * 10000) denom)).
Proof.
  intros Hd. unfold Scanner.percentBigInt.
  destruct (Z.eqb_spec denom 0) as [E | _]; [contradiction | reflexivity].
Qed.

Lemma percentBigInt_exact (numer denom : Z) :
  denom <> 0 ->
  - 2 ^ 53 < Z.quot (numer * 10000) denom < 2 ^ 53 ->
  Scanner.percentBigInt numer denom
  = Js.Fin (Z.quot (numer * 10000) denom # 100).
Proof.
  intros Hd Hq. rewrite percentBigInt_nonzero by exact Hd.
  rewrite ofBigInt_exact by exact Hq. apply hundredth_int.
Qed.

Lemma percentBigInt_zero (numer : Z) :
  Scanner.percentBigInt numer 0 = Js.int 0.
Proof. reflexivity. Qed.

(** The claim of C3 read on the code: past [2 ^ 53] hundredths the
    conversion [Number(scaled)] rounds, and the share is no longer
    [floor(amount * 10000 / total) / 100]. *)
Lemma percentBigInt_rounds_large_shares :
  Scanner.percentBigInt 9007199254740993 10000
  = Js.Fin (9007199254740992 # 100)
  /\ sharePercent_spec 9007199254740993 10000
     = Some (Js.Fin (9007199254740993 # 100))
  /\ Js.lt (Scanner.percentBigInt 9007199254740993 10000)
           (Js.Fin (9007199254740993 # 100)) = true
  /\ Some (Scanner.percentBigInt 9007199254740993 10000)
     <> sharePercent_spec 9007199254740993 10000.
Proof.
  split; [vm_compute; reflexivity |].
  split; [vm_compute; reflexivity |].
  split; [vm_compute; reflexivity |].
  vm_compute. discriminate.
Qed.

(** C3, amended: for a non-negative amount and a positive total the
    hundredths [scaled = floor(amount * 10000 / total)] are computed on
    integers alone, by truncation and never by rounding upward, and
    [percentBigInt] answers the number [Number(scaled) / 100].  That is
    the number [floor(amount * 10000 / total) / 100] whenever [scaled] is
    below [2 ^ 53], which holds whenever the amount does not exceed the
    total; past that the conversion to a number rounds. *)
Theorem percentBigInt_is_floor (amount total : Z) :
  0 <= amount -> 0 < total ->
  let scaled := amount * 10000 / total in
  scaled = Z.quot (amount * 10000) total
  /\ scaled * total <= amount * 10000 < (scaled + 1) * total
  /\ Scanner.percentBigInt amount total
     = Js.hundredth (Js.ofBigInt scaled)
  /\ (scaled < 2 ^ 53 ->
      Scanner.percentBigInt amount total = Js.Fin (scaled # 100)
      /\ Some (Scanner.percentBigInt amount total)
         = sharePercent_spec amount total)
  /\ (amount <= total -> scaled < 2 ^ 53).
Proof.
  intros Ha Ht. cbv zeta.
  assert (Hq : Z.quot (amount * 10000) total = amount * 10000 / total)
    by (apply Z.quot_div_nonneg; lia).
  assert (H0 : 0 <= amount * 10000 / total) by (apply Z.div_pos; lia).
  split; [congruence |].
  split.
  { split.
    - rewrite Z.mul_comm. apply Z.mul_div_le. lia.
    - pose proof (Z.mod_pos_bound (amount * 10000) total Ht) as Hm.
      pose proof (Z.div_mod (amount * 10000) total) as Hdm.
      nia. }
  split; [rewrite percentBigInt_nonzero, Hq by lia; reflexivity |].
  split.
  - intros Hs.
    assert (He : Scanner.percentBigInt amount total
                 = Js.Fin (amount * 10000 / total # 100)).
    { rewrite percentBigInt_exact by (rewrite ?Hq; lia).
      rewrite Hq. reflexivity. }
    split; [exact He |]. rewrite He. unfold sharePercent_spec.
    destruct (Z.leb_spec total 0) as [H | _]; [lia | reflexivity].
  - intros Hle.
    assert (amount * 10000 / total <= 10000)
      by (apply Z.div_le_upper_bound; nia).
    assert (10000 < 2 ^ 53) by reflexivity. lia.
Qed.

Lemma percentBigInt_is_floor_witness :
  (0 <= 2 /\ 0 < 3)
  /\ Some (Scanner.percentBigInt 2 3) = sharePercent_spec 2 3
  /\ Scanner.percentBigInt 2 3 = Js.Fin (6666 # 100).
Proof.
  split; [lia |].
  destruct (percentBigInt_is_floor 2 3) as (_ & _ & _ & H & Hb);
    [lia | lia |].
  destruct (H (Hb ltac:(lia))) as [H2 H1].
  split; [exact H1 | exact H2].
Defined.

(** C8: multiplying the amount and the total by the same positive factor
    leaves the share unchanged. *)
Theorem percentBigInt_scale_invariant (k amount total : Z) :
  0 <= amount -> 0 < total -> 0 < k ->
  Scanner.percentBigInt (k * amount) (k * total)
  = Scanner.percentBigInt amount total.
Proof.
  intros Ha Ht Hk.
  rewrite !percentBigInt_nonzero by lia.
  replace (k * amount * 10000) with (k * (amount * 10000)) by ring.
  rewrite Z.quot_mul_cancel_l by lia. reflexivity.
Qed.

Lemma percentBigInt_scale_invariant_witness :
  (0 <= 2 /\ 0 < 3 /\ 0 < 7)
  /\ Scanner.percentBigInt (7 * 2) (7 * 3) = Scanner.percentBigInt 2 3.
Proof. split; [lia | apply percentBigInt_scale_invariant; lia]. Defined.

(** The claim of C6 read on the code: an absent result for every
    non-positive total.  [percentBigInt] answers the number [0] there. *)
Lemma percentBigInt_zero_total_is_a_number :
  ~ (forall amount total : Z,
        total <= 0 ->
        Some (Scanner.percentBigInt amount total)
        = sharePercent_spec amount total).
Proof.
  intros H. specialize (H 5 0 ltac:(lia)). discriminate H.
Qed.

(** With a supply that is zero or missing the scanner sends nothing,
    whatever the holders are; it marks the key for one hour unless line
    923 raises or the write to Redis does. *)
Lemma evaluate_zero_supply_effect (e : Scanner.env) (creator : option string)
    (c a key : string) (st : Scanner.state) (meta : Scanner.metadata) :
  Scanner.fetchTokenMetadata e = Some meta ->
  default 0 (Scanner.totalSupply meta) = 0 ->
  let st' := Scanner.evaluate e creator c a key st in
  Scanner.chat st' = Scanner.chat st
  /\ Scanner.ledger st'
     = if Scanner.redis_set_raises e || raises_at_line_923 e
       then Scanner.ledger st
       else Redis.set (Scanner.ledger st) key 3600 (Scanner.now e).
Proof.
  intros Hm Hs. cbv zeta. unfold Scanner.evaluate, raises_at_line_923.
  rewrite Hm, Hs. simpl.
  destruct (Scanner.fetchTokenHolders e) as [| l | total l]; simpl;
    [ rewrite orb_false_r; unfold Scanner.try_set;
      destruct (Scanner.redis_set_raises e); split; reflexivity | ..];
    (destruct (Scanner.topSum_of _); simpl;
     [ rewrite orb_false_r; unfold Scanner.try_set;
       destruct (Scanner.redis_set_raises e); split; reflexivity
     | rewrite orb_true_r; split; reflexivity ]).
Qed.

(** C6, amended: [percentBigInt] never answers an absent value.  For a
    zero total it answers the number [0]; for a negative total it answers
    [Number(q) / 100] for the truncated quotient [q] of
    [amount * 10000] by the total, which is [q / 100] while [q] is below
    [2 ^ 53] in magnitude.  The absent outcome for a supply that is zero
    or missing is the caller's: the scanner then computes no percentage
    and sends nothing; it marks the key for one hour, except that nothing
    is marked when the write to Redis raises or when, holders being
    there, one of the first ten balances makes [BigInt] raise at line
    923. *)
Theorem percentBigInt_nonpositive_total (amount total : Z) :
  total <= 0 ->
  (total = 0 -> Scanner.percentBigInt amount total = Js.int 0)
  /\ (total < 0 ->
      Scanner.percentBigInt amount total
      = Js.hundredth (Js.ofBigInt (Z.quot (amount * 10000) total))
      /\ (- 2 ^ 53 < Z.quot (amount * 10000) total < 2 ^ 53 ->
          Scanner.percentBigInt amount total
          = Js.Fin (Z.quot (amount * 10000) total # 100)))
  /\ (forall e creator c a key st meta,
        Scanner.fetchTokenMetadata e = Some meta ->
        default 0 (Scanner.totalSupply meta) = total ->
        total = 0 ->
        let st' := Scanner.evaluate e creator c a key st in
        Scanner.chat st' = Scanner.chat st
        /\ Scanner.ledger st'
           = if Scanner.redis_set_raises e || raises_at_line_923 e
             then Scanner.ledger st
             else Redis.set (Scanner.ledger st) key 3600 (Scanner.now e)).
Proof.
  intros Ht. split; [| split].
  - intros ->. reflexivity.
  - intros Hneg. split.
    + apply percentBigInt_nonzero. lia.
    + intros Hq. apply percentBigInt_exact; [lia | exact Hq].
  - intros e creator c a key st meta Hm Hs H0.
    apply (evaluate_zero_supply_effect e creator c a key st meta Hm).
    rewrite Hs. exact H0.
Qed.

Lemma percentBigInt_nonpositive_total_witness :
  0 <= 0
  /\ Scanner.percentBigInt 5 0 = Js.int 0
  /\ (let st' := Scanner.evaluate Examples.zero_supply_env (Some "dev")
                   "solana" "mint3" "processed:solana:mint3"
                   Examples.scanner_start in
      Scanner.chat st' = []
      /\ Scanner.ledger st' = Redis.set ∅ "processed:solana:mint3" 3600 0)
  /\ (let st' := Scanner.evaluate MoreExamples.malformed_balance_env
                   (Some "dev") "solana" "mint3" "processed:solana:mint3"
                   Examples.scanner_start in
      Scanner.chat st' = [] /\ Scanner.ledger st' = ∅).
Proof.
  split; [lia |].
  destruct (percentBigInt_nonpositive_total 5 0) as (H0 & _ & Hcaller);
    [lia |].
  split; [apply H0; reflexivity |].
  split.
  - apply (Hcaller Examples.zero_supply_env (Some "dev") "solana" "mint3"
             "processed:solana:mint3" Examples.scanner_start
             (Scanner.Metadata (Some 0))); reflexivity.
  - apply (Hcaller MoreExamples.malformed_balance_env (Some "dev") "solana"
             "mint3" "processed:solana:mint3" Examples.scanner_start
             (Scanner.Metadata (Some 0))); reflexivity.
Defined.

(** ** The developer share *)











(** ** The filter *)

Lemma is_zero_not_truthy (n : Js.number) :
  Js.is_zero n = true -> Js.truthy n = false.
Proof. destruct n; simpl; try discriminate. intros ->. reflexivity. Qed.

Lemma present_and_true (v : Js.value) (p : Js.number -> bool) :
  Bot.present_and v p = true <-> exists n, v = Some n /\ p n = true.
Proof.
  destruct v as [n |]; simpl.
  - split; [eauto | intros (? & [= <-] & H); exact H].
  - split; [discriminate | intros (? & [=] & _)].
Qed.

Lemma and_then_true (v : Js.value) (p : Js.number -> bool) :
  Scanner.and_then v p = true
  <-> exists n, v = Some n /\ Js.truthy n = true /\ p n = true.
Proof.
  destruct v as [n |]; simpl.
  - rewrite andb_true_iff.
    split; [intros []; eauto | intros (? & [= <-] & H); exact H].
  - split; [discriminate | intros (? & [=] & _)].
Qed.

(** The filter of the polling bot: four figures present and within their
    thresholds, the volume present. *)
Lemma bot_passed_iff (cfg : Bot.config) (m : Bot.metrics) :
  Bot.passed cfg m = true
  <-> exists marketcap holders top10Percent devPercent volume24h,
        Bot.m_marketcap m = Some marketcap
        /\ Bot.m_holders m = Some holders
        /\ Bot.m_top10Percent m = Some top10Percent
        /\ Bot.m_devPercent m = Some devPercent
        /\ Bot.m_volume24h m = Some volume24h
        /\ Js.ge marketcap (Bot.MIN_MARKETCAP cfg) = true
        /\ Js.ge holders (Bot.MIN_HOLDERS cfg) = true
        /\ Js.lt top10Percent (Bot.MAX_TOP10_PERCENT cfg) = true
        /\ Js.lt devPercent (Bot.MAX_DEV_PERCENT cfg) = true.
Proof.
  unfold Bot.passed. rewrite !andb_true_iff, !present_and_true.
  rewrite bool_decide_eq_true. split.
  - intros [[[[(a & Ha & Pa) (b & Hb & Pb)] (c & Hc & Pc)] (d & Hd & Pd)] [v Hv]].
    exists a, b, c, d, v. tauto.
  - intros (a & b & c & d & v & Ha & Hb & Hc & Hd & Hv & Pa & Pb & Pc & Pd).
    repeat split; eauto.
Qed.

(** The filter of the scanner. *)
Lemma scanner_passed_iff (m : Scanner.metrics) :
  Scanner.passed m = true
  <-> exists marketCap vol24h,
        Scanner.marketCap m = Some marketCap
        /\ Scanner.vol24h m = Some vol24h
        /\ Js.truthy marketCap = true
        /\ Js.ge marketCap (Js.int 15000) = true
        /\ Js.truthy (Scanner.holdersCount m) = true
        /\ Js.ge (Scanner.holdersCount m) (Js.int 30) = true
        /\ Js.lt (Scanner.top10Percent m) (Js.int 20) = true
        /\ Js.lt (Scanner.devPercent m) (Js.int 3) = true
        /\ Js.truthy vol24h = true
        /\ Js.gt vol24h (Js.int 0) = true.
Proof.
  unfold Scanner.passed. rewrite !andb_true_iff, !and_then_true. split.
  - intros [[[[(a & Ha & Ta & Pa) [Th Ph]] Pt] Pd] (v & Hv & Tv & Pv)].
    exists a, v. tauto.
  - intros (a & v & Ha & Hv & Ta & Pa & Th & Ph & Pt & Pd & Tv & Pv).
    repeat split; eauto.
Qed.

Lemma bot_rejection_logged (cfg : Bot.config) (e : Bot.env) (address : string)
    (m : Bot.metrics) (st : Bot.state) :
  Bot.passed cfg m = false ->
  exists before,
    Bot.console (Bot.decide_and_notify cfg e address m st)
    = (before ++ [(Info, Bot.DidNotMatch address m)])%list.
Proof.
  intros Hp. unfold Bot.decide_and_notify. rewrite Hp. simpl. eauto.
Qed.

Lemma scanner_rejection_logged (e : Scanner.env) (c a key : string)
    (m : Scanner.metrics) (st : Scanner.state) :
  Scanner.passed m = false ->
  Scanner.console (Scanner.decide_and_notify e c a key m st)
  = (Scanner.console st ++ [(Info, Scanner.DidNotPass a m)])%list.
Proof.
  intros Hp. unfold Scanner.decide_and_notify, Scanner.try_set.
  rewrite Hp. simpl. destruct (Scanner.redis_set_raises e); reflexivity.
Qed.

(** The claim of C4 read on the code.  In the feed poller a token whose
    marketcap, holders and two percentages are all missing is not
    rejected; in the polling bot a bundle whose volume is [0], which does
    not exceed zero, passes. *)
Lemma filter_passes_without_all_five :
  (Poller.marketcap Examples.bare_token = Poller.Undefined
   /\ Poller.rejected Examples.bare_token = false)
  /\ (let m := Bot.resolve Examples.default_config
                 (Examples.bot_env 0 false false false)
                 Examples.zero_volume_token in
      Bot.m_volume24h m = Some (Js.int 0)
      /\ Js.gt (Js.int 0) (Js.int 0) = false
      /\ Bot.passed Examples.default_config m = true).
Proof. vm_compute. repeat split; reflexivity. Qed.

(** C4, amended.  In the polling bot the filter passes exactly when
    marketcap, holders, top10Percent and devPercent are present and within
    their thresholds and volume24h is present; in the scanner exactly when
    marketCap and vol24h are present and not zero, marketCap >= 15000,
    holdersCount >= 30, top10Percent < 20, devPercent < 3 and vol24h > 0.
    In both an absent figure forces failure.  No set of missing names is
    built: the rejected bundle is logged whole.  In the feed poller an
    absent volume rejects the token. *)
Theorem filter_conjunctive :
  (forall cfg m,
      Bot.passed cfg m = true
      <-> exists marketcap holders top10Percent devPercent volume24h,
            Bot.m_marketcap m = Some marketcap
            /\ Bot.m_holders m = Some holders
            /\ Bot.m_top10Percent m = Some top10Percent
            /\ Bot.m_devPercent m = Some devPercent
            /\ Bot.m_volume24h m = Some volume24h
            /\ Js.ge marketcap (Bot.MIN_MARKETCAP cfg) = true
            /\ Js.ge holders (Bot.MIN_HOLDERS cfg) = true
            /\ Js.lt top10Percent (Bot.MAX_TOP10_PERCENT cfg) = true
            /\ Js.lt devPercent (Bot.MAX_DEV_PERCENT cfg) = true)
  /\ (forall cfg m,
        Bot.m_marketcap m = None \/ Bot.m_holders m = None
        \/ Bot.m_top10Percent m = None \/ Bot.m_devPercent m = None
        \/ Bot.m_volume24h m = None ->
        Bot.passed cfg m = false)
  /\ (forall m,
        Scanner.passed m = true
        <-> exists marketCap vol24h,
              Scanner.marketCap m = Some marketCap
              /\ Scanner.vol24h m = Some vol24h
              /\ Js.truthy marketCap = true
              /\ Js.ge marketCap (Js.int 15000) = true
              /\ Js.truthy (Scanner.holdersCount m) = true
              /\ Js.ge (Scanner.holdersCount m) (Js.int 30) = true
              /\ Js.lt (Scanner.top10Percent m) (Js.int 20) = true
              /\ Js.lt (Scanner.devPercent m) (Js.int 3) = true
              /\ Js.truthy vol24h = true
              /\ Js.gt vol24h (Js.int 0) = true)
  /\ (forall m,
        Scanner.marketCap m = None \/ Scanner.vol24h m = None ->
        Scanner.passed m = false)
  /\ (forall cfg e address m st,
        Bot.passed cfg m = false ->
        exists before,
          Bot.console (Bot.decide_and_notify cfg e address m st)
          = (before ++ [(Info, Bot.DidNotMatch address m)])%list)
  /\ (forall e c a key m st,
        Scanner.passed m = false ->
        Scanner.console (Scanner.decide_and_notify e c a key m st)
        = (Scanner.console st ++ [(Info, Scanner.DidNotPass a m)])%list)
  /\ (forall t,
        Poller.volume_24h t = Poller.Undefined
        \/ Poller.volume_24h t = Poller.Null ->
        Poller.rejected t = true).
Proof.
  split; [exact bot_passed_iff |].
  split.
  { intros cfg m H. apply not_true_is_false. intros Hp.
    apply bot_passed_iff in Hp
      as (a & b & c & d & v & Ha & Hb & Hc & Hd & Hv & _).
    destruct H as [H | [H | [H | [H | H]]]]; congruence. }
  split; [exact scanner_passed_iff |].
  split.
  { intros m H. apply not_true_is_false. intros Hp.
    apply scanner_passed_iff in Hp as (a & v & Ha & Hv & _).
    destruct H as [H | H]; congruence. }
  split; [exact bot_rejection_logged |].
  split; [exact scanner_rejection_logged |].
  intros t H. unfold Poller.rejected.
  destruct H as [-> | ->]; simpl; rewrite !orb_true_r; reflexivity.
Qed.

Lemma filter_conjunctive_witness :
  Bot.passed Examples.default_config
    (Bot.Metrics None (Some (Js.int 50)) (Some (Js.int 15)) (Some (Js.int 1))
                 (Some (Js.int 500)))
  = false.
Proof.
  destruct filter_conjunctive as [_ [H _]].
  apply H. left. reflexivity.
Defined.

(** The claim of C5 read on the code: the polling bot reports a token
    whose 24-hour volume is present and equal to [0]. *)
Lemma zero_volume_token_is_reported :
  Js.nullish (Bot.volume_24h Examples.zero_volume_token)
             (Bot.volume Examples.zero_volume_token)
  = Some (Js.int 0)
  /\ Bot.chat (Bot.processToken Examples.default_config
                 (Examples.bot_env 0 false false false)
                 Examples.zero_volume_token Examples.bot_start)
     = [ Bot.Message "Mint1"
           (Bot.Metrics (Some (Js.int 20000)) (Some (Js.int 50))
                        (Some (Js.int 15)) (Some (Js.int 1))
                        (Some (Js.int 0))) ].
Proof. vm_compute. split; reflexivity. Qed.

(** Scenario A on the polling bot: the same token with a volume of 500 is
    reported once and marked; met again, it is skipped. *)
Example good_token_is_reported_once :
  let e := Examples.bot_env 0 false false false in
  let st1 := Bot.processToken Examples.default_config e Examples.good_token
               Examples.bot_start in
  length (Bot.chat st1) = 1%nat
  /\ ledger_has Examples.default_config 1 st1 "Mint1" = true
  /\ Bot.processToken Examples.default_config e Examples.good_token st1 = st1.
Proof. vm_compute. repeat split; reflexivity. Qed.

(** C5, amended.  A 24-hour volume that is present and equal to [0] fails
    the filter of the feed poller and the filter of the scanner.  In the
    polling bot the volume only has to be visible: with a zero volume the
    outcome is that of the four other checks. *)
Theorem zero_volume_filter (n : Js.number) :
  Js.is_zero n = true ->
  (forall t, Poller.volume_24h t = Poller.Num n -> Poller.rejected t = true)
  /\ (forall m, Scanner.vol24h m = Some n -> Scanner.passed m = false)
  /\ Js.or_null (Some n) = None
  /\ (forall cfg m,
        Bot.m_volume24h m = Some n ->
        Bot.passed cfg m
        = Bot.present_and (Bot.m_marketcap m)
            (fun x => Js.ge x (Bot.MIN_MARKETCAP cfg))
          && Bot.present_and (Bot.m_holders m)
               (fun x => Js.ge x (Bot.MIN_HOLDERS cfg))
          && Bot.present_and (Bot.m_top10Percent m)
               (fun x => Js.lt x (Bot.MAX_TOP10_PERCENT cfg))
          && Bot.present_and (Bot.m_devPercent m)
               (fun x => Js.lt x (Bot.MAX_DEV_PERCENT cfg))).
Proof.
  intros Hz. pose proof (is_zero_not_truthy n Hz) as Ht.
  split; [| split; [| split]].
  - intros t Hv. unfold Poller.rejected. rewrite Hv. simpl. rewrite Ht.
    simpl. rewrite !orb_true_r. reflexivity.
  - intros m Hv. unfold Scanner.passed. rewrite Hv. simpl. rewrite Ht.
    simpl. apply andb_false_r.
  - unfold Js.or_null. simpl. rewrite Ht. reflexivity.
  - intros cfg m Hv. unfold Bot.passed. rewrite Hv.
    rewrite bool_decide_eq_true_2 by eauto. apply andb_true_r.
Qed.

Lemma zero_volume_filter_witness :
  Js.is_zero (Js.int 0) = true
  /\ Js.or_null (Some (Js.int 0)) = None.
Proof.
  split; [reflexivity |].
  destruct (zero_volume_filter (Js.int 0)) as [_ [_ [H _]]];
    [reflexivity | exact H].
Defined.

(** ** Tokens without an address *)

(** C10: a token that carries no address, mint or token identifier leaves
    the ledger and the chat as they were.  The polling bot writes one
    warning to the console; the scanner changes nothing at all. *)
Theorem no_address_no_effect :
  (forall cfg e t st,
      Js.truthy_string
        (Js.or_string (Js.or_string (Bot.address t) (Bot.mint t))
                      (Bot.token_ t)) = false ->
      let st' := Bot.processToken cfg e t st in
      Bot.redis st' = Bot.redis st
      /\ Bot.inMemoryProcessed st' = Bot.inMemoryProcessed st
      /\ Bot.chat st' = Bot.chat st
      /\ Bot.console st'
         = (Bot.console st ++ [(Warn, Bot.MissingAddress)])%list)
  /\ (forall t,
        Bot.address t = None -> Bot.mint t = None -> Bot.token_ t = None ->
        Js.truthy_string
          (Js.or_string (Js.or_string (Bot.address t) (Bot.mint t))
                        (Bot.token_ t)) = false)
  /\ (forall e t st,
        Js.truthy_string (Scanner.address t) = false ->
        Scanner.processTokenEvent e t st = st).
Proof.
  split; [| split].
  - intros cfg e t st H. unfold Bot.processToken. rewrite H. simpl. auto.
  - intros t -> -> ->. reflexivity.
  - intros e t st H. unfold Scanner.processTokenEvent. rewrite H. reflexivity.
Qed.

Lemma no_address_no_effect_witness :
  Bot.chat (Bot.processToken Examples.default_config
              (Examples.bot_env 0 false false false)
              Examples.anonymous_token Examples.bot_start)
  = Bot.chat Examples.bot_start
  /\ Scanner.processTokenEvent (Examples.scanner_env 0 false false false)
       (Scanner.TokenEvent (Some "solana") None None) Examples.scanner_start
     = Examples.scanner_start.
Proof.
  destruct no_address_no_effect as [H1 [_ H3]]. split.
  - apply (H1 Examples.default_config (Examples.bot_env 0 false false false)
              Examples.anonymous_token Examples.bot_start).
    reflexivity.
  - apply H3. reflexivity.
Defined.

(** ** The console only grows *)

Lemma bot_log_console (l : level) (ev : Bot.event) (st : Bot.state) :
  Bot.console st `prefix_of` Bot.console (Bot.log l ev st).
Proof. simpl. apply prefix_app_r. reflexivity. Qed.

Lemma bot_markProcessed_console (cfg : Bot.config) (e : Bot.env)
    (address : string) (st : Bot.state) :
  Bot.console st `prefix_of` Bot.console (Bot.markProcessed cfg e address st).2.
Proof.
  unfold Bot.markProcessed.
  destruct (Bot.redisClient cfg).
  - destruct (Bot.redis_set_raises e); [apply bot_log_console |].
    destruct (Redis.set_nx _ _ _ _); reflexivity.
  - destruct (_ !! _); reflexivity.
Qed.

Lemma bot_send_console (cfg : Bot.config) (e : Bot.env) (text : Bot.message)
    (st : Bot.state) :
  Bot.console st `prefix_of` Bot.console (Bot.sendTelegramMessage cfg e text st).
Proof.
  unfold Bot.sendTelegramMessage.
  destruct (negb _); [apply bot_log_console |].
  destruct (Bot.telegram_raises e); [apply bot_log_console | reflexivity].
Qed.

Lemma bot_decide_console (cfg : Bot.config) (e : Bot.env) (address : string)
    (m : Bot.metrics) (st : Bot.state) :
  Bot.console st
  `prefix_of` Bot.console (Bot.decide_and_notify cfg e address m st).
Proof.
  unfold Bot.decide_and_notify. destruct (Bot.passed cfg m).
  - etrans; [apply bot_send_console |].
    etrans; [apply bot_markProcessed_console |]. apply bot_log_console.
  - etrans; [| apply bot_log_console].
    destruct (_ && _); [apply bot_markProcessed_console | reflexivity].
Qed.

Lemma bot_evaluate_console (cfg : Bot.config) (e : Bot.env) (t : Bot.token)
    (address : string) (st : Bot.state) :
  Bot.console st `prefix_of` Bot.console (Bot.evaluate cfg e t address st).
Proof.
  unfold Bot.evaluate.
  etrans; [| apply bot_decide_console].
  destruct (bool_decide _); [apply bot_log_console | reflexivity].
Qed.

Lemma scanner_log_console (l : level) (ev : Scanner.event)
    (st : Scanner.state) :
  Scanner.console st `prefix_of` Scanner.console (Scanner.log l ev st).
Proof. simpl. apply prefix_app_r. reflexivity. Qed.

Lemma scanner_try_set_console (e : Scanner.env) (key : string) (ex : Z)
    (st : Scanner.state) :
  Scanner.console (Scanner.try_set e key ex st) = Scanner.console st.
Proof. unfold Scanner.try_set. destruct (Scanner.redis_set_raises e); reflexivity. Qed.

Lemma scanner_send_console (e : Scanner.env) (text : Scanner.message)
    (st : Scanner.state) :
  Scanner.console st
  `prefix_of` Scanner.console (Scanner.sendTelegramMarkdown e text st).
Proof.
  unfold Scanner.sendTelegramMarkdown.
  destruct (negb _); [apply scanner_log_console |].
  destruct (Scanner.telegram_raises e);
    [apply scanner_log_console | reflexivity].
Qed.

Lemma scanner_decide_console (e : Scanner.env) (c a key : string)
    (m : Scanner.metrics) (st : Scanner.state) :
  Scanner.console st
  `prefix_of` Scanner.console (Scanner.decide_and_notify e c a key m st).
Proof.
  unfold Scanner.decide_and_notify. destruct (negb _).
  - rewrite scanner_try_set_console. apply scanner_log_console.
  - etrans; [| apply scanner_log_console].
    rewrite scanner_try_set_console. apply scanner_send_console.
Qed.

Lemma scanner_evaluate_console (e : Scanner.env) (creator : option string)
    (c a key : string) (st : Scanner.state) :
  Scanner.console st
  `prefix_of` Scanner.console (Scanner.evaluate e creator c a key st).
Proof.
  unfold Scanner.evaluate.
  destruct (Scanner.fetchTokenMetadata e) as [meta |];
    [| rewrite scanner_try_set_console; apply scanner_log_console].
  destruct (Scanner.fetchTokenHolders e) as [| l | total l]; cbv zeta;
    [rewrite scanner_try_set_console; apply scanner_log_console | ..];
    (destruct (Scanner.topSum_of _); [| apply scanner_log_console];
     destruct (_ =? 0);
     [ rewrite scanner_try_set_console; apply scanner_log_console
     | apply scanner_decide_console ]).
Qed.

(** ** A failed delivery *)

(** The claim of C2 read on the code: the figures pass the filter, the
    call to Telegram raises, nothing reaches the chat, and the key is
    written to the ledger for twenty-four hours all the same. *)
Lemma failed_delivery_is_marked :
  let st' := Scanner.processTokenEvent
               (Examples.scanner_env 0 false false true)
               Examples.scanner_event Examples.scanner_start in
  Scanner.chat st' = []
  /\ Scanner.ledger st' !! "processed:solana:mint3" = Some (1000 * 86400)
  /\ Redis.get (Scanner.ledger st') "processed:solana:mint3" (1000 * 86399)
     = true.
Proof. vm_compute. repeat split; reflexivity. Qed.

Lemma bot_markProcessed_ledger (cfg : Bot.config) (e : Bot.env)
    (address : string) (st1 st2 : Bot.state) :
  Bot.redis st1 = Bot.redis st2 ->
  Bot.inMemoryProcessed st1 = Bot.inMemoryProcessed st2 ->
  let r1 := Bot.markProcessed cfg e address st1 in
  let r2 := Bot.markProcessed cfg e address st2 in
  r1.1 = r2.1
  /\ Bot.redis r1.2 = Bot.redis r2.2
  /\ Bot.inMemoryProcessed r1.2 = Bot.inMemoryProcessed r2.2.
Proof.
  intros Hr Hm. unfold Bot.markProcessed. rewrite Hr, Hm.
  destruct (Bot.redisClient cfg).
  - destruct (Bot.redis_set_raises e); simpl; [auto |].
    destruct (Redis.set_nx _ _ _ _); simpl; auto.
  - destruct (_ !! _); simpl; auto.
Qed.

Lemma bot_send_ledger (cfg : Bot.config) (e : Bot.env) (text : Bot.message)
    (st : Bot.state) :
  Bot.redis (Bot.sendTelegramMessage cfg e text st) = Bot.redis st
  /\ Bot.inMemoryProcessed (Bot.sendTelegramMessage cfg e text st)
     = Bot.inMemoryProcessed st.
Proof.
  unfold Bot.sendTelegramMessage.
  destruct (negb _); [auto |]. destruct (Bot.telegram_raises e); auto.
Qed.

Lemma bot_markProcessed_chat (cfg : Bot.config) (e : Bot.env)
    (address : string) (st : Bot.state) :
  Bot.chat (Bot.markProcessed cfg e address st).2 = Bot.chat st.
Proof.
  unfold Bot.markProcessed.
  destruct (Bot.redisClient cfg).
  - destruct (Bot.redis_set_raises e); [reflexivity |].
    destruct (Redis.set_nx _ _ _ _); reflexivity.
  - destruct (_ !! _); reflexivity.
Qed.

(** C2, amended: for figures that pass the filter the processed-mark is
    written after the one delivery attempt whether or not that attempt
    succeeded: the scanner sets the key for twenty-four hours, the polling
    bot calls [markProcessed].  A delivery that raises is caught inside
    the sender and logged; it adds nothing to the chat and is not reported
    to the caller. *)
Theorem mark_follows_delivery_attempt :
  (forall e c a key m st,
      Scanner.passed m = true ->
      let st' := Scanner.decide_and_notify e c a key m st in
      Scanner.ledger st'
      = (if Scanner.redis_set_raises e then Scanner.ledger st
         else Redis.set (Scanner.ledger st) key (60 * 60 * 24) (Scanner.now e))
      /\ (Scanner.telegram_configured e = true ->
          Scanner.telegram_raises e = true ->
          Scanner.chat st' = Scanner.chat st
          /\ (Scanner.console st ++ [(Warn, Scanner.TelegramFailed)])%list
             `prefix_of` Scanner.console st'))
  /\ (forall cfg e address m st,
        Bot.passed cfg m = true ->
        let st' := Bot.decide_and_notify cfg e address m st in
        let marked := (Bot.markProcessed cfg e address st).2 in
        Bot.redis st' = Bot.redis marked
        /\ Bot.inMemoryProcessed st' = Bot.inMemoryProcessed marked
        /\ (Bot.telegram_configured cfg = true ->
            Bot.telegram_raises e = true ->
            Bot.chat st' = Bot.chat st
            /\ (Bot.console st ++ [(Error, Bot.TelegramFailed)])%list
               `prefix_of` Bot.console st')).
Proof.
  split.
  - intros e c a key m st Hp. cbv zeta.
    unfold Scanner.decide_and_notify. rewrite Hp. simpl. split.
    + unfold Scanner.try_set, Scanner.sendTelegramMarkdown.
      destruct (Scanner.redis_set_raises e),
               (Scanner.telegram_configured e),
               (Scanner.telegram_raises e); reflexivity.
    + intros Hc Hr.
      unfold Scanner.try_set, Scanner.sendTelegramMarkdown.
      rewrite Hc, Hr. simpl.
      destruct (Scanner.redis_set_raises e); simpl;
        (split; [reflexivity | apply prefix_app_r; reflexivity]).
  - intros cfg e address m st Hp. cbv zeta.
    unfold Bot.decide_and_notify. rewrite Hp. simpl.
    pose proof (bot_send_ledger cfg e (Bot.Message address m) st) as [Hr Hm].
    pose proof (bot_markProcessed_ledger cfg e address _ _ Hr Hm)
      as (_ & Hr' & Hm').
    split; [exact Hr' |]. split; [exact Hm' |].
    intros Hc Ht. split.
    + rewrite bot_markProcessed_chat.
      unfold Bot.sendTelegramMessage. rewrite Hc, Ht. reflexivity.
    + apply prefix_app_r.
      etrans; [| apply bot_markProcessed_console].
      unfold Bot.sendTelegramMessage. rewrite Hc, Ht. simpl.
      reflexivity.
Qed.

Lemma mark_follows_delivery_attempt_witness :
  let m := Bot.Metrics (Some (Js.int 20000)) (Some (Js.int 50))
                       (Some (Js.int 15)) (Some (Js.int 1))
                       (Some (Js.int 500)) in
  let st' := Bot.decide_and_notify Examples.default_config
               (Examples.bot_env 7 false false true) "Mint1" m
               Examples.bot_start in
  let n := Scanner.Metrics (Some (Js.int 20000)) (Js.int 50) (Js.int 15)
                           (Js.int 1) (Some (Js.int 500)) in
  let st'' := Scanner.decide_and_notify
                (Examples.scanner_env 7 false false true)
                "solana" "mint3" "processed:solana:mint3" n
                Examples.scanner_start in
  (Bot.inMemoryProcessed st' !! "processed:Mint1" = Some 7
   /\ Bot.chat st' = [])
  /\ (Scanner.ledger st'' = Redis.set ∅ "processed:solana:mint3" 86400 7
      /\ Scanner.chat st'' = []).
Proof.
  cbv zeta.
  destruct mark_follows_delivery_attempt as [Hs Hb].
  split.
  - destruct (Hb Examples.default_config
                 (Examples.bot_env 7 false false true) "Mint1"
                 (Bot.Metrics (Some (Js.int 20000)) (Some (Js.int 50))
                              (Some (Js.int 15)) (Some (Js.int 1))
                              (Some (Js.int 500)))
                 Examples.bot_start)
      as (_ & Hm & Hc); [reflexivity |].
    split.
    + rewrite Hm. vm_compute. reflexivity.
    + apply Hc; reflexivity.
  - destruct (Hs (Examples.scanner_env 7 false false true)
                 "solana" "mint3" "processed:solana:mint3"
                 (Scanner.Metrics (Some (Js.int 20000)) (Js.int 50)
                                  (Js.int 15) (Js.int 1) (Some (Js.int 500)))
                 Examples.scanner_start)
      as (Hl & Hc); [reflexivity |].
    split; [exact Hl | apply Hc; reflexivity].
Defined.

(** ** The claim on the ledger *)

Lemma markProcessed_in_memory (cfg : Bot.config) (e : Bot.env)
    (address : string) (st : Bot.state) :
  Bot.redisClient cfg = false ->
  Bot.markProcessed cfg e address st
  = if ledger_has cfg (Bot.now e) st address then (false, st)
    else (true,
          Bot.State (Bot.redis st)
                    (<[Bot.key_of address := Bot.now e]> (Bot.inMemoryProcessed st))
                    (Bot.console st) (Bot.chat st)).
Proof.
  intros Hc. unfold Bot.markProcessed, ledger_has. rewrite Hc.
  destruct (Bot.inMemoryProcessed st !! Bot.key_of address) eqn:E.
  - rewrite bool_decide_eq_true_2 by eauto. reflexivity.
  - rewrite bool_decide_eq_false_2; [reflexivity |].
    intros [? ?]; discriminate.
Qed.

Lemma markProcessed_redis (cfg : Bot.config) (e : Bot.env)
    (address : string) (st : Bot.state) :
  Bot.redisClient cfg = true ->
  Bot.redis_set_raises e = false ->
  Bot.markProcessed cfg e address st
  = if ledger_has cfg (Bot.now e) st address then (false, st)
    else (true,
          Bot.State (Redis.set (Bot.redis st) (Bot.key_of address)
                               (Bot.DEDUPE_TTL_SEC cfg) (Bot.now e))
                    (Bot.inMemoryProcessed st) (Bot.console st) (Bot.chat st)).
Proof.
  intros Hc Hs. unfold Bot.markProcessed, ledger_has, Redis.set_nx.
  rewrite Hc, Hs.
  destruct (Redis.live _ _ _); [destruct st |]; reflexivity.
Qed.

Lemma markProcessed_redis_raises (cfg : Bot.config) (e : Bot.env)
    (address : string) (st : Bot.state) :
  Bot.redisClient cfg = true ->
  Bot.redis_set_raises e = true ->
  Bot.markProcessed cfg e address st
  = (false, Bot.log Error Bot.RedisSetFailed st).
Proof.
  intros Hc Hs. unfold Bot.markProcessed. rewrite Hc, Hs. reflexivity.
Qed.

Lemma redis_live_after_set (db : gmap string Z) (key : string)
    (ex now now' : Z) :
  now' < now + 1000 * ex ->
  Redis.live (Redis.set db key ex now) key now' = true.
Proof.
  intros H. unfold Redis.live, Redis.set. rewrite lookup_insert_eq.
  apply Z.ltb_lt. exact H.
Qed.

(** After a claim that succeeded the ledger holds the key: for the whole
    TTL in Redis, until the sweep in the in-memory Map. *)
Lemma ledger_has_after_claim (cfg : Bot.config) (e : Bot.env)
    (address : string) (st st' : Bot.state) (now' : Z) :
  Bot.markProcessed cfg e address st = (true, st') ->
  now' < Bot.now e + 1000 * Bot.DEDUPE_TTL_SEC cfg ->
  ledger_has cfg now' st' address = true.
Proof.
  intros Hm Hnow. destruct (Bot.redisClient cfg) eqn:Hc.
  - destruct (Bot.redis_set_raises e) eqn:Hs.
    + rewrite markProcessed_redis_raises in Hm by assumption. discriminate.
    + rewrite markProcessed_redis in Hm by assumption.
      destruct (ledger_has cfg (Bot.now e) st address); [discriminate |].
      injection Hm as <-. unfold ledger_has. rewrite Hc. simpl.
      apply redis_live_after_set. exact Hnow.
  - rewrite markProcessed_in_memory in Hm by assumption.
    destruct (ledger_has cfg (Bot.now e) st address); [discriminate |].
    injection Hm as <-. unfold ledger_has. rewrite Hc. simpl.
    rewrite lookup_insert_eq. apply bool_decide_eq_true_2. eauto.
Qed.

(** The periodic sweep of the in-memory Map leaves an entry alone until
    its TTL has run out. *)
Lemma ledger_has_after_sweep (cfg : Bot.config) (e : Bot.env)
    (address : string) (st st' : Bot.state) (swept_at now' : Z) :
  Bot.markProcessed cfg e address st = (true, st') ->
  now' < Bot.now e + 1000 * Bot.DEDUPE_TTL_SEC cfg ->
  swept_at <= Bot.now e + 1000 * Bot.DEDUPE_TTL_SEC cfg ->
  ledger_has cfg now' (Bot.sweep cfg swept_at st') address = true.
Proof.
  intros Hm Hnow Hsw. destruct (Bot.redisClient cfg) eqn:Hc.
  - pose proof (ledger_has_after_claim cfg e address st st' now' Hm Hnow) as H.
    unfold ledger_has in *. rewrite Hc in *. exact H.
  - rewrite markProcessed_in_memory in Hm by assumption.
    destruct (ledger_has cfg (Bot.now e) st address); [discriminate |].
    injection Hm as <-. unfold ledger_has. rewrite Hc. simpl.
    apply bool_decide_eq_true_2. exists (Bot.now e).
    apply map_lookup_filter_Some. split; [apply lookup_insert_eq |].
    simpl. lia.
Qed.

(** A claim on a key that the ledger holds fails and changes nothing in
    the ledger. *)
Lemma claim_on_held_key_fails (cfg : Bot.config) (e : Bot.env)
    (address : string) (st : Bot.state) :
  ledger_has cfg (Bot.now e) st address = true ->
  (Bot.markProcessed cfg e address st).1 = false
  /\ Bot.redis (Bot.markProcessed cfg e address st).2 = Bot.redis st
  /\ Bot.inMemoryProcessed (Bot.markProcessed cfg e address st).2
     = Bot.inMemoryProcessed st.
Proof.
  intros Hh. destruct (Bot.redisClient cfg) eqn:Hc.
  - destruct (Bot.redis_set_raises e) eqn:Hs.
    + rewrite markProcessed_redis_raises by assumption. auto.
    + rewrite markProcessed_redis by assumption. rewrite Hh. auto.
  - rewrite markProcessed_in_memory by assumption. rewrite Hh. auto.
Qed.

(** ** The same address twice in the feed *)

(** Closes a goal [evaluated o -> _] where [o] is [Skipped] or [Raised]. *)
Ltac not_evaluated := simpl; intros [? | ?]; discriminate.

Lemma poller_send_redis (e : Poller.env) (t : Poller.token) (st : Poller.state) :
  Poller.redis (Poller.sendTelegramMessage e t st) = Poller.redis st.
Proof.
  unfold Poller.sendTelegramMessage.
  destruct (Poller.telegram_raises e); reflexivity.
Qed.

Lemma marked_after_set (db : gmap string Z) (k key : string) (now until : Z) :
  marked (Poller.Upstash db) key until ->
  Redis.get db k now = false ->
  marked (Poller.Upstash (Redis.set db k 3600 now)) key until.
Proof.
  intros (x & Hx & Hle) Hget. unfold marked, Redis.set.
  destruct (decide (k = key)) as [-> | Hne].
  - rewrite lookup_insert_eq. eexists; split; [reflexivity |].
    unfold Redis.get, Redis.live in Hget. rewrite Hx in Hget.
    apply Z.ltb_ge in Hget. lia.
  - rewrite lookup_insert_ne by exact Hne. eauto.
Qed.

(** A turn of the loop never takes a mark away. *)
Lemma pollStep_keeps_mark (e : Poller.env) (t : Poller.token)
    (st : Poller.state) (key : string) (until : Z) :
  marked (Poller.redis st) key until ->
  marked (Poller.redis (Poller.pollStep e t st).2) key until.
Proof.
  intros Hm. unfold Poller.pollStep, Poller.redis_get, Poller.redis_set.
  destruct (Poller.redis st) as [db | cache] eqn:Hst.
  - destruct (Poller.redis_get_raises e); [simpl; rewrite Hst; exact Hm |].
    destruct (Redis.get db (Poller.key_of t) (Poller.now e)) eqn:Hget;
      [simpl; rewrite Hst; exact Hm |].
    destruct (Poller.redis_set_raises e); [simpl; rewrite Hst; exact Hm |].
    destruct (Poller.rejected t); simpl;
      [| rewrite poller_send_redis; simpl];
      apply marked_after_set; assumption.
  - destruct (bool_decide (Poller.key_of t ∈ cache));
      [simpl; rewrite Hst; exact Hm |].
    destruct (Poller.rejected t); simpl;
      [| rewrite poller_send_redis; simpl];
      simpl in Hm; set_solver.
Qed.

(** A turn that evaluated its token left the key marked for an hour. *)
Lemma pollStep_marks (e : Poller.env) (t : Poller.token) (st : Poller.state) :
  evaluated (Poller.pollStep e t st).1 ->
  marked (Poller.redis (Poller.pollStep e t st).2) (Poller.key_of t)
         (Poller.now e + 1000 * 3600).
Proof.
  unfold Poller.pollStep, Poller.redis_get, Poller.redis_set, evaluated.
  destruct (Poller.redis st) as [db | cache].
  - destruct (Poller.redis_get_raises e); [not_evaluated |].
    destruct (Redis.get db (Poller.key_of t) (Poller.now e));
      [not_evaluated |].
    destruct (Poller.redis_set_raises e); [not_evaluated |].
    intros _.
    destruct (Poller.rejected t); simpl;
      [| rewrite poller_send_redis; simpl];
      (exists (Poller.now e + 1000 * 3600); split;
       [apply lookup_insert_eq | lia]).
  - destruct (bool_decide (Poller.key_of t ∈ cache));
      [not_evaluated |].
    intros _.
    destruct (Poller.rejected t); simpl;
      [| rewrite poller_send_redis; simpl]; set_solver.
Qed.

(** A token whose key is marked is not evaluated. *)
Lemma pollStep_marked_not_evaluated (e : Poller.env) (t : Poller.token)
    (st : Poller.state) (until : Z) :
  marked (Poller.redis st) (Poller.key_of t) until ->
  Poller.now e < until ->
  ~ evaluated (Poller.pollStep e t st).1.
Proof.
  intros Hm Hnow.
  unfold Poller.pollStep, Poller.redis_get, evaluated.
  destruct (Poller.redis st) as [db | cache]; simpl in Hm.
  - destruct (Poller.redis_get_raises e); [not_evaluated |].
    destruct Hm as (x & Hx & Hle).
    unfold Redis.get, Redis.live. rewrite Hx.
    destruct (Z.ltb_spec (Poller.now e) x); [| lia].
    simpl. intros [? | ?]; discriminate.
  - rewrite bool_decide_eq_true_2 by exact Hm.
    simpl. intros [? | ?]; discriminate.
Qed.

(** Through the rest of the loop a marked key stays unevaluated. *)
Lemma pollLoop_marked_not_evaluated (mid post : list (Poller.env * Poller.token))
    (e2 : Poller.env) (t2 : Poller.token) (until : Z) :
  Poller.now e2 < until ->
  forall (st : Poller.state) (o2 : Poller.outcome),
    marked (Poller.redis st) (Poller.key_of t2) until ->
    (Poller.pollLoop (mid ++ (e2, t2) :: post) st).1 !! length mid = Some o2 ->
    ~ evaluated o2.
Proof.
  intros Hnow. induction mid as [| [e t] mid IH]; intros st o2 Hm Hlook.
  - simpl in Hlook.
    pose proof (pollStep_marked_not_evaluated e2 t2 st until Hm Hnow) as Hne.
    destruct (Poller.pollStep e2 t2 st) as [o st1]. simpl in Hne.
    destruct o; try destruct (Poller.pollLoop post st1);
      simpl in Hlook; injection Hlook as <-; exact Hne.
  - simpl in Hlook.
    pose proof (pollStep_keeps_mark e t st _ until Hm) as Hkeep.
    destruct (Poller.pollStep e t st) as [o st1]. simpl in Hkeep.
    specialize (IH st1 o2 Hkeep).
    destruct o;
      try (destruct (Poller.pollLoop (mid ++ (e2, t2) :: post) st1);
           simpl in Hlook, IH; exact (IH Hlook)).
    simpl in Hlook. discriminate.
Qed.

(** Scenario C on the feed poller: once a token has been evaluated, a
    later token of the same feed with the same address, met within the
    hour, is not evaluated. *)
Lemma pollLoop_second_not_evaluated
    (pre mid post : list (Poller.env * Poller.token))
    (e1 e2 : Poller.env) (t1 t2 : Poller.token) :
  Poller.address t1 = Poller.address t2 ->
  Poller.now e2 < Poller.now e1 + 1000 * 3600 ->
  forall (st : Poller.state) (o1 o2 : Poller.outcome),
    let outs :=
      (Poller.pollLoop (pre ++ (e1, t1) :: mid ++ (e2, t2) :: post) st).1 in
    outs !! length pre = Some o1 ->
    evaluated o1 ->
    outs !! (length pre + S (length mid))%nat = Some o2 ->
    ~ evaluated o2.
Proof.
  intros Haddr Hnow. cbv zeta.
  assert (Hkey : Poller.key_of t1 = Poller.key_of t2)
    by (unfold Poller.key_of; rewrite Haddr; reflexivity).
  induction pre as [| [e t] pre IH]; intros st o1 o2 H1 Hev H2.
  - simpl in H1, H2.
    pose proof (pollStep_marks e1 t1 st) as Hmark.
    destruct (Poller.pollStep e1 t1 st) as [o st1]. simpl in Hmark.
    rewrite Hkey in Hmark.
    pose proof (pollLoop_marked_not_evaluated mid post e2 t2 _ Hnow st1 o2)
      as Hrest.
    destruct o;
      try (destruct (Poller.pollLoop (mid ++ (e2, t2) :: post) st1);
           simpl in H1, H2, Hrest; injection H1 as <-;
           apply Hrest; [apply Hmark; exact Hev | exact H2]).
    simpl in H1. injection H1 as <-. destruct Hev; discriminate.
  - simpl in H1, H2.
    destruct (Poller.pollStep e t st) as [o st1].
    specialize (IH st1 o1 o2).
    destruct o;
      try (destruct (Poller.pollLoop
                       (pre ++ (e1, t1) :: mid ++ (e2, t2) :: post) st1);
           simpl in H1, H2, IH; exact (IH H1 Hev H2)).
    simpl in H1. destruct pre; discriminate.
Qed.

(** A turn of the loop taken alone is the read followed at once by the
    rest. *)
Lemma pollStep_check_resume (e : Poller.env) (t : Poller.token)
    (st : Poller.state) :
  Poller.pollStep e t st
  = match Overlap.check e t st with
    | None => (Poller.Raised, st)
    | Some seen => Overlap.resume e t seen st
    end.
Proof.
  unfold Poller.pollStep, Overlap.check, Overlap.resume.
  destruct (Poller.redis_get e (Poller.key_of t) st) as [[|] |]; reflexivity.
Qed.

(** The claim of C1 read on the code: one address met twice within the
    TTL is evaluated twice.  In the feed poller two runs that overlap
    both read the key before either writes it, and both notify.  In the
    polling bot a token reported and marked is reported again when the
    read of the ledger raises, while the claim made after the second
    report answers [false], an answer the caller never reads; and a
    token none of whose figures resolves is never marked, so it goes
    through the filter at every poll. *)
Lemma one_address_evaluated_twice :
  (let t := Examples.poller_token in
   let st := Examples.poller_start in
   Overlap.check (Examples.poller_env 0) t st = Some false
   /\ Overlap.check (Examples.poller_env 1) t st = Some false
   /\ (let r1 := Overlap.resume (Examples.poller_env 2) t false st in
       let r2 := Overlap.resume (Examples.poller_env 3) t false r1.2 in
       r1.1 = Poller.Notified
       /\ r2.1 = Poller.Notified
       /\ Poller.chat r2.2 = [t; t]))
  /\ (let cfg := Examples.redis_config in
      let e2 := Examples.bot_env 5 true false false in
      let st1 := Bot.processToken cfg (Examples.bot_env 0 false false false)
                   Examples.good_token Examples.bot_start in
      let st2 := Bot.processToken cfg e2 Examples.good_token st1 in
      ledger_has cfg 5 st1 "Mint1" = true
      /\ length (Bot.chat st1) = 1%nat
      /\ length (Bot.chat st2) = 2%nat
      /\ (Bot.markProcessed cfg e2 "Mint1" st1).1 = false)
  /\ (let cfg := Examples.default_config in
      let t := MoreExamples.unresolved_token in
      let m := Bot.resolve cfg (Examples.bot_env 0 false false false) t in
      let st1 := Bot.processToken cfg (Examples.bot_env 0 false false false)
                   t Examples.bot_start in
      let st2 := Bot.processToken cfg (Examples.bot_env 5 false false false)
                   t st1 in
      ledger_has cfg 5 st1 "Mint1" = false
      /\ map snd (Bot.console st2)
         = [ Bot.VolumeNotVisible "Mint1"; Bot.DidNotMatch "Mint1" m;
             Bot.VolumeNotVisible "Mint1"; Bot.DidNotMatch "Mint1" m ]).
Proof.
  split; [| split].
  - cbv zeta. repeat split; vm_compute; reflexivity.
  - cbv zeta. repeat split; vm_compute; reflexivity.
  - cbv zeta. split; vm_compute; reflexivity.
Qed.

(** C1, amended: whenever the ledger answers, [markProcessed] creates the
    entry exactly when the ledger does not hold the key, and answers
    [true] exactly when it created it: a claim on a held key answers
    [false] and leaves the state as it was, a claim that succeeded leaves
    the key held for the whole TTL, through the sweeps of the in-memory
    Map too, so a second claim within the TTL fails.  When the call to
    Redis raises nothing is created and the answer is [false].  Within
    one run of the loop of the feed poller, its turns taken one after the
    other, a token whose address was evaluated earlier in the run, less
    than an hour before, is not evaluated again. *)
Theorem claim_once :
  (forall cfg e address st,
      (Bot.redisClient cfg = true -> Bot.redis_set_raises e = false) ->
      let r := Bot.markProcessed cfg e address st in
      r.1 = negb (ledger_has cfg (Bot.now e) st address)
      /\ (r.1 = false -> r.2 = st)
      /\ (r.1 = true ->
          forall now', now' < Bot.now e + 1000 * Bot.DEDUPE_TTL_SEC cfg ->
                       ledger_has cfg now' r.2 address = true))
  /\ (forall cfg e address st,
        Bot.redisClient cfg = true -> Bot.redis_set_raises e = true ->
        let r := Bot.markProcessed cfg e address st in
        r.1 = false
        /\ Bot.redis r.2 = Bot.redis st
        /\ Bot.inMemoryProcessed r.2 = Bot.inMemoryProcessed st)
  /\ (forall cfg e1 e2 address st st1,
        Bot.markProcessed cfg e1 address st = (true, st1) ->
        Bot.now e2 < Bot.now e1 + 1000 * Bot.DEDUPE_TTL_SEC cfg ->
        let r := Bot.markProcessed cfg e2 address st1 in
        r.1 = false
        /\ Bot.redis r.2 = Bot.redis st1
        /\ Bot.inMemoryProcessed r.2 = Bot.inMemoryProcessed st1)
  /\ (forall cfg e1 e2 address st st1 swept_at,
        Bot.markProcessed cfg e1 address st = (true, st1) ->
        Bot.now e2 < Bot.now e1 + 1000 * Bot.DEDUPE_TTL_SEC cfg ->
        swept_at <= Bot.now e1 + 1000 * Bot.DEDUPE_TTL_SEC cfg ->
        (Bot.markProcessed cfg e2 address (Bot.sweep cfg swept_at st1)).1
        = false)
  /\ (forall pre mid post e1 e2 t1 t2 st o1 o2,
        Poller.address t1 = Poller.address t2 ->
        Poller.now e2 < Poller.now e1 + 1000 * 3600 ->
        let outs :=
          (Poller.pollLoop (pre ++ (e1, t1) :: mid ++ (e2, t2) :: post) st).1 in
        outs !! length pre = Some o1 ->
        evaluated o1 ->
        outs !! (length pre + S (length mid))%nat = Some o2 ->
        ~ evaluated o2).
Proof.
  split; [| split; [| split; [| split]]].
  - intros cfg e address st Hup. cbv zeta.
    assert (Heq :
      Bot.markProcessed cfg e address st
      = if ledger_has cfg (Bot.now e) st address then (false, st)
        else (true, (Bot.markProcessed cfg e address st).2)).
    { destruct (Bot.redisClient cfg) eqn:Hc.
      - rewrite markProcessed_redis by auto.
        destruct (ledger_has cfg (Bot.now e) st address); reflexivity.
      - rewrite markProcessed_in_memory by auto.
        destruct (ledger_has cfg (Bot.now e) st address); reflexivity. }
    destruct (ledger_has cfg (Bot.now e) st address) eqn:Hh.
    + rewrite Heq. simpl. split; [reflexivity |]. split; [reflexivity | discriminate].
    + split; [rewrite Heq; reflexivity |].
      split; [rewrite Heq; discriminate |].
      intros _ now' Hnow.
      apply (ledger_has_after_claim cfg e address st); [exact Heq | exact Hnow].
  - intros cfg e address st Hc Hs. cbv zeta.
    rewrite markProcessed_redis_raises by assumption. auto.
  - intros cfg e1 e2 address st st1 Hm Hnow. cbv zeta.
    apply claim_on_held_key_fails.
    apply (ledger_has_after_claim cfg e1 address st); assumption.
  - intros cfg e1 e2 address st st1 swept_at Hm Hnow Hsw.
    apply claim_on_held_key_fails.
    apply (ledger_has_after_sweep cfg e1 address st); assumption.
  - intros pre mid post e1 e2 t1 t2 st o1 o2 Ha Hnow.
    apply pollLoop_second_not_evaluated; assumption.
Qed.

Lemma claim_once_witness :
  (Bot.markProcessed Examples.redis_config
     (Examples.bot_env 10 false false false) "Mint1" Examples.bot_start).1
  = true
  /\ (Bot.markProcessed Examples.redis_config
        (Examples.bot_env 20 false false false) "Mint1"
        (Bot.markProcessed Examples.redis_config
           (Examples.bot_env 10 false false false) "Mint1"
           Examples.bot_start).2).1
     = false
  /\ (Poller.pollLoop
        [ (Examples.poller_env 0, Examples.poller_token);
          (Examples.poller_env 5, Examples.poller_token) ]
        Examples.poller_start).1
     = [ Poller.Notified; Poller.Skipped ]
  /\ ~ evaluated Poller.Skipped.
Proof.
  destruct claim_once as (H1 & _ & H3 & _ & H4).
  split; [| split; [| split]].
  - destruct (H1 Examples.redis_config (Examples.bot_env 10 false false false)
                "Mint1" Examples.bot_start) as [H _]; [reflexivity |].
    rewrite H. vm_compute. reflexivity.
  - apply (H3 Examples.redis_config (Examples.bot_env 10 false false false)
              (Examples.bot_env 20 false false false) "Mint1"
              Examples.bot_start).
    + vm_compute. reflexivity.
    + vm_compute. reflexivity.
  - vm_compute. reflexivity.
  - apply (H4 [] [] [] (Examples.poller_env 0) (Examples.poller_env 5)
              Examples.poller_token Examples.poller_token
              Examples.poller_start Poller.Notified Poller.Skipped).
    + reflexivity.
    + vm_compute. reflexivity.
    + vm_compute. reflexivity.
    + right. reflexivity.
    + vm_compute. reflexivity.
Defined.

(** * Further properties of the code *)

(** ** Shares as numbers *)

Lemma le_hundredths (x y : Z) :
  Js.le (Js.Fin (x # 100)) (Js.Fin (y # 100)) = true <-> x <= y.
Proof.
  simpl. unfold Qle_bool. simpl. rewrite Z.leb_le. lia.
Qed.

Lemma lt_hundredths_int (x k : Z) :
  Js.lt (Js.Fin (x # 100)) (Js.int k) = true <-> x < k * 100.
Proof.
  simpl. unfold Qle_bool. simpl. rewrite negb_true_iff, Z.leb_gt. lia.
Qed.

(** X1: for a positive total the share grows with the amount, is never
    negative for a non-negative amount, and does not exceed 100 for an
    amount that does not exceed the total. *)
Theorem percentBigInt_monotone_bounded (a b total : Z) :
  0 <= a -> a <= b -> 0 < total ->
  Js.le (Scanner.percentBigInt a total) (Scanner.percentBigInt b total) = true
  /\ Js.le (Js.Fin (0 # 100)) (Scanner.percentBigInt a total) = true
  /\ (b <= total ->
      Js.le (Scanner.percentBigInt b total) (Js.Fin (10000 # 100)) = true).
Proof.
  intros Ha Hab Ht.
  assert (H0 : 0 <= a * 10000 / total) by (apply Z.div_pos; lia).
  assert (Hq : a * 10000 / total <= b * 10000 / total)
    by (apply Z.div_le_mono; lia).
  split; [| split].
  - rewrite !percentBigInt_nonzero by lia.
    rewrite !Z.quot_div_nonneg by lia.
    apply hundredth_ofBigInt_mono; assumption.
  - rewrite percentBigInt_nonzero by lia.
    rewrite Z.quot_div_nonneg by lia.
    apply (hundredth_ofBigInt_mono 0 _ ltac:(lia) H0).
  - intros Hb.
    assert (Hs : 0 <= b * 10000 / total <= 10000)
      by (split; [lia | apply Z.div_le_upper_bound; lia]).
    assert (H53 : 10000 < 2 ^ 53) by reflexivity.
    rewrite percentBigInt_exact by (rewrite ?Z.quot_div_nonneg; lia).
    rewrite Z.quot_div_nonneg by lia.
    apply le_hundredths. lia.
Qed.

Lemma percentBigInt_monotone_bounded_witness :
  (0 <= 5 /\ 5 <= 900 /\ 0 < 1000)
  /\ Js.le (Scanner.percentBigInt 5 1000) (Scanner.percentBigInt 900 1000)
     = true.
Proof.
  split; [lia |].
  destruct (percentBigInt_monotone_bounded 5 900 1000) as [H _];
    [lia | lia | lia | exact H].
Defined.

(** X2: truncating to hundredths never changes the side of a whole
    threshold on which a share falls: for a threshold [k] from [0] to
    [2 ^ 40], as are the [20] and the [3] of the filter, the share is
    below [k] exactly when the exact ratio [100 * amount / total] is. *)
Theorem percentBigInt_threshold_exact (amount total k : Z) :
  0 <= amount -> 0 < total -> 0 <= k <= 2 ^ 40 ->
  Js.lt (Scanner.percentBigInt amount total) (Js.int k) = true
  <-> amount * 100 < k * total.
Proof.
  intros Ha Ht Hk.
  assert (H0 : 0 <= amount * 10000 / total) by (apply Z.div_pos; lia).
  assert (H40 : 2 ^ 40 * 100 < 2 ^ 53) by reflexivity.
  rewrite percentBigInt_nonzero by lia.
  rewrite Z.quot_div_nonneg by lia.
  destruct (Z.lt_ge_cases (amount * 10000 / total) (2 ^ 53)) as [Hs | Hs].
  - rewrite ofBigInt_exact by lia. rewrite hundredth_int.
    rewrite lt_hundredths_int. split.
    + intros H.
      destruct (Z.lt_ge_cases (amount * 100) (k * total)) as [Hlt | Hge];
        [exact Hlt |].
      assert (k * 100 <= amount * 10000 / total)
        by (apply Z.div_le_lower_bound; lia).
      lia.
    + intros H. apply Z.div_lt_upper_bound; lia.
  - assert (Hge : k * total <= amount * 100).
    { assert (Hm : total * (amount * 10000 / total) <= amount * 10000)
        by (apply Z.mul_div_le; lia).
      nia. }
    split; [| lia].
    rewrite ofBigInt_nonneg by lia.
    pose proof (round53_mono (2 ^ 53) _ ltac:(lia) Hs) as Hr.
    change (Js.round53 (2 ^ 53)) with (2 ^ 53) in Hr.
    destruct (Z.leb_spec (2 ^ 1024) (Js.round53 (amount * 10000 / total)));
      [discriminate |].
    rewrite hundredth_int, lt_hundredths_int. lia.
Qed.

Lemma percentBigInt_threshold_exact_witness :
  (0 <= 29 /\ 0 < 1000 /\ 0 <= 3 <= 2 ^ 40)
  /\ (Js.lt (Scanner.percentBigInt 29 1000) (Js.int 3) = true
      <-> 29 * 100 < 3 * 1000).
Proof.
  assert (Hk : 0 <= 3 <= 2 ^ 40) by (split; [lia | vm_compute; discriminate]).
  split; [repeat split; try lia; apply Hk |].
  apply percentBigInt_threshold_exact; [lia | lia | exact Hk].
Defined.

(** ** One call of the scanner *)

Lemma scanner_try_set_ledger (e : Scanner.env) (key : string) (ex : Z)
    (st : Scanner.state) :
  Scanner.ledger (Scanner.try_set e key ex st)
  = if Scanner.redis_set_raises e then Scanner.ledger st
    else Redis.set (Scanner.ledger st) key ex (Scanner.now e).
Proof. unfold Scanner.try_set. destruct (Scanner.redis_set_raises e); reflexivity. Qed.

Lemma scanner_try_set_chat (e : Scanner.env) (key : string) (ex : Z)
    (st : Scanner.state) :
  Scanner.chat (Scanner.try_set e key ex st) = Scanner.chat st.
Proof. unfold Scanner.try_set. destruct (Scanner.redis_set_raises e); reflexivity. Qed.

Lemma scanner_send_ledger (e : Scanner.env) (text : Scanner.message)
    (st : Scanner.state) :
  Scanner.ledger (Scanner.sendTelegramMarkdown e text st) = Scanner.ledger st.
Proof.
  unfold Scanner.sendTelegramMarkdown.
  destruct (negb _); [reflexivity |].
  destruct (Scanner.telegram_raises e); reflexivity.
Qed.

(** The expiries the scanner writes, in seconds: twenty minutes, one
    hour, six hours, one day. *)
Lemma scanner_evaluate_ledger (e : Scanner.env) (creator : option string)
    (c a key : string) (st : Scanner.state) :
  Scanner.ledger (Scanner.evaluate e creator c a key st) = Scanner.ledger st
  \/ exists ex,
       ex ∈ [1200; 3600; 21600; 86400]
       /\ Scanner.ledger (Scanner.evaluate e creator c a key st)
          = Redis.set (Scanner.ledger st) key ex (Scanner.now e).
Proof.
  assert (Hset : forall ex ev,
    ex ∈ [1200; 3600; 21600; 86400] ->
    Scanner.ledger (Scanner.try_set e key ex (Scanner.log Info ev st))
    = Scanner.ledger st
    \/ exists ex',
         ex' ∈ [1200; 3600; 21600; 86400]
         /\ Scanner.ledger (Scanner.try_set e key ex (Scanner.log Info ev st))
            = Redis.set (Scanner.ledger st) key ex' (Scanner.now e)).
  { intros ex ev Hex. rewrite scanner_try_set_ledger.
    destruct (Scanner.redis_set_raises e); [left; reflexivity |].
    right. exists ex. split; [exact Hex | reflexivity]. }
  unfold Scanner.evaluate.
  destruct (Scanner.fetchTokenMetadata e) as [meta |];
    [| apply Hset; set_solver].
  destruct (Scanner.fetchTokenHolders e) as [| l | total l]; cbv zeta;
    [apply Hset; set_solver | ..];
    (destruct (Scanner.topSum_of _); [| left; reflexivity];
     destruct (_ =? 0); [apply Hset; set_solver |];
     unfold Scanner.decide_and_notify;
     destruct (negb _); [apply Hset; set_solver |];
     simpl; rewrite scanner_try_set_ledger, scanner_send_ledger;
     destruct (Scanner.redis_set_raises e); [left; reflexivity |];
     right; exists 86400; split; [set_solver | reflexivity]).
Qed.

(** X3: one call of [processTokenEvent] either leaves the ledger as it
    was or sets the key of its own token, for twenty minutes, one hour,
    six hours or one day; no other key is ever touched. *)
Theorem processTokenEvent_ledger_effect (e : Scanner.env)
    (t : Scanner.token_event) (st : Scanner.state) :
  let key :=
    Scanner.key_of
      (Js.toLowerCase
         (default "" (Js.or_string (Scanner.chain t) (Some "unknown"))))
      (Js.toLowerCase (default "" (Scanner.address t))) in
  let st' := Scanner.processTokenEvent e t st in
  (Scanner.ledger st' = Scanner.ledger st
   \/ exists ex,
        ex ∈ [1200; 3600; 21600; 86400]
        /\ Scanner.ledger st'
           = Redis.set (Scanner.ledger st) key ex (Scanner.now e))
  /\ (forall k, k <> key -> Scanner.ledger st' !! k = Scanner.ledger st !! k).
Proof.
  cbv zeta.
  match goal with |- ?A /\ _ => assert (H : A) end.
  { unfold Scanner.processTokenEvent.
    destruct (negb _); [left; reflexivity |].
    destruct (Scanner.redis_get_raises e).
    - apply (scanner_evaluate_ledger e _ _ _ _
               (Scanner.log Warn Scanner.RedisGetFailed st)).
    - destruct (Redis.get _ _ _); [left; reflexivity |].
      apply scanner_evaluate_ledger. }
  split; [exact H |].
  intros k Hk. destruct H as [-> | (ex & _ & ->)]; [reflexivity |].
  unfold Redis.set. rewrite lookup_insert_ne by congruence. reflexivity.
Qed.

Lemma processTokenEvent_ledger_effect_witness :
  Scanner.ledger
    (Scanner.processTokenEvent (Examples.scanner_env 5 false false false)
       (Scanner.TokenEvent (Some "solana") (Some "Other") None)
       Examples.scanner_marked)
  !! "processed:solana:mint3"
  = Some (1000 * 3600).
Proof.
  destruct (processTokenEvent_ledger_effect
              (Examples.scanner_env 5 false false false)
              (Scanner.TokenEvent (Some "solana") (Some "Other") None)
              Examples.scanner_marked) as [_ H].
  rewrite H; [reflexivity | discriminate].
Defined.




Lemma scanner_evaluate_marks (e : Scanner.env) (creator : option string)
    (c a key : string) (st : Scanner.state) :
  Scanner.redis_set_raises e = false ->
  is_Some (Scanner.topSum_of
             (Scanner.holdersList_of (Scanner.fetchTokenHolders e))) ->
  exists ex,
    1200 <= ex
    /\ Scanner.ledger (Scanner.evaluate e creator c a key st)
       = Redis.set (Scanner.ledger st) key ex (Scanner.now e).
Proof.
  intros Hs [ts Hts].
  assert (Hset : forall ex ev,
    1200 <= ex ->
    exists ex',
      1200 <= ex'
      /\ Scanner.ledger (Scanner.try_set e key ex (Scanner.log Info ev st))
         = Redis.set (Scanner.ledger st) key ex' (Scanner.now e)).
  { intros ex ev Hex. exists ex. rewrite scanner_try_set_ledger, Hs.
    split; [exact Hex | reflexivity]. }
  unfold Scanner.evaluate. rewrite Hts.
  destruct (Scanner.fetchTokenMetadata e) as [meta |];
    [| apply Hset; lia].
  destruct (Scanner.fetchTokenHolders e) as [| l | total l]; cbv zeta;
    [apply Hset; lia | ..];
    (destruct (_ =? 0); [apply Hset; lia |];
     unfold Scanner.decide_and_notify;
     destruct (negb _); [apply Hset; lia |];
     simpl; rewrite scanner_try_set_ledger, scanner_send_ledger, Hs;
     exists 86400; split; [lia | reflexivity]).
Qed.

(** X5: once a token that the ledger did not hold has been processed
    (Redis answering, the first ten balances readable), whatever the
    outcome, a second event for it within twenty minutes only writes
    'Already processed' to the console: no provider is consulted, the
    ledger and the chat stay as they are. *)
Theorem processTokenEvent_not_repeated (e e2 : Scanner.env)
    (t : Scanner.token_event) (st : Scanner.state) (a : string) :
  Scanner.address t = Some a ->
  a <> "" ->
  Scanner.redis_get_raises e = false ->
  Scanner.redis_set_raises e = false ->
  is_Some (Scanner.topSum_of
             (Scanner.holdersList_of (Scanner.fetchTokenHolders e))) ->
  let c := Js.toLowerCase
             (default "" (Js.or_string (Scanner.chain t) (Some "unknown"))) in
  Redis.get (Scanner.ledger st) (Scanner.key_of c (Js.toLowerCase a))
            (Scanner.now e) = false ->
  Scanner.redis_get_raises e2 = false ->
  Scanner.now e2 < Scanner.now e + 1000 * 1200 ->
  let st1 := Scanner.processTokenEvent e t st in
  Scanner.processTokenEvent e2 t st1
  = Scanner.log Info (Scanner.AlreadyProcessed c (Js.toLowerCase a)) st1.
Proof.
  intros Ha Hne Hg Hs Hts c Hfresh Hg2 Hnow st1.
  assert (Hled : exists ex,
    1200 <= ex
    /\ Scanner.ledger st1
       = Redis.set (Scanner.ledger st) (Scanner.key_of c (Js.toLowerCase a))
                   ex (Scanner.now e)).
  { subst st1 c. unfold Scanner.processTokenEvent.
    rewrite Ha, Hg. simpl.
    destruct (String.eqb_spec a "") as [E | _]; [contradiction |]. simpl.
    simpl in Hfresh. rewrite Hfresh.
    apply scanner_evaluate_marks; assumption. }
  destruct Hled as (ex & Hex & Hled).
  unfold Scanner.processTokenEvent at 1.
  rewrite Ha, Hg2. simpl.
  destruct (String.eqb_spec a "") as [E | _]; [contradiction |]. simpl.
  fold c. rewrite Hled. unfold Redis.get.
  rewrite redis_live_after_set by lia. reflexivity.
Qed.

Lemma processTokenEvent_not_repeated_witness :
  let e := Examples.scanner_env 0 false false false in
  let e2 := Examples.scanner_env 1199999 false true true in
  let st1 := Scanner.processTokenEvent e Examples.scanner_event
               Examples.scanner_start in
  Scanner.processTokenEvent e2 Examples.scanner_event st1
  = Scanner.log Info (Scanner.AlreadyProcessed "solana" "mint3") st1.
Proof.
  cbv zeta.
  apply (processTokenEvent_not_repeated
           (Examples.scanner_env 0 false false false)
           (Examples.scanner_env 1199999 false true true)
           Examples.scanner_event Examples.scanner_start "Mint3");
    try reflexivity; try discriminate.
  vm_compute. eauto.
Defined.

(** ** Upper and lower case *)

Lemma lower_ascii_idem (c : ascii) :
  Js.lower_ascii (Js.lower_ascii c) = Js.lower_ascii c.
Proof. destruct c as [[] [] [] [] [] [] [] []]; reflexivity. Qed.

Lemma toLowerCase_idem (s : string) :
  Js.toLowerCase (Js.toLowerCase s) = Js.toLowerCase s.
Proof.
  induction s as [| c s IH]; simpl; [reflexivity |].
  rewrite lower_ascii_idem, IH. reflexivity.
Qed.

Lemma toLowerCase_eqb_empty (s : string) :
  String.eqb (Js.toLowerCase s) "" = String.eqb s "".
Proof. destruct s; reflexivity. Qed.

Lemma truthy_string_lower (s : option string) :
  Js.truthy_string (Js.toLowerCase <$> s) = Js.truthy_string s.
Proof.
  destruct s as [s |]; simpl; [| reflexivity].
  rewrite toLowerCase_eqb_empty. reflexivity.
Qed.

Lemma is_creator_lower (creator : string) (h : Scanner.holder) :
  Scanner.is_creator (Js.toLowerCase creator) h = Scanner.is_creator creator h.
Proof. unfold Scanner.is_creator. rewrite toLowerCase_idem. reflexivity. Qed.

Lemma find_agree {A : Type} (f g : A -> bool) (l : list A) :
  (forall x, f x = g x) -> List.find f l = List.find g l.
Proof.
  intros H. induction l as [| x l IH]; simpl; [reflexivity |].
  rewrite H, IH. reflexivity.
Qed.

Lemma devPercent_of_lower (l : list Scanner.holder) (creator : option string)
    (total : Z) :
  Scanner.devPercent_of l (Js.toLowerCase <$> creator) total
  = Scanner.devPercent_of l creator total.
Proof.
  unfold Scanner.devPercent_of. rewrite truthy_string_lower.
  destruct creator as [cr |]; simpl; [| reflexivity].
  destruct (negb _); [| reflexivity].
  rewrite (find_agree _ _ l (is_creator_lower cr)). reflexivity.
Qed.

Lemma scanner_evaluate_creator_lower (e : Scanner.env)
    (creator : option string) (c a key : string) (st : Scanner.state) :
  Scanner.evaluate e (Js.toLowerCase <$> creator) c a key st
  = Scanner.evaluate e creator c a key st.
Proof.
  unfold Scanner.evaluate.
  destruct (Scanner.fetchTokenMetadata e); [| reflexivity].
  rewrite !devPercent_of_lower. reflexivity.
Qed.

(** X6: the scanner ignores the case of the chain, the address and the
    creator of an event: the event and its lower-cased form are processed
    alike, so that they share one ledger key. *)
Theorem processTokenEvent_ignores_case (e : Scanner.env)
    (t : Scanner.token_event) (st : Scanner.state) :
  Scanner.processTokenEvent e
    (Scanner.TokenEvent (Js.toLowerCase <$> Scanner.chain t)
                        (Js.toLowerCase <$> Scanner.address t)
                        (Js.toLowerCase <$> Scanner.creator t))
    st
  = Scanner.processTokenEvent e t st.
Proof.
  unfold Scanner.processTokenEvent. simpl.
  rewrite truthy_string_lower.
  assert (Ha : Js.toLowerCase
                 (default "" (Js.toLowerCase <$> Scanner.address t))
               = Js.toLowerCase (default "" (Scanner.address t))).
  { destruct (Scanner.address t); simpl;
      [apply toLowerCase_idem | reflexivity]. }
  assert (Hc : Js.toLowerCase
                 (default "" (Js.or_string (Js.toLowerCase <$> Scanner.chain t)
                                           (Some "unknown")))
               = Js.toLowerCase
                   (default "" (Js.or_string (Scanner.chain t)
                                             (Some "unknown")))).
  { unfold Js.or_string. rewrite truthy_string_lower.
    destruct (Js.truthy_string (Scanner.chain t)); [| reflexivity].
    destruct (Scanner.chain t); simpl;
      [apply toLowerCase_idem | reflexivity]. }
  rewrite Ha, Hc, !scanner_evaluate_creator_lower. reflexivity.
Qed.

(** ** The developer share against the top-ten share *)

Lemma percentBigInt_mono (a b total : Z) :
  0 <= a -> a <= b -> 0 < total ->
  Js.le (Scanner.percentBigInt a total) (Scanner.percentBigInt b total) = true.
Proof.
  intros Ha Hab Ht.
  rewrite !percentBigInt_nonzero by lia.
  rewrite !Z.quot_div_nonneg by lia.
  apply hundredth_ofBigInt_mono; [apply Z.div_pos; lia |].
  apply Z.div_le_mono; lia.
Qed.

Lemma sum_balances_member (l : list Scanner.holder) (s : Z) (h : Scanner.holder) :
  Scanner.sum_balances l = Some s ->
  Forall (fun h => 0 <= balance_of h) l ->
  h ∈ l ->
  Scanner.toBigInt (Scanner.h_balance h) = Some (balance_of h)
  /\ balance_of h <= s.
Proof.
  revert s. induction l as [| x l IH]; intros s Hs Hall Hin.
  - inversion Hin.
  - simpl in Hs.
    destruct (Scanner.toBigInt (Scanner.h_balance x)) as [b |] eqn:Hb;
      [| discriminate].
    destruct (Scanner.sum_balances l) as [s' |] eqn:Hs'; [| discriminate].
    injection Hs as <-.
    apply Forall_cons in Hall as [Hx Hall].
    assert (Hs0 : 0 <= s').
    { clear -Hs' Hall. revert s' Hs'.
      induction l as [| y l IH]; intros s' Hs'; simpl in Hs'.
      - injection Hs' as <-. lia.
      - destruct (Scanner.toBigInt (Scanner.h_balance y)) as [c |] eqn:Hc;
          [| discriminate].
        destruct (Scanner.sum_balances l) as [s'' |]; [| discriminate].
        injection Hs' as <-.
        apply Forall_cons in Hall as [Hy Hall].
        unfold balance_of in Hy. rewrite Hc in Hy. simpl in Hy.
        specialize (IH Hall s'' eq_refl). lia. }
    assert (Hbx : balance_of x = b) by (unfold balance_of; rewrite Hb; reflexivity).
    apply elem_of_cons in Hin as [-> | Hin].
    + rewrite Hbx. split; [exact Hb | lia].
    + destruct (IH s' eq_refl Hall Hin) as [H1 H2].
      split; [exact H1 | lia].
Qed.

(** X7: when the holder taken for the developer is among the first ten
    of the list (the first holder when no creator is given, or a listed
    creator found there) and the balances of those ten are not negative,
    the developer share never exceeds the top-ten share. *)
Theorem devPercent_at_most_top10 (l : list Scanner.holder)
    (creator : option string) (total topSum : Z) :
  0 < total ->
  Scanner.topSum_of l = Some topSum ->
  Forall (fun h => 0 <= balance_of h) (take 10 l) ->
  (Js.truthy_string creator = false
   \/ exists found,
        List.find (Scanner.is_creator (default "" creator)) l = Some found
        /\ found ∈ take 10 l) ->
  Js.le (Scanner.devPercent_of l creator total)
        (Scanner.percentBigInt topSum total) = true.
Proof.
  intros Ht Hsum Hall Hdev. unfold Scanner.topSum_of in Hsum.
  assert (Hshare : forall h,
    h ∈ take 10 l ->
    Js.le (Scanner.share_or_zero h total)
          (Scanner.percentBigInt topSum total) = true).
  { intros h Hin.
    destruct (sum_balances_member _ _ h Hsum Hall Hin) as [Hb Hle].
    unfold Scanner.share_or_zero. rewrite Hb.
    apply percentBigInt_mono; [| exact Hle | exact Ht].
    rewrite Forall_forall in Hall. apply Hall, Hin. }
  unfold Scanner.devPercent_of.
  destruct Hdev as [Hno | (found & Hfind & Hin)].
  - rewrite Hno. destruct l as [| h l'].
    + simpl in Hsum. injection Hsum as <-.
      rewrite percentBigInt_exact by (rewrite ?Z.quot_0_l; lia).
      reflexivity.
    + apply Hshare. simpl. left.
  - destruct (Js.truthy_string creator).
    + rewrite Hfind. apply Hshare, Hin.
    + destruct l as [| h l']; [inversion Hin |].
      apply Hshare. simpl. left.
Qed.

Lemma devPercent_at_most_top10_witness :
  Js.le (Scanner.devPercent_of Examples.two_holders None 1000)
        (Scanner.percentBigInt 1000 1000) = true.
Proof.
  apply (devPercent_at_most_top10 Examples.two_holders None 1000 1000).
  - lia.
  - reflexivity.
  - repeat constructor; vm_compute; discriminate.
  - left. reflexivity.
Defined.

(** ** Tokens taken from a webhook payload *)

Lemma or_string_truthy_r (a b : option string) :
  Js.truthy_string b = true -> Js.truthy_string (Js.or_string a b) = true.
Proof.
  intros Hb. unfold Js.or_string.
  destruct (Js.truthy_string a) eqn:Ha; [exact Ha | exact Hb].
Qed.

Lemma or_string_truthy_l (a b : option string) :
  Js.truthy_string a = true -> Js.or_string a b = a.
Proof. intros Ha. unfold Js.or_string. rewrite Ha. reflexivity. Qed.

Lemma candidates_well_formed (p : Webhook.payload) :
  Forall well_formed (Webhook.candidates p).
Proof.
  unfold Webhook.candidates. rewrite !Forall_app. split; [| split].
  - unfold Webhook.from_flat. rewrite Forall_app. split.
    + destruct (Js.truthy_string (Webhook.p_mint p)) eqn:E; constructor;
        [| constructor].
      split; [apply or_string_truthy_r; reflexivity | exact E].
    + destruct (Js.truthy_string (Webhook.p_tokenAddress p)) eqn:E;
        constructor; [| constructor].
      split; [apply or_string_truthy_r; reflexivity | exact E].
  - apply Forall_flat_map, Forall_forall. intros t _.
    unfold Webhook.from_item.
    destruct (Js.truthy_string _) eqn:E; constructor; [| constructor].
    split; [| exact E].
    simpl. do 2 apply or_string_truthy_r. reflexivity.
  - apply Forall_flat_map, Forall_forall. intros tx _.
    unfold Webhook.from_transaction. rewrite Forall_app. split.
    + apply Forall_flat_map, Forall_forall. intros tt _.
      destruct (Js.truthy_string _) eqn:E; constructor; [| constructor].
      split; [| exact E].
      simpl. do 2 apply or_string_truthy_r. reflexivity.
    + apply Forall_flat_map, Forall_forall. intros d _.
      destruct (Js.truthy_string _) eqn:E; constructor; [| constructor].
      split; [| exact E].
      simpl. do 2 apply or_string_truthy_r. reflexivity.
Qed.

Lemma ledger_key_dedupe_key (t : Scanner.token_event) :
  Js.truthy_string (Scanner.chain t) = true ->
  ledger_key t = "processed:" ++ Webhook.dedupe_key t.
Proof.
  intros Hc. unfold ledger_key, Webhook.dedupe_key, Scanner.key_of.
  rewrite !or_string_truthy_l by exact Hc. reflexivity.
Qed.

Lemma has_false (map : list (string * Scanner.token_event)) (key : string) :
  Webhook.has map key = false -> key ∉ map.*1.
Proof.
  intros H Hin. apply list_elem_of_fmap in Hin as ([k v] & -> & Hin).
  unfold Webhook.has in H.
  rewrite <- not_true_iff_false, existsb_exists in H. apply H.
  exists (k, v). split; [apply list_elem_of_In, Hin | apply String.eqb_refl].
Qed.

Lemma has_true (map : list (string * Scanner.token_event)) (key : string) :
  Webhook.has map key = true -> key ∈ map.*1.
Proof.
  intros H. unfold Webhook.has in H.
  apply existsb_exists in H as ([k v] & Hin & Heq).
  apply String.eqb_eq in Heq. simpl in Heq. subst k.
  apply list_elem_of_fmap. exists (key, v).
  split; [reflexivity | apply list_elem_of_In, Hin].
Qed.

Lemma dedupe_map_ok (src out : list Scanner.token_event)
    (map : list (string * Scanner.token_event)) :
  Forall well_formed out ->
  out ⊆ src ->
  map_ok src map ->
  map_ok src (Webhook.dedupe out map).
Proof.
  revert map. induction out as [| t rest IH]; intros map Hwf Hsub Hok;
    [exact Hok |].
  apply Forall_cons in Hwf as [[Hc Ha] Hwf].
  assert (Hrest : rest ⊆ src) by set_solver.
  simpl. rewrite Ha. simpl.
  destruct (Webhook.has map (Webhook.dedupe_key t)) eqn:Hhas;
    [apply IH; assumption |].
  apply IH; [assumption | assumption |].
  destruct Hok as [Hnd Hall].
  rewrite or_string_truthy_l by exact Hc.
  assert (Ht : Scanner.TokenEvent (Scanner.chain t) (Scanner.address t)
                                  (Scanner.creator t) = t)
    by (destruct t; reflexivity).
  rewrite Ht. split.
  - rewrite fmap_app. simpl. apply NoDup_app. split; [exact Hnd |].
    split; [| apply NoDup_singleton].
    intros k Hk Hk'. apply list_elem_of_singleton in Hk'. subst k.
    exact (has_false _ _ Hhas Hk).
  - apply Forall_app. split; [exact Hall |].
    constructor; [| constructor]. simpl.
    split; [reflexivity |]. split; [split; assumption | set_solver].
Qed.

Lemma dedupe_keeps_keys (out : list Scanner.token_event)
    (map : list (string * Scanner.token_event)) (k : string) :
  k ∈ map.*1 -> k ∈ (Webhook.dedupe out map).*1.
Proof.
  revert map. induction out as [| t rest IH]; intros map Hk; [exact Hk |].
  simpl. destruct (negb _); [apply IH, Hk |].
  destruct (Webhook.has _ _); apply IH; [exact Hk |].
  rewrite fmap_app. apply elem_of_app. left. exact Hk.
Qed.

Lemma dedupe_covers (out : list Scanner.token_event)
    (map : list (string * Scanner.token_event)) (t : Scanner.token_event) :
  t ∈ out ->
  Js.truthy_string (Scanner.address t) = true ->
  Webhook.dedupe_key t ∈ (Webhook.dedupe out map).*1.
Proof.
  revert map. induction out as [| x rest IH]; intros map Hin Ha;
    [inversion Hin |].
  apply elem_of_cons in Hin as [<- | Hin].
  - simpl. rewrite Ha. simpl.
    destruct (Webhook.has map (Webhook.dedupe_key t)) eqn:Hhas;
      apply dedupe_keeps_keys.
    + apply has_true, Hhas.
    + rewrite fmap_app. set_solver.
  - simpl. destruct (negb _); [apply IH; assumption |].
    destruct (Webhook.has _ _); apply IH; assumption.
Qed.

Lemma extract_map_ok (p : Webhook.payload) :
  map_ok (Webhook.candidates p) (Webhook.dedupe (Webhook.candidates p) []).
Proof.
  apply dedupe_map_ok.
  - apply candidates_well_formed.
  - set_solver.
  - split; [constructor | constructor].
Qed.

(** X8: no two tokens taken from one payload share a ledger key, so the
    events started for one request never compete for the same entry. *)
Theorem extracted_tokens_have_distinct_keys (payload : option Webhook.payload) :
  NoDup (ledger_key <$> Webhook.extractTokensFromHelius payload).
Proof.
  destruct payload as [p |]; [| constructor].
  unfold Webhook.extractTokensFromHelius.
  destruct (extract_map_ok p) as [Hnd Hall].
  set (m := Webhook.dedupe (Webhook.candidates p) []) in *.
  assert (Heq : ledger_key <$> map snd m
                = (fun k => "processed:" ++ k) <$> m.*1).
  { clearbody m. induction m as [| [k v] m IH]; [reflexivity |].
    apply Forall_cons in Hall as [(Hk & [Hc _] & _) Hall].
    apply NoDup_cons in Hnd as [_ Hnd].
    simpl in Hk, Hc.
    change (ledger_key v :: (ledger_key <$> map snd m)
            = ("processed:" ++ k) :: ((fun k => "processed:" ++ k) <$> m.*1)).
    rewrite (IH Hnd Hall), Hk.
    f_equal. apply ledger_key_dedupe_key, Hc. }
  rewrite Heq. apply NoDup_fmap_2; [| exact Hnd].
  intros a b H. apply (inj (String.app "processed:")) in H. exact H.
Qed.

(** X9: every token taken from a payload is one of its candidates, with
    a chain and an address, and no candidate is lost: each one has its
    ledger key among the tokens returned. *)
Theorem extracted_tokens_cover_candidates (p : Webhook.payload) :
  (forall v,
      v ∈ Webhook.extractTokensFromHelius (Some p) ->
      v ∈ Webhook.candidates p
      /\ Js.truthy_string (Scanner.chain v) = true
      /\ Js.truthy_string (Scanner.address v) = true)
  /\ (forall t,
        t ∈ Webhook.candidates p ->
        exists v,
          v ∈ Webhook.extractTokensFromHelius (Some p)
          /\ ledger_key v = ledger_key t).
Proof.
  unfold Webhook.extractTokensFromHelius.
  destruct (extract_map_ok p) as [Hnd Hall].
  rewrite Forall_forall in Hall. split.
  - intros v Hv. apply list_elem_of_fmap in Hv as ([k v'] & -> & Hin).
    destruct (Hall _ Hin) as (_ & [Hc Ha] & Hsrc). auto.
  - intros t Ht.
    pose proof (candidates_well_formed p) as Hwf.
    rewrite Forall_forall in Hwf. destruct (Hwf t Ht) as [Hc Ha].
    pose proof (dedupe_covers (Webhook.candidates p) [] t Ht Ha) as Hk.
    apply list_elem_of_fmap in Hk as ([k v] & Hkey & Hin).
    simpl in Hkey. exists v. split.
    + apply list_elem_of_fmap. exists (k, v). split; [reflexivity | exact Hin].
    + destruct (Hall _ Hin) as (Hkv & [Hcv _] & _). simpl in Hkv, Hcv.
      rewrite !ledger_key_dedupe_key by assumption. congruence.
Qed.

Lemma extracted_tokens_cover_candidates_witness :
  Webhook.extractTokensFromHelius (Some MoreExamples.payload)
  = [ Scanner.TokenEvent (Some "solana") (Some "MintA") (Some "dev");
      Scanner.TokenEvent (Some "unknown") (Some "MintB") None ]
  /\ exists v,
       v ∈ Webhook.extractTokensFromHelius (Some MoreExamples.payload)
       /\ ledger_key v = "processed:solana:minta".
Proof.
  split; [vm_compute; reflexivity |].
  destruct (extracted_tokens_cover_candidates MoreExamples.payload) as [_ H].
  apply (H (Scanner.TokenEvent (Some "SOLANA") (Some "minta") None)).
  vm_compute. right. left.
Defined.

(** ** Resolving the five figures *)

(** X10: the token object comes first.  With neither Moralis nor Helius
    configured the five figures are those of the token object; and in any
    configuration a holders count, a top-ten share or a developer share
    that the token object carries is kept, as is a marketcap or a volume
    that it carries and that is not zero. *)
Theorem resolve_primary_first (cfg : Bot.config) (e : Bot.env) (t : Bot.token) :
  let m := Bot.resolve cfg e t in
  (Bot.MORALIS_API_KEY cfg = false -> Bot.HELIUS_RPC_URL cfg = false ->
   m = Bot.Metrics
         (Js.nullish (Bot.marketcap t) (Bot.mc t))
         (Js.nullish (Bot.holders t) (Bot.holder_count t))
         (Js.nullish (Bot.top10_percent t) (Bot.top10 t))
         (Js.nullish (Bot.dev_hold t)
            (Js.nullish (Bot.dev_hold_percent t) (Bot.creator_hold t)))
         (Js.nullish (Bot.volume_24h t) (Bot.volume t)))
  /\ (forall n, Js.nullish (Bot.holders t) (Bot.holder_count t) = Some n ->
                Bot.m_holders m = Some n)
  /\ (forall n, Js.nullish (Bot.top10_percent t) (Bot.top10 t) = Some n ->
                Bot.m_top10Percent m = Some n)
  /\ (forall n, Js.nullish (Bot.dev_hold t)
                  (Js.nullish (Bot.dev_hold_percent t) (Bot.creator_hold t))
                = Some n ->
                Bot.m_devPercent m = Some n)
  /\ (forall n, Js.nullish (Bot.marketcap t) (Bot.mc t) = Some n ->
                Js.truthy n = true ->
                Bot.m_marketcap m = Some n)
  /\ (forall n, Js.nullish (Bot.volume_24h t) (Bot.volume t) = Some n ->
                Js.truthy n = true ->
                Bot.m_volume24h m = Some n).
Proof.
  cbv zeta. unfold Bot.resolve.
  split; [| split; [| split; [| split; [| split]]]].
  - intros Hm Hh. rewrite Hm, Hh, !andb_false_r. reflexivity.
  - intros n ->. reflexivity.
  - intros n ->. reflexivity.
  - intros n ->. reflexivity.
  - intros n -> Hn. simpl. rewrite Hn. simpl.
    destruct (if _ : bool then _ else _); reflexivity.
  - intros n -> Hn. simpl. rewrite Hn. simpl.
    destruct (if _ : bool then _ else _); reflexivity.
Qed.

Lemma resolve_primary_first_witness :
  Bot.m_marketcap
    (Bot.resolve Examples.redis_config
       (Examples.bot_env 0 false false false) Examples.good_token)
  = Some (Js.int 20000).
Proof.
  destruct (resolve_primary_first Examples.redis_config
              (Examples.bot_env 0 false false false) Examples.good_token)
    as (_ & _ & _ & _ & H & _).
  apply H; reflexivity.
Defined.

(** ** One call of the polling bot *)

Lemma bot_decide_chat (cfg : Bot.config) (e : Bot.env) (address : string)
    (m : Bot.metrics) (st : Bot.state) :
  Bot.chat (Bot.decide_and_notify cfg e address m st) = Bot.chat st
  \/ (Bot.passed cfg m = true
      /\ Bot.telegram_configured cfg = true
      /\ Bot.telegram_raises e = false
      /\ Bot.chat (Bot.decide_and_notify cfg e address m st)
         = (Bot.chat st ++ [Bot.Message address m])%list).
Proof.
  unfold Bot.decide_and_notify.
  destruct (Bot.passed cfg m) eqn:Hp; simpl.
  - rewrite bot_markProcessed_chat. unfold Bot.sendTelegramMessage.
    destruct (Bot.telegram_configured cfg); simpl; [| left; reflexivity].
    destruct (Bot.telegram_raises e); simpl; [left; reflexivity |].
    right. auto.
  - left. destruct (_ && _); [apply bot_markProcessed_chat | reflexivity].
Qed.

Lemma bot_wasProcessed_state (cfg : Bot.config) (e : Bot.env)
    (address : string) (st : Bot.state) :
  Bot.chat (Bot.wasProcessed cfg e address st).2 = Bot.chat st
  /\ Bot.redis (Bot.wasProcessed cfg e address st).2 = Bot.redis st
  /\ Bot.inMemoryProcessed (Bot.wasProcessed cfg e address st).2
     = Bot.inMemoryProcessed st.
Proof.
  unfold Bot.wasProcessed. destruct (Bot.redisClient cfg); [| auto].
  destruct (Bot.redis_get_raises e); auto.
Qed.

(** X11: one call of [processToken] adds at most one message to the
    chat, and only for figures that pass the filter, with Telegram
    configured and answering; the message carries the figures as
    resolved. *)
Theorem processToken_reports_only_passed (cfg : Bot.config) (e : Bot.env)
    (t : Bot.token) (st : Bot.state) :
  let st' := Bot.processToken cfg e t st in
  Bot.chat st' = Bot.chat st
  \/ exists address,
       Js.or_string (Js.or_string (Bot.address t) (Bot.mint t)) (Bot.token_ t)
       = Some address
       /\ Bot.passed cfg (Bot.resolve cfg e t) = true
       /\ Bot.telegram_configured cfg = true
       /\ Bot.telegram_raises e = false
       /\ Bot.chat st'
          = (Bot.chat st ++ [Bot.Message address (Bot.resolve cfg e t)])%list.
Proof.
  cbv zeta. unfold Bot.processToken.
  destruct (Js.or_string _ (Bot.token_ t)) as [a |] eqn:Ha;
    [| left; reflexivity].
  destruct (negb _); [left; reflexivity |]. simpl.
  pose proof (bot_wasProcessed_state cfg e a st) as (Hc & _ & _).
  destruct (Bot.wasProcessed cfg e a st) as [seen st1]. simpl in Hc.
  destruct seen; [left; exact Hc |].
  unfold Bot.evaluate.
  match goal with
  | |- context [Bot.decide_and_notify cfg e a ?m ?s] =>
      destruct (bot_decide_chat cfg e a m s) as [H | (Hp & Ht & Hr & H)];
      assert (Hs : Bot.chat s = Bot.chat st)
        by (destruct (bool_decide _); simpl; exact Hc)
  end.
  - left. rewrite H. exact Hs.
  - right. exists a. rewrite H, Hs. auto.
Qed.

Lemma bot_markProcessed_frame (cfg : Bot.config) (e : Bot.env)
    (address : string) (st : Bot.state) (k : string) :
  k <> Bot.key_of address ->
  Bot.redis (Bot.markProcessed cfg e address st).2 !! k = Bot.redis st !! k
  /\ Bot.inMemoryProcessed (Bot.markProcessed cfg e address st).2 !! k
     = Bot.inMemoryProcessed st !! k.
Proof.
  intros Hk. unfold Bot.markProcessed, Redis.set_nx, Redis.set.
  destruct (Bot.redisClient cfg).
  - destruct (Bot.redis_set_raises e); [auto |].
    destruct (Redis.live _ _ _); simpl; [auto |].
    rewrite lookup_insert_ne by congruence. auto.
  - destruct (_ !! Bot.key_of address); simpl; [auto |].
    rewrite lookup_insert_ne by congruence. auto.
Qed.

Lemma bot_decide_ledger (cfg : Bot.config) (e : Bot.env) (address : string)
    (m : Bot.metrics) (st : Bot.state) :
  let st' := Bot.decide_and_notify cfg e address m st in
  (Bot.redis st' = Bot.redis st
   /\ Bot.inMemoryProcessed st' = Bot.inMemoryProcessed st)
  \/ (is_Some (Bot.m_marketcap m) /\ is_Some (Bot.m_holders m)
      /\ Bot.redis st' = Bot.redis (Bot.markProcessed cfg e address st).2
      /\ Bot.inMemoryProcessed st'
         = Bot.inMemoryProcessed (Bot.markProcessed cfg e address st).2).
Proof.
  cbv zeta. unfold Bot.decide_and_notify.
  destruct (Bot.passed cfg m) eqn:Hp.
  - right.
    apply bot_passed_iff in Hp
      as (a & b & c & d & v & Ha & Hb & _).
    pose proof (bot_send_ledger cfg e (Bot.Message address m) st) as [Hr Hm].
    pose proof (bot_markProcessed_ledger cfg e address _ _ Hr Hm)
      as (_ & Hr' & Hm').
    rewrite Ha, Hb. simpl. eauto.
  - destruct (bool_decide (is_Some (Bot.m_marketcap m))) eqn:H1;
      destruct (bool_decide (is_Some (Bot.m_holders m))) eqn:H2; simpl;
      try (left; split; reflexivity).
    right. apply bool_decide_eq_true in H1, H2. auto.
Qed.

(** X12: one call of [processToken] touches the ledger at the key of its
    own address only, and not at all when the marketcap or the holders
    count could not be resolved: such a token is evaluated afresh at the
    next poll. *)
Theorem processToken_ledger_effect (cfg : Bot.config) (e : Bot.env)
    (t : Bot.token) (st : Bot.state) :
  let address :=
    default "" (Js.or_string (Js.or_string (Bot.address t) (Bot.mint t))
                             (Bot.token_ t)) in
  let st' := Bot.processToken cfg e t st in
  (forall k, k <> Bot.key_of address ->
             Bot.redis st' !! k = Bot.redis st !! k
             /\ Bot.inMemoryProcessed st' !! k
                = Bot.inMemoryProcessed st !! k)
  /\ (Bot.m_marketcap (Bot.resolve cfg e t) = None
      \/ Bot.m_holders (Bot.resolve cfg e t) = None ->
      Bot.redis st' = Bot.redis st
      /\ Bot.inMemoryProcessed st' = Bot.inMemoryProcessed st).
Proof.
  cbv zeta. unfold Bot.processToken.
  destruct (negb _); [split; auto |].
  set (a := default "" _).
  pose proof (bot_wasProcessed_state cfg e a st) as (_ & Hr & Hm).
  destruct (Bot.wasProcessed cfg e a st) as [seen st1]. simpl in Hr, Hm.
  destruct seen; [rewrite Hr, Hm; split; auto |].
  unfold Bot.evaluate.
  match goal with
  | |- context [Bot.decide_and_notify cfg e a ?m ?s] =>
      assert (Hs : Bot.redis s = Bot.redis st
                   /\ Bot.inMemoryProcessed s = Bot.inMemoryProcessed st)
        by (destruct (bool_decide _); simpl; auto);
      destruct (bot_decide_ledger cfg e a m s)
        as [[H1 H2] | (Hmc & Hh & H1 & H2)]
  end; destruct Hs as [Hs1 Hs2].
  - rewrite H1, H2, Hs1, Hs2. split; auto.
  - rewrite H1, H2. split.
    + intros k Hk.
      match goal with
      | |- context [Bot.markProcessed cfg e a ?s] =>
          destruct (bot_markProcessed_frame cfg e a s k Hk) as [F1 F2]
      end.
      rewrite F1, F2, Hs1, Hs2. auto.
    + intros [Hn | Hn]; rewrite Hn in *;
        [destruct Hmc as [? ?] | destruct Hh as [? ?]]; discriminate.
Qed.

Lemma processToken_ledger_effect_witness :
  let t := Examples.bot_token "Mint1" 20000 50 15 1 None in
  let st' := Bot.processToken Examples.default_config
               (Examples.bot_env 0 false false false) t
               (Bot.State ∅ (<[ "processed:Other" := 0 ]> ∅) [] []) in
  Bot.inMemoryProcessed st' !! "processed:Other" = Some 0.
Proof.
  cbv zeta.
  destruct (processToken_ledger_effect Examples.default_config
              (Examples.bot_env 0 false false false)
              (Examples.bot_token "Mint1" 20000 50 15 1 None)
              (Bot.State ∅ (<[ "processed:Other" := 0 ]> ∅) [] []))
    as [H _].
  destruct (H "processed:Other") as [_ H2]; [discriminate |].
  rewrite H2. reflexivity.
Defined.

(** ** Marking, checking, forgetting *)

(** X13: a mark that [markProcessed] has just created is seen by
    [wasProcessed] for the whole TTL.  In Redis it is gone once the TTL
    has run out; in the in-memory Map it is gone after the first sweep
    that runs later than that. *)
Theorem mark_then_check (cfg : Bot.config) (e e2 : Bot.env)
    (address : string) (st st1 : Bot.state) :
  Bot.markProcessed cfg e address st = (true, st1) ->
  (Bot.redisClient cfg = true -> Bot.redis_get_raises e2 = false) ->
  (Bot.now e2 < Bot.now e + 1000 * Bot.DEDUPE_TTL_SEC cfg ->
   Bot.wasProcessed cfg e2 address st1 = (true, st1))
  /\ (Bot.redisClient cfg = true ->
      Bot.now e + 1000 * Bot.DEDUPE_TTL_SEC cfg <= Bot.now e2 ->
      Bot.wasProcessed cfg e2 address st1 = (false, st1))
  /\ (forall swept_at,
        Bot.redisClient cfg = false ->
        Bot.now e + 1000 * Bot.DEDUPE_TTL_SEC cfg < swept_at ->
        (Bot.wasProcessed cfg e2 address (Bot.sweep cfg swept_at st1)).1
        = false).
Proof.
  intros Hm Hget.
  destruct (Bot.redisClient cfg) eqn:Hc.
  - specialize (Hget eq_refl).
    destruct (Bot.redis_set_raises e) eqn:Hs.
    { rewrite markProcessed_redis_raises in Hm by assumption. discriminate. }
    rewrite markProcessed_redis in Hm by assumption.
    destruct (ledger_has cfg (Bot.now e) st address); [discriminate |].
    injection Hm as <-.
    unfold Bot.wasProcessed. rewrite Hc, Hget. simpl.
    unfold Redis.get, Redis.live, Redis.set. rewrite lookup_insert_eq.
    split; [| split].
    + intros Hnow. apply Z.ltb_lt in Hnow. rewrite Hnow. reflexivity.
    + intros _ Hnow. apply Z.ltb_ge in Hnow. rewrite Hnow. reflexivity.
    + intros ? [=].
  - rewrite markProcessed_in_memory in Hm by assumption.
    destruct (ledger_has cfg (Bot.now e) st address); [discriminate |].
    injection Hm as <-.
    unfold Bot.wasProcessed. rewrite Hc. simpl.
    split; [| split].
    + intros _. rewrite lookup_insert_eq.
      rewrite bool_decide_eq_true_2 by eauto. reflexivity.
    + intros [=].
    + intros swept_at _ Hsw. apply bool_decide_eq_false_2.
      intros [x Hx]. apply map_lookup_filter_Some in Hx as [Hx Hkeep].
      rewrite lookup_insert_eq in Hx. injection Hx as <-.
      simpl in Hkeep. lia.
Qed.

Lemma mark_then_check_witness :
  let st1 := (Bot.markProcessed Examples.redis_config
                (Examples.bot_env 10 false false false) "Mint1"
                Examples.bot_start).2 in
  Bot.wasProcessed Examples.redis_config
    (Examples.bot_env 86400009 false false false) "Mint1" st1 = (true, st1)
  /\ Bot.wasProcessed Examples.redis_config
       (Examples.bot_env 86400010 false false false) "Mint1" st1
     = (false, st1).
Proof.
  cbv zeta.
  destruct (mark_then_check Examples.redis_config
              (Examples.bot_env 10 false false false)
              (Examples.bot_env 86400009 false false false) "Mint1"
              Examples.bot_start
              (Bot.markProcessed Examples.redis_config
                 (Examples.bot_env 10 false false false) "Mint1"
                 Examples.bot_start).2)
    as [H1 _]; [vm_compute; reflexivity | reflexivity |].
  destruct (mark_then_check Examples.redis_config
              (Examples.bot_env 10 false false false)
              (Examples.bot_env 86400010 false false false) "Mint1"
              Examples.bot_start
              (Bot.markProcessed Examples.redis_config
                 (Examples.bot_env 10 false false false) "Mint1"
                 Examples.bot_start).2)
    as (_ & H2 & _); [vm_compute; reflexivity | reflexivity |].
  split; [apply H1; vm_compute; reflexivity |].
  apply H2; [reflexivity | vm_compute; discriminate].
Defined.

(** X14: the sweep of the in-memory Map keeps an entry exactly while its
    age does not exceed the TTL, leaves Redis, the console and the chat
    alone, and a later sweep makes an earlier one redundant; so, without
    Redis, an address counts as seen after a sweep exactly when its entry
    is no older than the TTL, and a fresh mark is seen through every sweep
    of the TTL after it and through none later. *)
Theorem sweep_effect (cfg : Bot.config) (now1 now2 : Z) (st : Bot.state) :
  (forall k t,
      Bot.inMemoryProcessed (Bot.sweep cfg now1 st) !! k = Some t
      <-> Bot.inMemoryProcessed st !! k = Some t
          /\ now1 - t <= Bot.DEDUPE_TTL_SEC cfg * 1000)
  /\ Bot.redis (Bot.sweep cfg now1 st) = Bot.redis st
  /\ Bot.console (Bot.sweep cfg now1 st) = Bot.console st
  /\ Bot.chat (Bot.sweep cfg now1 st) = Bot.chat st
  /\ (now1 <= now2 ->
      Bot.sweep cfg now2 (Bot.sweep cfg now1 st) = Bot.sweep cfg now2 st)
  /\ (Bot.redisClient cfg = false ->
      forall e a,
        (Bot.wasProcessed cfg e a (Bot.sweep cfg now1 st)).1 = true
        <-> exists t, Bot.inMemoryProcessed st !! Bot.key_of a = Some t
                      /\ now1 - t <= Bot.DEDUPE_TTL_SEC cfg * 1000)
  /\ (Bot.redisClient cfg = false ->
      forall e e' a,
        Bot.inMemoryProcessed st !! Bot.key_of a = None ->
        (Bot.wasProcessed cfg e' a
           (Bot.sweep cfg now1 (Bot.markProcessed cfg e a st).2)).1
        = bool_decide (now1 - Bot.now e <= Bot.DEDUPE_TTL_SEC cfg * 1000)).
Proof.
  assert (Hlook : forall s k t,
             Bot.inMemoryProcessed (Bot.sweep cfg now1 s) !! k = Some t
             <-> Bot.inMemoryProcessed s !! k = Some t
                 /\ now1 - t <= Bot.DEDUPE_TTL_SEC cfg * 1000).
  { intros s k t. unfold Bot.sweep. simpl.
    rewrite map_lookup_filter_Some. simpl.
    split; intros [H1 H2]; (split; [exact H1 | lia]). }
  assert (Hseen : forall s e a,
             Bot.redisClient cfg = false ->
             (Bot.wasProcessed cfg e a (Bot.sweep cfg now1 s)).1 = true
             <-> exists t, Bot.inMemoryProcessed s !! Bot.key_of a = Some t
                           /\ now1 - t <= Bot.DEDUPE_TTL_SEC cfg * 1000).
  { intros s e a Hc. unfold Bot.wasProcessed. rewrite Hc.
    cbn [fst]. rewrite bool_decide_eq_true. split.
    - intros [t Ht]. exists t. apply Hlook. exact Ht.
    - intros (t & Ht). exists t. apply Hlook. exact Ht. }
  split; [apply Hlook |].
  split; [reflexivity |]. split; [reflexivity |]. split; [reflexivity |].
  split; [| split].
  - intros Hle. unfold Bot.sweep. simpl. f_equal.
    apply map_eq. intros k. apply option_eq. intros t.
    rewrite !map_lookup_filter_Some. simpl. split.
    + intros [[H _] H2]. auto.
    + intros [H H2]. split; [split; [exact H | lia] | exact H2].
  - intros Hc e a. apply Hseen. exact Hc.
  - intros Hc e e' a Hnone.
    assert (Hm : Bot.inMemoryProcessed (Bot.markProcessed cfg e a st).2
                 !! Bot.key_of a = Some (Bot.now e)).
    { unfold Bot.markProcessed. rewrite Hc, Hnone. simpl.
      apply lookup_insert_eq. }
    destruct (Bot.wasProcessed cfg e' a
                (Bot.sweep cfg now1 (Bot.markProcessed cfg e a st).2)).1
      eqn:Hw; symmetry.
    + apply bool_decide_eq_true.
      apply (Hseen _ e' a Hc) in Hw. destruct Hw as (t & Ht & Hle).
      rewrite Hm in Ht. injection Ht as <-. exact Hle.
    + apply bool_decide_eq_false. intros Hle.
      assert (Hw' : (Bot.wasProcessed cfg e' a
                       (Bot.sweep cfg now1 (Bot.markProcessed cfg e a st).2)).1
                    = true).
      { apply (Hseen _ e' a Hc). exists (Bot.now e). split; assumption. }
      rewrite Hw in Hw'. discriminate.
Qed.

(** Two entries, a day apart; a sweep one millisecond after the first
    has aged out drops it and keeps the second, and makes no difference
    to a sweep a day later, which leaves nothing. *)
Lemma sweep_effect_witness :
  (Bot.wasProcessed Examples.default_config
     (Examples.bot_env 86400001 false false false) "Old"
     (Bot.sweep Examples.default_config 86400001 MoreExamples.two_marks)).1
  = false
  /\ (Bot.wasProcessed Examples.default_config
        (Examples.bot_env 86400001 false false false) "New"
        (Bot.sweep Examples.default_config 86400001 MoreExamples.two_marks)).1
     = true
  /\ Bot.inMemoryProcessed
       (Bot.sweep Examples.default_config 86400001 MoreExamples.two_marks)
     !! "processed:New" = Some 86400000
  /\ Bot.sweep Examples.default_config 172800001
       (Bot.sweep Examples.default_config 86400001 MoreExamples.two_marks)
     = Bot.sweep Examples.default_config 172800001 MoreExamples.two_marks
  /\ (Bot.wasProcessed Examples.default_config
        (Examples.bot_env 86400001 false false false) "Mint1"
        (Bot.sweep Examples.default_config 86400001
           (Bot.markProcessed Examples.default_config
              (Examples.bot_env 1 false false false) "Mint1"
              MoreExamples.two_marks).2)).1
     = true.
Proof.
  destruct (sweep_effect Examples.default_config 86400001 172800001
              MoreExamples.two_marks)
    as (Hlook & _ & _ & _ & Hlater & Hseen & Hfresh).
  split; [| split; [| split; [| split]]].
  - destruct (Bot.wasProcessed _ _ "Old" _).1 eqn:Hw; [| reflexivity].
    apply (Hseen eq_refl) in Hw. destruct Hw as (t & Ht & Hle).
    vm_compute in Ht. injection Ht as <-. vm_compute in Hle.
    exfalso. apply Hle. reflexivity.
  - apply (Hseen eq_refl). exists 86400000.
    split; [vm_compute; reflexivity | vm_compute; discriminate].
  - apply Hlook. split; [vm_compute; reflexivity | vm_compute; discriminate].
  - apply Hlater. vm_compute. discriminate.
  - rewrite (Hfresh eq_refl); [| vm_compute; reflexivity].
    vm_compute. reflexivity.
Defined.

(** ** One address in one poll of the polling bot *)

Lemma held_until_ledger (cfg : Bot.config) (st st' : Bot.state)
    (address : string) (until : Z) :
  Bot.redis st' = Bot.redis st ->
  Bot.inMemoryProcessed st' = Bot.inMemoryProcessed st ->
  held_until cfg st address until -> held_until cfg st' address until.
Proof. unfold held_until. intros -> ->. auto. Qed.

Lemma markProcessed_keeps_held (cfg : Bot.config) (e : Bot.env)
    (a a' : string) (st : Bot.state) (until : Z) :
  0 <= Bot.DEDUPE_TTL_SEC cfg ->
  held_until cfg st a until ->
  held_until cfg (Bot.markProcessed cfg e a' st).2 a until.
Proof.
  intros Httl Hh. unfold held_until in *.
  unfold Bot.markProcessed, Redis.set_nx, Redis.set, Redis.live.
  destruct (Bot.redisClient cfg).
  - destruct (Bot.redis_set_raises e); [exact Hh |].
    destruct Hh as (x & Hx & Hle).
    destruct (decide (Bot.key_of a' = Bot.key_of a)) as [Heq | Hne].
    + rewrite Heq, Hx.
      destruct (Z.ltb_spec (Bot.now e) x); simpl; [eauto |].
      rewrite lookup_insert_eq. eexists; split; [reflexivity | lia].
    + destruct (match Bot.redis st !! Bot.key_of a' with
                | Some expires => Bot.now e <? expires
                | None => false
                end); simpl; [eauto |].
      rewrite lookup_insert_ne by exact Hne. eauto.
  - destruct Hh as (w & Hw & Hle).
    destruct (decide (Bot.key_of a' = Bot.key_of a)) as [Heq | Hne].
    + rewrite Heq, Hw. simpl. eauto.
    + destruct (Bot.inMemoryProcessed st !! Bot.key_of a'); simpl; [eauto |].
      rewrite lookup_insert_ne by exact Hne. eauto.
Qed.

Lemma processToken_keeps_held (cfg : Bot.config) (e : Bot.env) (t : Bot.token)
    (st : Bot.state) (a : string) (until : Z) :
  0 <= Bot.DEDUPE_TTL_SEC cfg ->
  held_until cfg st a until ->
  held_until cfg (Bot.processToken cfg e t st) a until.
Proof.
  intros Httl Hh. unfold Bot.processToken.
  destruct (negb _); [exact Hh |].
  set (a' := default "" _).
  pose proof (bot_wasProcessed_state cfg e a' st) as (_ & Hr & Hm).
  destruct (Bot.wasProcessed cfg e a' st) as [seen st1]. simpl in Hr, Hm.
  assert (Hh1 : held_until cfg st1 a until)
    by (apply (held_until_ledger cfg st); assumption).
  destruct seen; [exact Hh1 |].
  unfold Bot.evaluate.
  match goal with
  | |- context [Bot.decide_and_notify cfg e a' ?m ?s] =>
      assert (Hhs : held_until cfg s a until)
        by (destruct (bool_decide _); [| exact Hh1];
            apply (held_until_ledger cfg st1); [reflexivity .. | exact Hh1]);
      destruct (bot_decide_ledger cfg e a' m s)
        as [[H1 H2] | (_ & _ & H1 & H2)]
  end.
  - apply (held_until_ledger cfg _ _ a until H1 H2). exact Hhs.
  - apply (held_until_ledger cfg _ _ a until H1 H2).
    apply markProcessed_keeps_held; assumption.
Qed.

Lemma sweep_keeps_held (cfg : Bot.config) (now : Z) (st : Bot.state)
    (a : string) (until : Z) :
  now <= until ->
  held_until cfg st a until ->
  held_until cfg (Bot.sweep cfg now st) a until.
Proof.
  intros Hnow Hh. unfold held_until in *.
  destruct (Bot.redisClient cfg); [exact Hh |].
  destruct Hh as (w & Hw & Hle). exists w. split; [| exact Hle].
  simpl. apply map_lookup_filter_Some. split; [exact Hw |]. simpl. lia.
Qed.

Lemma run_keeps_held (cfg : Bot.config) (turns : list BotPoll.turn)
    (st : Bot.state) (a : string) (until : Z) :
  0 <= Bot.DEDUPE_TTL_SEC cfg ->
  sweeps_by until turns ->
  held_until cfg st a until ->
  held_until cfg (BotPoll.run cfg turns st) a until.
Proof.
  intros Httl Hsw. revert st.
  induction Hsw as [| turn turns Hturn _ IH]; intros st Hh; [exact Hh |].
  simpl. apply IH. destruct turn as [e t | now]; simpl.
  - apply processToken_keeps_held; assumption.
  - apply sweep_keeps_held; assumption.
Qed.

(** A token whose address the ledger holds is passed over: the state is
    left as it was. *)
Lemma processToken_held_skipped (cfg : Bot.config) (e : Bot.env)
    (t : Bot.token) (st : Bot.state) (a : string) (until : Z) :
  Js.or_string (Js.or_string (Bot.address t) (Bot.mint t)) (Bot.token_ t)
  = Some a ->
  a <> "" ->
  held_until cfg st a until ->
  (Bot.redisClient cfg = true ->
   Bot.redis_get_raises e = false /\ Bot.now e < until) ->
  Bot.processToken cfg e t st = st.
Proof.
  intros Ha Hne Hh Hred. unfold Bot.processToken. rewrite Ha. simpl.
  destruct (String.eqb_spec a "") as [E | _]; [contradiction |]. simpl.
  unfold Bot.wasProcessed, held_until in *.
  destruct (Bot.redisClient cfg).
  - destruct (Hred eq_refl) as [Hg Hnow]. rewrite Hg.
    destruct Hh as (x & Hx & Hle).
    unfold Redis.get, Redis.live. rewrite Hx.
    destruct (Z.ltb_spec (Bot.now e) x); [reflexivity | lia].
  - destruct Hh as (w & Hw & _). rewrite Hw.
    rewrite bool_decide_eq_true_2 by eauto. reflexivity.
Qed.

Lemma bot_decide_passed_ledger (cfg : Bot.config) (e : Bot.env)
    (address : string) (m : Bot.metrics) (st : Bot.state) :
  Bot.passed cfg m = true ->
  Bot.redis (Bot.decide_and_notify cfg e address m st)
  = Bot.redis (Bot.markProcessed cfg e address st).2
  /\ Bot.inMemoryProcessed (Bot.decide_and_notify cfg e address m st)
     = Bot.inMemoryProcessed (Bot.markProcessed cfg e address st).2.
Proof.
  intros Hp. unfold Bot.decide_and_notify. rewrite Hp.
  pose proof (bot_send_ledger cfg e (Bot.Message address m) st) as [Hr Hm].
  pose proof (bot_markProcessed_ledger cfg e address _ _ Hr Hm)
    as (_ & Hr' & Hm').
  simpl. auto.
Qed.

(** A token that was reported is held from then on for the whole TTL. *)
Lemma processToken_reported_held (cfg : Bot.config) (e : Bot.env)
    (t : Bot.token) (st : Bot.state) (a : string) :
  Js.or_string (Js.or_string (Bot.address t) (Bot.mint t)) (Bot.token_ t)
  = Some a ->
  (Bot.redisClient cfg = true ->
   Bot.redis_get_raises e = false /\ Bot.redis_set_raises e = false) ->
  Bot.chat (Bot.processToken cfg e t st) <> Bot.chat st ->
  held_until cfg (Bot.processToken cfg e t st) a
             (Bot.now e + 1000 * Bot.DEDUPE_TTL_SEC cfg).
Proof.
  intros Ha Hred. unfold Bot.processToken. rewrite Ha. simpl.
  destruct (negb _); [intros H; contradiction |].
  assert (Hseen : (Bot.wasProcessed cfg e a st).1
                  = ledger_has cfg (Bot.now e) st a
                  /\ Bot.redis (Bot.wasProcessed cfg e a st).2 = Bot.redis st
                  /\ Bot.inMemoryProcessed (Bot.wasProcessed cfg e a st).2
                     = Bot.inMemoryProcessed st
                  /\ Bot.chat (Bot.wasProcessed cfg e a st).2 = Bot.chat st).
  { unfold Bot.wasProcessed, ledger_has.
    destruct (Bot.redisClient cfg); [| auto].
    destruct (Hred eq_refl) as [-> _]. auto. }
  destruct (Bot.wasProcessed cfg e a st) as [seen st1].
  simpl in Hseen. destruct Hseen as (Hs & Hr1 & Hm1 & Hc1).
  destruct seen; [intros H; contradiction |].
  unfold Bot.evaluate.
  set (s := if bool_decide _ then _ else st1).
  assert (Hrs : Bot.redis s = Bot.redis st
                /\ Bot.inMemoryProcessed s = Bot.inMemoryProcessed st
                /\ Bot.chat s = Bot.chat st).
  { subst s. destruct (bool_decide _); simpl; auto. }
  destruct Hrs as (Hr & Hm & Hc).
  intros Hchat.
  destruct (bot_decide_chat cfg e a (Bot.resolve cfg e t) s)
    as [H | (Hp & _)]; [rewrite H, Hc in Hchat; contradiction |].
  destruct (bot_decide_passed_ledger cfg e a (Bot.resolve cfg e t) s Hp)
    as [H1 H2].
  apply (held_until_ledger cfg (Bot.markProcessed cfg e a st).2).
  - rewrite H1.
    apply (bot_markProcessed_ledger cfg e a s st Hr Hm).
  - rewrite H2.
    apply (bot_markProcessed_ledger cfg e a s st Hr Hm).
  - unfold held_until. destruct (Bot.redisClient cfg) eqn:Hrc.
    + destruct (Hred eq_refl) as [_ Hset].
      rewrite markProcessed_redis by assumption. rewrite <- Hs. simpl.
      unfold Redis.set. rewrite lookup_insert_eq.
      eexists; split; [reflexivity | lia].
    + rewrite markProcessed_in_memory by assumption. rewrite <- Hs. simpl.
      rewrite lookup_insert_eq. eexists; split; [reflexivity | lia].
Qed.

(** X15: in the polling bot a token that has been reported is not looked
    at again while its mark lasts: whatever tokens are processed and
    whatever sweeps run in between (none of them after the TTL), a later
    token with the same address leaves the state as it is.  With Redis
    this needs the reads and the write of the two turns to go through
    and the second turn to fall within the TTL. *)
Theorem reported_once_while_marked (cfg : Bot.config) (e1 e2 : Bot.env)
    (t1 t2 : Bot.token) (between : list BotPoll.turn) (st : Bot.state)
    (a : string) :
  0 <= Bot.DEDUPE_TTL_SEC cfg ->
  Js.or_string (Js.or_string (Bot.address t1) (Bot.mint t1)) (Bot.token_ t1)
  = Some a ->
  Js.or_string (Js.or_string (Bot.address t2) (Bot.mint t2)) (Bot.token_ t2)
  = Some a ->
  (Bot.redisClient cfg = true ->
   Bot.redis_get_raises e1 = false /\ Bot.redis_set_raises e1 = false
   /\ Bot.redis_get_raises e2 = false
   /\ Bot.now e2 < Bot.now e1 + 1000 * Bot.DEDUPE_TTL_SEC cfg) ->
  sweeps_by (Bot.now e1 + 1000 * Bot.DEDUPE_TTL_SEC cfg) between ->
  let st1 := Bot.processToken cfg e1 t1 st in
  Bot.chat st1 <> Bot.chat st ->
  let st2 := BotPoll.run cfg between st1 in
  Bot.processToken cfg e2 t2 st2 = st2.
Proof.
  intros Httl Ha1 Ha2 Hred Hsw st1 Hchat st2.
  assert (Hne : a <> "").
  { intros ->. apply Hchat. subst st1. unfold Bot.processToken.
    rewrite Ha1. reflexivity. }
  apply (processToken_held_skipped cfg e2 t2 st2 a
           (Bot.now e1 + 1000 * Bot.DEDUPE_TTL_SEC cfg) Ha2 Hne).
  - subst st2. apply run_keeps_held; [exact Httl | exact Hsw |].
    subst st1. apply processToken_reported_held; [exact Ha1 | | exact Hchat].
    intros Hc. destruct (Hred Hc) as (H1 & H2 & _). auto.
  - intros Hc. destruct (Hred Hc) as (_ & _ & H3 & H4). auto.
Qed.

Lemma reported_once_while_marked_witness :
  let cfg := Examples.redis_config in
  let st1 := Bot.processToken cfg (Examples.bot_env 0 false false false)
               Examples.good_token Examples.bot_start in
  let st2 :=
    BotPoll.run cfg
      [ BotPoll.Process (Examples.bot_env 1 false false false)
                        Examples.zero_volume_token;
        BotPoll.Sweep 60000 ] st1 in
  Bot.processToken cfg (Examples.bot_env 61000 false false false)
                   Examples.good_token st2 = st2.
Proof.
  cbv zeta.
  apply (reported_once_while_marked Examples.redis_config
           (Examples.bot_env 0 false false false)
           (Examples.bot_env 61000 false false false)
           Examples.good_token Examples.good_token _ Examples.bot_start
           "Mint1").
  - vm_compute. discriminate.
  - reflexivity.
  - reflexivity.
  - intros _. repeat split; vm_compute; reflexivity.
  - repeat constructor. vm_compute. discriminate.
  - vm_compute. discriminate.
Defined.

(** ** The filter of the feed poller *)

Lemma lt_is_not_ge (x y : Js.number) :
  x <> Js.NaN -> y <> Js.NaN -> Js.lt x y = negb (Js.ge x y).
Proof.
  intros Hx Hy. unfold Js.ge.
  destruct x, y; try contradiction; reflexivity.
Qed.

Lemma gt_zero_truthy (v : Js.number) :
  Js.gt v (Js.int 0) = true -> Js.truthy v = true.
Proof.
  destruct v as [| | q |]; simpl; try discriminate; [| reflexivity].
  rewrite !negb_true_iff. intros Hle.
  destruct (Qeq_bool q 0) eqn:Heq; [| reflexivity].
  apply Qeq_bool_iff in Heq.
  assert (Hq : Qle_bool q (inject_Z 0) = true)
    by (apply Qle_bool_iff; rewrite Heq; apply Qle_refl).
  congruence.
Qed.

Lemma lt_false_iff_ge (x y : Js.number) :
  x <> Js.NaN -> y <> Js.NaN -> Js.lt x y = false <-> Js.ge x y = true.
Proof.
  intros Hx Hy. rewrite lt_is_not_ge by assumption. apply negb_false_iff.
Qed.

Lemma gt_false_iff_le (x y : Js.number) :
  x <> Js.NaN -> y <> Js.NaN -> Js.gt x y = false <-> Js.le x y = true.
Proof.
  intros Hx Hy. unfold Js.gt. rewrite lt_false_iff_ge by assumption.
  reflexivity.
Qed.

Lemma volume_test_false_iff (v : Js.number) :
  v <> Js.NaN ->
  negb (Js.truthy v) || Js.le v (Js.int 0) = false
  <-> Js.gt v (Js.int 0) = true.
Proof.
  intros Hv. rewrite orb_false_iff, negb_false_iff.
  assert (Hgt : Js.gt v (Js.int 0) = negb (Js.le v (Js.int 0))).
  { unfold Js.gt. rewrite lt_is_not_ge by (assumption || discriminate).
    reflexivity. }
  split.
  - intros [_ H]. rewrite Hgt, H. reflexivity.
  - intros H. split; [apply gt_zero_truthy, H |].
    rewrite Hgt in H. apply negb_true_iff, H.
Qed.

(** X16: on a token whose five fields are numbers the feed poller lets
    through exactly: marketcap >= 15000, holders >= 30, top ten <= 20,
    developer <= 3, volume > 0.  The two percentages may equal their
    limit. *)
Theorem poller_filter_on_numbers (a : option string)
    (marketcap holders top10 dev volume : Js.number) :
  marketcap <> Js.NaN -> holders <> Js.NaN -> top10 <> Js.NaN ->
  dev <> Js.NaN -> volume <> Js.NaN ->
  Poller.rejected
    (Poller.Token a (Poller.Num marketcap) (Poller.Num holders)
                  (Poller.Num top10) (Poller.Num dev) (Poller.Num volume))
  = false
  <-> Js.ge marketcap (Js.int 15000) = true
      /\ Js.ge holders (Js.int 30) = true
      /\ Js.le top10 (Js.int 20) = true
      /\ Js.le dev (Js.int 3) = true
      /\ Js.gt volume (Js.int 0) = true.
Proof.
  intros Hm Hh Ht Hd Hv. unfold Poller.rejected.
  cbn [Poller.marketcap Poller.holders Poller.top10_holders_pct
       Poller.dev_hold_pct Poller.volume_24h Poller.toNumber Poller.truthy].
  rewrite !orb_false_iff.
  rewrite !lt_false_iff_ge, !gt_false_iff_le by (assumption || discriminate).
  rewrite <- orb_false_iff, volume_test_false_iff by assumption.
  tauto.
Qed.

Lemma poller_filter_on_numbers_witness :
  Poller.rejected
    (Poller.Token (Some "Mint5") (Poller.Num (Js.int 15000))
                  (Poller.Num (Js.int 30)) (Poller.Num (Js.int 20))
                  (Poller.Num (Js.int 3)) (Poller.Num (Js.int 1)))
  = false.
Proof.
  apply poller_filter_on_numbers; try discriminate.
  repeat split; reflexivity.
Defined.

(** X17: the comparisons of the feed poller turn a missing field into
    [NaN] and a [null] field into [0].  So a token is never rejected for
    a marketcap, a holders count or a percentage that is missing, it is
    always rejected for a marketcap or a holders count that is [null],
    and a [null] percentage counts as zero. *)
Theorem poller_filter_missing_and_null (t : Poller.token) :
  (Poller.rejected t = false ->
   Poller.rejected
     (Poller.Token (Poller.address t) Poller.Undefined Poller.Undefined
                   Poller.Undefined Poller.Undefined (Poller.volume_24h t))
   = false)
  /\ (Poller.marketcap t = Poller.Null \/ Poller.holders t = Poller.Null ->
      Poller.rejected t = true)
  /\ (Poller.rejected t = false ->
      Poller.rejected
        (Poller.Token (Poller.address t) (Poller.marketcap t)
                      (Poller.holders t) Poller.Null Poller.Null
                      (Poller.volume_24h t))
      = false).
Proof.
  unfold Poller.rejected. split; [| split].
  - intros H. apply orb_false_iff in H as [_ H]. simpl. exact H.
  - intros [-> | ->]; simpl; rewrite ?orb_true_r; reflexivity.
  - intros H. rewrite !orb_false_iff in H.
    destruct H as [[[[H1 H2] _] _] H5].
    cbn [Poller.marketcap Poller.holders Poller.top10_holders_pct
         Poller.dev_hold_pct Poller.volume_24h Poller.address].
    rewrite H1, H2. simpl. apply orb_false_iff. exact H5.
Qed.

Lemma poller_filter_missing_and_null_witness :
  Poller.rejected
    (Poller.Token (Some "Mint4") Poller.Undefined Poller.Undefined
                  Poller.Undefined Poller.Undefined
                  (Poller.Num (Js.int 500)))
  = false.
Proof.
  destruct (poller_filter_missing_and_null Examples.poller_token) as [H _].
  apply H. reflexivity.
Defined.

(** ** The loop of the feed poller *)

Lemma poller_log_redis (l : level) (ev : Poller.event) (st : Poller.state) :
  Poller.redis (Poller.log l ev st) = Poller.redis st.
Proof. reflexivity. Qed.

Lemma pollLoop_keeps_mark (tokens : list (Poller.env * Poller.token))
    (st : Poller.state) (key : string) (until : Z) :
  marked (Poller.redis st) key until ->
  marked (Poller.redis (Poller.pollLoop tokens st).2) key until.
Proof.
  revert st. induction tokens as [| [e t] rest IH]; intros st Hm; [exact Hm |].
  simpl.
  pose proof (pollStep_keeps_mark e t st key until Hm) as Hkeep.
  destruct (Poller.pollStep e t st) as [o st1]. simpl in Hkeep.
  destruct o; try (specialize (IH st1 Hkeep);
                   destruct (Poller.pollLoop rest st1); exact IH).
  exact Hkeep.
Qed.

(** X18: every token that a poll evaluated, the rejected ones and those
    whose alert could not be delivered included, is still marked when the
    poll ends, for an hour from its turn: it will not be looked at again
    before, whatever its figures have become. *)
Theorem pollLoop_marks_evaluated (tokens : list (Poller.env * Poller.token))
    (st : Poller.state) (i : nat) (e : Poller.env) (t : Poller.token)
    (o : Poller.outcome) :
  tokens !! i = Some (e, t) ->
  (Poller.pollLoop tokens st).1 !! i = Some o ->
  evaluated o ->
  marked (Poller.redis (Poller.pollLoop tokens st).2) (Poller.key_of t)
         (Poller.now e + 1000 * 3600).
Proof.
  revert st i. induction tokens as [| [e' t'] rest IH]; intros st i Ht Ho Hev;
    [discriminate |].
  simpl in Ho |- *.
  pose proof (pollStep_marks e' t' st) as Hmark.
  destruct (Poller.pollStep e' t' st) as [o' st1]. simpl in Hmark.
  destruct i as [| i].
  - injection Ht as -> ->.
    destruct o';
      try (pose proof (pollLoop_keeps_mark rest st1 (Poller.key_of t)
                         (Poller.now e + 1000 * 3600)) as Hkeep;
           destruct (Poller.pollLoop rest st1) as [os st2];
           simpl in Ho, Hkeep |- *; injection Ho as <-;
           apply Hkeep, Hmark, Hev).
    simpl in Ho. injection Ho as <-. destruct Hev; discriminate.
  - simpl in Ht.
    destruct o';
      try (specialize (IH st1 i Ht);
           destruct (Poller.pollLoop rest st1) as [os st2];
           simpl in Ho, IH |- *; exact (IH Ho Hev)).
    simpl in Ho. rewrite lookup_nil in Ho. discriminate.
Qed.

Lemma pollLoop_marks_evaluated_witness :
  marked
    (Poller.redis
       (Poller.pollLoop
          [ (Examples.poller_env 0, Examples.poller_token);
            (Examples.poller_env 5, Examples.bare_token) ]
          Examples.poller_start).2)
    "seen:Mint4" (1000 * 3600).
Proof.
  apply (pollLoop_marks_evaluated
           [ (Examples.poller_env 0, Examples.poller_token);
             (Examples.poller_env 5, Examples.bare_token) ]
           Examples.poller_start 0 (Examples.poller_env 0)
           Examples.poller_token Poller.Notified).
  - reflexivity.
  - vm_compute. reflexivity.
  - right. reflexivity.
Defined.

Lemma pollStep_chat (e : Poller.env) (t : Poller.token) (st : Poller.state) :
  Poller.chat (Poller.pollStep e t st).2 = Poller.chat st
  \/ ((Poller.pollStep e t st).1 = Poller.Notified
      /\ Poller.rejected t = false
      /\ Poller.telegram_raises e = false
      /\ Poller.chat (Poller.pollStep e t st).2
         = (Poller.chat st ++ [t])%list).
Proof.
  unfold Poller.pollStep.
  destruct (Poller.redis_get e (Poller.key_of t) st) as [[|] |];
    try (left; reflexivity).
  unfold Poller.redis_set.
  destruct (Poller.redis st) as [db | cache].
  - destruct (Poller.redis_set_raises e); [left; reflexivity |].
    destruct (Poller.rejected t); [left; reflexivity |].
    unfold Poller.sendTelegramMessage.
    destruct (Poller.telegram_raises e); [left; reflexivity |].
    right. auto.
  - destruct (Poller.rejected t); [left; reflexivity |].
    unfold Poller.sendTelegramMessage.
    destruct (Poller.telegram_raises e); [left; reflexivity |].
    right. auto.
Qed.

(** X19: a poll only adds to the chat, and what it adds are tokens of the
    feed, in the order of the feed, each at most as often as it occurs
    there, none of which the filter rejects. *)
Theorem pollLoop_chat (tokens : list (Poller.env * Poller.token))
    (st : Poller.state) :
  exists sent,
    Poller.chat (Poller.pollLoop tokens st).2 = (Poller.chat st ++ sent)%list
    /\ sent `sublist_of` tokens.*2
    /\ Forall (fun t => Poller.rejected t = false) sent.
Proof.
  revert st. induction tokens as [| [e t] rest IH]; intros st.
  - exists []. simpl. rewrite app_nil_r. repeat split; constructor.
  - simpl.
    pose proof (pollStep_chat e t st) as Hstep.
    destruct (Poller.pollStep e t st) as [o st1]. simpl in Hstep.
    assert (Hcont : forall os st2,
      Poller.pollLoop rest st1 = (os, st2) ->
      exists sent,
        Poller.chat st2 = (Poller.chat st ++ sent)%list
        /\ sent `sublist_of` t :: rest.*2
        /\ Forall (fun t => Poller.rejected t = false) sent).
    { intros os st2 Hl. destruct (IH st1) as (sent & Hc & Hsub & Hall).
      rewrite Hl in Hc. simpl in Hc.
      destruct Hstep as [H | (_ & Hr & _ & H)].
      - exists sent. rewrite Hc, H.
        repeat split; [apply sublist_cons, Hsub | exact Hall].
      - exists (t :: sent). rewrite Hc, H, <- app_assoc.
        repeat split; [apply sublist_skip, Hsub | constructor; assumption]. }
    destruct o; try (destruct (Poller.pollLoop rest st1) as [os st2] eqn:Hl;
                     simpl; exact (Hcont os st2 eq_refl)).
    destruct Hstep as [H | (Ho & _)]; [| discriminate].
    exists []. simpl. rewrite app_nil_r.
    repeat split; [exact H | apply sublist_nil_l | constructor].
Qed.

(** X20: a Redis call that raises ends the poll: the raising turn is the
    last one, the tokens after it are not looked at, and with no such
    turn every token of the feed gets its outcome. *)
Theorem pollLoop_stops_at_raise (tokens : list (Poller.env * Poller.token))
    (st : Poller.state) :
  let outs := (Poller.pollLoop tokens st).1 in
  (length outs <= length tokens)%nat
  /\ (forall i, outs !! i = Some Poller.Raised ->
                S i = length outs
                /\ Poller.pollLoop tokens st
                   = Poller.pollLoop (take (S i) tokens) st)
  /\ (Poller.Raised ∉ outs -> length outs = length tokens).
Proof.
  cbv zeta. revert st.
  induction tokens as [| [e t] rest IH]; intros st.
  - simpl. split; [lia |]. split; [intros i H; discriminate | reflexivity].
  - simpl. destruct (Poller.pollStep e t st) as [o st1].
    specialize (IH st1).
    destruct o;
      try (destruct (Poller.pollLoop rest st1) as [os st2] eqn:Hl;
           simpl in IH |- *; destruct IH as (IH1 & IH2 & IH3);
           split; [lia |]; split;
           [ intros [| i] Hi; [discriminate |];
             destruct (IH2 i Hi) as [Hlen Heq];
             split; [lia |]; rewrite <- Heq; reflexivity
           | intros Hnot; f_equal; apply IH3;
             apply not_elem_of_cons in Hnot as [_ Hnot]; exact Hnot ]).
    simpl. split; [lia |]. split.
    + intros [| i] Hi; [| discriminate]. split; reflexivity.
    + intros Hnot. exfalso. apply Hnot. left.
Qed.

Lemma pollLoop_stops_at_raise_witness :
  let tokens :=
    [ (Poller.Env 0 true false false, Examples.poller_token);
      (Examples.poller_env 5, Examples.bare_token) ] in
  Poller.pollLoop tokens Examples.poller_start
  = Poller.pollLoop (take 1 tokens) Examples.poller_start.
Proof.
  cbv zeta.
  destruct (pollLoop_stops_at_raise
              [ (Poller.Env 0 true false false, Examples.poller_token);
                (Examples.poller_env 5, Examples.bare_token) ]
              Examples.poller_start) as (_ & H & _).
  destruct (H 0%nat) as [_ Heq]; [vm_compute; reflexivity | exact Heq].
Defined.

Lemma pollStep_in_memory (e : Poller.env) (t : Poller.token)
    (st : Poller.state) (cache : gset string) :
  Poller.redis st = Poller.InMemory cache ->
  (Poller.pollStep e t st).1 <> Poller.Raised
  /\ (exists cache',
        Poller.redis (Poller.pollStep e t st).2 = Poller.InMemory cache'
        /\ cache ⊆ cache')
  /\ (Poller.key_of t ∈ cache ->
      Poller.pollStep e t st = (Poller.Skipped, st)).
Proof.
  intros Hst. unfold Poller.pollStep, Poller.redis_get, Poller.redis_set.
  rewrite Hst.
  destruct (decide (Poller.key_of t ∈ cache)) as [Hin | Hnin].
  - rewrite bool_decide_eq_true_2 by exact Hin. simpl.
    split; [discriminate |]. split; [| reflexivity].
    exists cache. split; [exact Hst | reflexivity].
  - rewrite bool_decide_eq_false_2 by exact Hnin.
    split; [destruct (Poller.rejected t); discriminate |].
    split; [| intros Hin; contradiction].
    exists ({[Poller.key_of t]} ∪ cache).
    split; [| set_solver].
    destruct (Poller.rejected t); simpl;
      [| rewrite poller_send_redis]; reflexivity.
Qed.

(** X21: with the in-memory store of the feed poller no turn raises and
    every token gets its outcome; the store never forgets, so a token
    whose key it holds is skipped, however much later it comes. *)
Theorem pollLoop_in_memory (tokens : list (Poller.env * Poller.token))
    (st : Poller.state) (cache : gset string) :
  Poller.redis st = Poller.InMemory cache ->
  let outs := (Poller.pollLoop tokens st).1 in
  length outs = length tokens
  /\ (Poller.Raised ∉ outs)
  /\ (exists cache',
        Poller.redis (Poller.pollLoop tokens st).2 = Poller.InMemory cache'
        /\ cache ⊆ cache')
  /\ (forall i e t,
        tokens !! i = Some (e, t) ->
        Poller.key_of t ∈ cache ->
        outs !! i = Some Poller.Skipped).
Proof.
  cbv zeta. revert st cache.
  induction tokens as [| [e t] rest IH]; intros st cache Hst.
  - simpl. split; [reflexivity |]. split; [apply not_elem_of_nil |].
    split; [| intros i e t H; discriminate].
    exists cache. split; [exact Hst | reflexivity].
  - destruct (pollStep_in_memory e t st cache Hst)
      as (Hnr & (cache1 & Hst1 & Hsub) & Hskip).
    destruct (IH (Poller.pollStep e t st).2 cache1 Hst1)
      as (IH1 & IH2 & (cache2 & IH3 & Hsub2) & IH4).
    assert (Heq : Poller.pollLoop ((e, t) :: rest) st
                  = ((Poller.pollStep e t st).1
                       :: (Poller.pollLoop rest (Poller.pollStep e t st).2).1,
                     (Poller.pollLoop rest (Poller.pollStep e t st).2).2)).
    { simpl. destruct (Poller.pollStep e t st) as [o st1]. simpl in Hnr |- *.
      destruct o; try contradiction;
        destruct (Poller.pollLoop rest st1); reflexivity. }
    rewrite Heq. simpl.
    split; [rewrite IH1; reflexivity |].
    split; [apply not_elem_of_cons; split; [congruence | exact IH2] |].
    split; [exists cache2; split; [exact IH3 | etrans; [exact Hsub | exact Hsub2]] |].
    intros [| i] e' t' Ht Hin.
    + injection Ht as <- <-. rewrite (Hskip Hin). reflexivity.
    + apply (IH4 i e' t' Ht).
      apply (proj1 (elem_of_subseteq cache cache1) Hsub), Hin.
Qed.

Lemma pollLoop_in_memory_witness :
  (Poller.pollLoop
     [ (Examples.poller_env 999999999, Examples.poller_token) ]
     (Poller.State (Poller.InMemory {[ "seen:Mint4" ]}) [] [])).1
  = [ Poller.Skipped ].
Proof.
  destruct (pollLoop_in_memory
              [ (Examples.poller_env 999999999, Examples.poller_token) ]
              (Poller.State (Poller.InMemory {[ "seen:Mint4" ]}) [] [])
              {[ "seen:Mint4" ]} eq_refl) as (Hlen & _ & _ & H).
  specialize (H 0%nat (Examples.poller_env 999999999) Examples.poller_token
                eq_refl).
  assert (Hin : Poller.key_of Examples.poller_token
                ∈ ({[ "seen:Mint4" ]} : gset string)) by set_solver.
  specialize (H Hin).
  destruct (Poller.pollLoop _ _).1 as [| o [| o' os]];
    [discriminate | | discriminate].
  simpl in H. congruence.
Defined.

(** ** Escaped text *)

Lemma escape_char_cases (c : ascii) :
  (c = "&"%char /\ Html.escape_char c = "&amp;")
  \/ (c = "<"%char /\ Html.escape_char c = "&lt;")
  \/ (c = ">"%char /\ Html.escape_char c = "&gt;")
  \/ (c <> "&"%char /\ c <> "<"%char /\ c <> ">"%char
      /\ Html.escape_char c = String c EmptyString).
Proof.
  unfold Html.escape_char.
  destruct (Ascii.eqb_spec c "&"); [left; auto |].
  destruct (Ascii.eqb_spec c "<"); [right; left; auto |].
  destruct (Ascii.eqb_spec c ">"); [right; right; left; auto |].
  right; right; right. auto.
Qed.

Lemma list_ascii_app (s1 s2 : string) :
  list_ascii_of_string (s1 ++ s2)
  = (list_ascii_of_string s1 ++ list_ascii_of_string s2)%list.
Proof.
  induction s1 as [| c s1 IH]; simpl; [reflexivity |].
  f_equal. exact IH.
Qed.

Lemma replace_all_no_brackets (s : string) (c : ascii) :
  In c (list_ascii_of_string (Html.replace_all s)) ->
  c <> "<"%char /\ c <> ">"%char.
Proof.
  induction s as [| x s IH]; simpl; [contradiction |].
  rewrite list_ascii_app, in_app_iff. intros [Hin | Hin]; [| exact (IH Hin)].
  destruct (escape_char_cases x)
    as [[_ E] | [[_ E] | [[_ E] | (H1 & H2 & H3 & E)]]];
    rewrite E in Hin; simpl in Hin;
    repeat (destruct Hin as [<- | Hin]; [split; discriminate || assumption |]);
    try contradiction.
Qed.

Lemma replace_all_plain (s : string) :
  (forall c, In c (list_ascii_of_string s) ->
             c <> "&"%char /\ c <> "<"%char /\ c <> ">"%char) ->
  Html.replace_all s = s.
Proof.
  induction s as [| x s IH]; intros Hp; simpl; [reflexivity |].
  rewrite IH by (intros c Hc; apply Hp; right; exact Hc).
  destruct (escape_char_cases x)
    as [[E _] | [[E _] | [[E _] | (_ & _ & _ & E)]]];
    try (destruct (Hp x (or_introl eq_refl)) as (H1 & H2 & H3);
         congruence).
  rewrite E. reflexivity.
Qed.

(** X22: text escaped for the message holds no [<] and no [>], so it can
    neither open nor close a tag; text without [&], [<] and [>] comes out
    as it went in; a missing or empty text gives the empty string. *)
Theorem escapeHtml_safe (text : option string) :
  (forall c, In c (list_ascii_of_string (Html.escapeHtml text)) ->
             c <> "<"%char /\ c <> ">"%char)
  /\ (forall s,
        text = Some s ->
        (forall c, In c (list_ascii_of_string s) ->
                   c <> "&"%char /\ c <> "<"%char /\ c <> ">"%char) ->
        Html.escapeHtml text = s)
  /\ (Js.truthy_string text = false -> Html.escapeHtml text = "").
Proof.
  unfold Html.escapeHtml. split; [| split].
  - intros c. destruct (negb _); [intros [] |].
    apply replace_all_no_brackets.
  - intros s -> Hp. simpl.
    destruct (String.eqb_spec s "") as [-> | _]; [reflexivity |].
    simpl. apply replace_all_plain, Hp.
  - intros ->. reflexivity.
Qed.

Lemma escapeHtml_safe_witness :
  Html.escapeHtml (Some "pump") = "pump"
  /\ Html.escapeHtml (Some "<b>&") = "&lt;b&gt;&amp;".
Proof.
  split; [| reflexivity].
  destruct (escapeHtml_safe (Some "pump")) as (_ & H & _).
  apply H; [reflexivity |].
  intros c Hc. simpl in Hc.
  repeat (destruct Hc as [<- | Hc]; [repeat split; discriminate |]).
  contradiction.
Defined.

Lemma escape_char_app_inj (c c' : ascii) (r r' : string) :
  Html.escape_char c ++ r = Html.escape_char c' ++ r' -> c = c' /\ r = r'.
Proof.
  destruct (escape_char_cases c)
    as [[-> E] | [[-> E] | [[-> E] | (H1 & H2 & H3 & E)]]];
    destruct (escape_char_cases c')
      as [[-> E'] | [[-> E'] | [[-> E'] | (H1' & H2' & H3' & E')]]];
    rewrite E, ?E'; simpl; intros H; injection H; intros; subst;
    try discriminate; try contradiction; auto.
Qed.

(** X23: escaping loses nothing: two texts with the same escaped form are
    the same text. *)
Theorem escapeHtml_injective (s1 s2 : string) :
  Html.escapeHtml (Some s1) = Html.escapeHtml (Some s2) -> s1 = s2.
Proof.
  assert (Hinj : forall a b, Html.replace_all a = Html.replace_all b -> a = b).
  { induction a as [| x a IH]; intros [| y b] H; simpl in H.
    - reflexivity.
    - destruct (escape_char_cases y)
        as [[_ E] | [[_ E] | [[_ E] | (_ & _ & _ & E)]]];
        rewrite E in H; discriminate.
    - destruct (escape_char_cases x)
        as [[_ E] | [[_ E] | [[_ E] | (_ & _ & _ & E)]]];
        rewrite E in H; discriminate.
    - apply escape_char_app_inj in H as [-> H]. f_equal. apply IH, H. }
  assert (Hne : forall a, a <> "" -> Html.replace_all a <> "").
  { intros [| x a] Ha; [contradiction |]. simpl.
    destruct (escape_char_cases x)
      as [[_ E] | [[_ E] | [[_ E] | (_ & _ & _ & E)]]];
      rewrite E; discriminate. }
  unfold Html.escapeHtml. simpl.
  destruct (String.eqb_spec s1 "") as [-> | H1];
    destruct (String.eqb_spec s2 "") as [-> | H2]; simpl; intros H.
  - reflexivity.
  - symmetry in H. destruct (Hne s2 H2 H).
  - destruct (Hne s1 H1 H).
  - apply Hinj, H.
Qed.

Lemma escapeHtml_injective_witness :
  Html.escapeHtml (Some "a&b") = Html.escapeHtml (Some "a&b")
  /\ "a&b" = "a&b".
Proof.
  split; [reflexivity |].
  apply (escapeHtml_injective "a&b" "a&b"). reflexivity.
Defined.

(** ** When the developer share of the polling bot is absent *)

(** X24: [computeDevHoldPercent] answers [null] exactly when a Helius
    call raises, when the supply is missing, zero or not a number, or
    when the list of largest accounts is empty; in every other case it
    answers a number, whether or not a candidate address was given. *)
Theorem computeDevHoldPercent_absent (e : Bot.env)
    (candidate : option string) :
  Bot.computeDevHoldPercent e candidate = None
  <-> Bot.heliusRpc e = None
      \/ exists r,
           Bot.heliusRpc e = Some r
           /\ (Js.truthy_value (Bot.supply r) = false
               \/ Bot.largestAccounts r = []).
Proof.
  unfold Bot.computeDevHoldPercent.
  destruct (Bot.heliusRpc e) as [r |]; [| split; auto].
  destruct (Bot.supply r) as [s |] eqn:Hs; simpl.
  - destruct (Js.truthy s) eqn:Ht; simpl.
    + destruct (Bot.largestAccounts r) as [| top rest] eqn:Hl.
      * destruct (Js.truthy_string candidate); simpl;
          (split; [intros _; right; exists r; rewrite Hs; simpl; auto | auto]).
      * split.
        -- destruct (Js.truthy_string candidate);
             [destruct (List.find _ _) |]; discriminate.
        -- intros [H | (r' & Hr & [H | H])]; try discriminate;
             injection Hr as <-; rewrite ?Hs, ?Hl in H; simpl in H;
             congruence.
    + split; [intros _; right; exists r; rewrite Hs; simpl; auto | auto].
  - split; [intros _; right; exists r; rewrite Hs; auto | auto].
Qed.

(** ** An unavailable ledger *)

Lemma scanner_evaluate_reaches_filter (e : Scanner.env)
    (creator : option string) (c a key : string) (st : Scanner.state)
    (meta : Scanner.metadata) (topSum : Z) :
  Scanner.fetchTokenMetadata e = Some meta ->
  Scanner.fetchTokenHolders e <> Scanner.HoldersNull ->
  Scanner.topSum_of (Scanner.holdersList_of (Scanner.fetchTokenHolders e))
  = Some topSum ->
  default 0 (Scanner.totalSupply meta) <> 0 ->
  Scanner.evaluate e creator c a key st
  = Scanner.decide_and_notify e c a key
      (scanner_figures e creator (default 0 (Scanner.totalSupply meta)) topSum)
      st.
Proof.
  intros Hm Hh Hts Hs. unfold Scanner.evaluate, scanner_figures.
  rewrite Hm, Hts. cbv zeta.
  destruct (Z.eqb_spec (default 0 (Scanner.totalSupply meta)) 0) as [E | _];
    [contradiction |].
  destruct (Scanner.fetchTokenHolders e); [contradiction | reflexivity ..].
Qed.

(** What the scanner does once the figures are there. *)
Lemma scanner_decide_outcome (e : Scanner.env) (c a key : string)
    (m : Scanner.metrics) (st : Scanner.state) :
  let st' := Scanner.decide_and_notify e c a key m st in
  (Scanner.passed m = true ->
   Scanner.chat st'
   = (Scanner.chat st
      ++ if Scanner.telegram_configured e && negb (Scanner.telegram_raises e)
         then [Scanner.Message a c m] else [])%list
   /\ last (Scanner.console st') = Some (Info, Scanner.PassedAndSent a)
   /\ Scanner.ledger st'
      = if Scanner.redis_set_raises e then Scanner.ledger st
        else Redis.set (Scanner.ledger st) key (60 * 60 * 24) (Scanner.now e))
  /\ (Scanner.passed m = false ->
      Scanner.chat st' = Scanner.chat st
      /\ last (Scanner.console st') = Some (Info, Scanner.DidNotPass a m)
      /\ Scanner.ledger st'
         = if Scanner.redis_set_raises e then Scanner.ledger st
           else Redis.set (Scanner.ledger st) key (60 * 60 * 6) (Scanner.now e)).
Proof.
  cbv zeta. unfold Scanner.decide_and_notify. split; intros Hp; rewrite Hp.
  - cbn [negb]. cbv zeta. split; [| split].
    + cbn [Scanner.log Scanner.chat]. rewrite scanner_try_set_chat.
      unfold Scanner.sendTelegramMarkdown.
      destruct (Scanner.telegram_configured e),
               (Scanner.telegram_raises e); simpl;
        rewrite ?app_nil_r; reflexivity.
    + cbn [Scanner.log Scanner.console]. apply last_snoc.
    + cbn [Scanner.log Scanner.ledger].
      rewrite scanner_try_set_ledger, scanner_send_ledger. reflexivity.
  - cbn [negb]. split; [| split].
    + rewrite scanner_try_set_chat. reflexivity.
    + rewrite scanner_try_set_console. apply last_snoc.
    + rewrite scanner_try_set_ledger. reflexivity.
Qed.

(** What the polling bot does once the figures are resolved. *)
Lemma bot_decide_outcome (cfg : Bot.config) (e : Bot.env) (a : string)
    (m : Bot.metrics) (st : Bot.state) :
  let st' := Bot.decide_and_notify cfg e a m st in
  (Bot.passed cfg m = true ->
   Bot.chat st'
   = (Bot.chat st
      ++ if Bot.telegram_configured cfg && negb (Bot.telegram_raises e)
         then [Bot.Message a m] else [])%list
   /\ last (Bot.console st') = Some (Info, Bot.Reported a)
   /\ Bot.redis st' = Bot.redis (Bot.markProcessed cfg e a st).2
   /\ Bot.inMemoryProcessed st'
      = Bot.inMemoryProcessed (Bot.markProcessed cfg e a st).2)
  /\ (Bot.passed cfg m = false ->
      Bot.chat st' = Bot.chat st
      /\ last (Bot.console st') = Some (Info, Bot.DidNotMatch a m)).
Proof.
  cbv zeta. split; intros Hp.
  - destruct (bot_decide_passed_ledger cfg e a m st Hp) as [Hr Hm].
    split; [| split; [| split; assumption]].
    + unfold Bot.decide_and_notify. rewrite Hp.
      cbn [Bot.log Bot.chat]. rewrite bot_markProcessed_chat.
      unfold Bot.sendTelegramMessage.
      destruct (Bot.telegram_configured cfg), (Bot.telegram_raises e); simpl;
        rewrite ?app_nil_r; reflexivity.
    + unfold Bot.decide_and_notify. rewrite Hp.
      cbn [Bot.log Bot.console]. apply last_snoc.
  - unfold Bot.decide_and_notify. rewrite Hp. split.
    + cbn [Bot.log Bot.chat].
      destruct (_ && _); [apply bot_markProcessed_chat | reflexivity].
    + cbn [Bot.log Bot.console]. apply last_snoc.
Qed.

(** C9: when the read of the ledger raises, the failure is written to the
    console and the token is evaluated as one that was never seen,
    whatever the ledger holds for it: its figures are resolved and
    filtered, an alert goes out when they pass, and the outcome is logged
    and marked as for any other token. *)
Theorem ledger_unavailable_fails_open :
  (forall cfg e t st a,
      Bot.redisClient cfg = true ->
      Bot.redis_get_raises e = true ->
      Js.or_string (Js.or_string (Bot.address t) (Bot.mint t)) (Bot.token_ t)
      = Some a ->
      a <> "" ->
      let st' := Bot.processToken cfg e t st in
      let m := Bot.resolve cfg e t in
      st' = Bot.evaluate cfg e t a (Bot.log Error Bot.RedisGetFailed st)
      /\ (Bot.console st ++ [(Error, Bot.RedisGetFailed)])%list
         `prefix_of` Bot.console st'
      /\ (Bot.passed cfg m = true ->
          Bot.chat st'
          = (Bot.chat st
             ++ if Bot.telegram_configured cfg && negb (Bot.telegram_raises e)
                then [Bot.Message a m] else [])%list
          /\ last (Bot.console st') = Some (Info, Bot.Reported a)
          /\ Bot.redis st' = Bot.redis (Bot.markProcessed cfg e a st).2)
      /\ (Bot.passed cfg m = false ->
          Bot.chat st' = Bot.chat st
          /\ last (Bot.console st') = Some (Info, Bot.DidNotMatch a m)))
  /\ (forall e t st a,
        Scanner.redis_get_raises e = true ->
        Scanner.address t = Some a ->
        a <> "" ->
        let c := Js.toLowerCase
                   (default "" (Js.or_string (Scanner.chain t) (Some "unknown"))) in
        let key := Scanner.key_of c (Js.toLowerCase a) in
        let st' := Scanner.processTokenEvent e t st in
        st' = Scanner.evaluate e (Scanner.creator t) c (Js.toLowerCase a) key
                (Scanner.log Warn Scanner.RedisGetFailed st)
        /\ (Scanner.console st ++ [(Warn, Scanner.RedisGetFailed)])%list
           `prefix_of` Scanner.console st'
        /\ (forall meta topSum,
              Scanner.fetchTokenMetadata e = Some meta ->
              Scanner.fetchTokenHolders e <> Scanner.HoldersNull ->
              Scanner.topSum_of
                (Scanner.holdersList_of (Scanner.fetchTokenHolders e))
              = Some topSum ->
              default 0 (Scanner.totalSupply meta) <> 0 ->
              let m := scanner_figures e (Scanner.creator t)
                         (default 0 (Scanner.totalSupply meta)) topSum in
              (Scanner.passed m = true ->
               Scanner.chat st'
               = (Scanner.chat st
                  ++ if Scanner.telegram_configured e
                        && negb (Scanner.telegram_raises e)
                     then [Scanner.Message (Js.toLowerCase a) c m]
                     else [])%list
               /\ last (Scanner.console st')
                  = Some (Info, Scanner.PassedAndSent (Js.toLowerCase a))
               /\ Scanner.ledger st'
                  = if Scanner.redis_set_raises e then Scanner.ledger st
                    else Redis.set (Scanner.ledger st) key (60 * 60 * 24)
                                   (Scanner.now e))
              /\ (Scanner.passed m = false ->
                  Scanner.chat st' = Scanner.chat st
                  /\ last (Scanner.console st')
                     = Some (Info, Scanner.DidNotPass (Js.toLowerCase a) m)
                  /\ Scanner.ledger st'
                     = if Scanner.redis_set_raises e then Scanner.ledger st
                       else Redis.set (Scanner.ledger st) key (60 * 60 * 6)
                                      (Scanner.now e)))).
Proof.
  split.
  - intros cfg e t st a Hc Hg Ha Hne. cbv zeta.
    assert (Heq : Bot.processToken cfg e t st
                  = Bot.evaluate cfg e t a (Bot.log Error Bot.RedisGetFailed st)).
    { unfold Bot.processToken, Bot.wasProcessed. rewrite Ha, Hc, Hg. simpl.
      destruct (String.eqb_spec a "") as [E | _]; [contradiction |].
      reflexivity. }
    split; [exact Heq |]. rewrite Heq.
    split; [apply (bot_evaluate_console cfg e t a
                     (Bot.log Error Bot.RedisGetFailed st)) |].
    unfold Bot.evaluate.
    set (s := if bool_decide _ then _ else _).
    assert (Hs : Bot.chat s = Bot.chat st
                 /\ Bot.redis s = Bot.redis st
                 /\ Bot.inMemoryProcessed s = Bot.inMemoryProcessed st).
    { subst s. destruct (bool_decide _); simpl; auto. }
    destruct Hs as (Hsc & Hsr & Hsm).
    destruct (bot_decide_outcome cfg e a (Bot.resolve cfg e t) s)
      as [Hpass Hfail].
    split.
    + intros Hp. destruct (Hpass Hp) as (H1 & H2 & H3 & _).
      rewrite H1, H3, Hsc. split; [reflexivity |]. split; [exact H2 |].
      apply (bot_markProcessed_ledger cfg e a s st Hsr Hsm).
    + intros Hp. destruct (Hfail Hp) as (H1 & H2).
      rewrite H1, Hsc. auto.
  - intros e t st a Hg Ha Hne. cbv zeta.
    set (c := Js.toLowerCase
                (default "" (Js.or_string (Scanner.chain t) (Some "unknown")))).
    assert (Heq : Scanner.processTokenEvent e t st
                  = Scanner.evaluate e (Scanner.creator t) c (Js.toLowerCase a)
                      (Scanner.key_of c (Js.toLowerCase a))
                      (Scanner.log Warn Scanner.RedisGetFailed st)).
    { unfold Scanner.processTokenEvent. rewrite Ha, Hg. simpl.
      destruct (String.eqb_spec a "") as [E | _]; [contradiction |].
      reflexivity. }
    split; [exact Heq |]. rewrite Heq.
    split; [apply (scanner_evaluate_console e _ _ _ _
                     (Scanner.log Warn Scanner.RedisGetFailed st)) |].
    intros meta topSum Hm Hh Hts Hsup.
    rewrite (scanner_evaluate_reaches_filter e _ _ _ _ _ meta topSum
               Hm Hh Hts Hsup).
    apply (scanner_decide_outcome e c (Js.toLowerCase a)
             (Scanner.key_of c (Js.toLowerCase a)) _
             (Scanner.log Warn Scanner.RedisGetFailed st)).
Qed.

(** The key of the token is live in the ledger, the read raises: the
    token is evaluated and the alert goes out once more, in the polling
    bot and in the scanner. *)
Lemma ledger_unavailable_fails_open_witness :
  (Redis.get (Bot.redis MoreExamples.bot_marked) "processed:Mint1" 5 = true
   /\ Bot.chat (Bot.processToken Examples.redis_config
                  (Examples.bot_env 5 true false false)
                  Examples.good_token MoreExamples.bot_marked)
      = [ Bot.Message "Mint1"
            (Bot.resolve Examples.redis_config
               (Examples.bot_env 5 true false false) Examples.good_token) ])
  /\ (Redis.get (Scanner.ledger Examples.scanner_marked)
                "processed:solana:mint3" 5 = true
      /\ length (Scanner.chat
                   (Scanner.processTokenEvent
                      (Examples.scanner_env 5 true false false)
                      Examples.scanner_event Examples.scanner_marked))
         = 1%nat).
Proof.
  destruct ledger_unavailable_fails_open as [Hbot Hscan]. split.
  - split; [vm_compute; reflexivity |].
    destruct (Hbot Examples.redis_config (Examples.bot_env 5 true false false)
                Examples.good_token MoreExamples.bot_marked "Mint1")
      as (_ & _ & Hpass & _);
      [reflexivity | reflexivity | reflexivity | discriminate |].
    destruct Hpass as (Hchat & _); [vm_compute; reflexivity |].
    exact Hchat.
  - split; [vm_compute; reflexivity |].
    destruct (Hscan (Examples.scanner_env 5 true false false)
                Examples.scanner_event Examples.scanner_marked "Mint3")
      as (_ & _ & Hfig); [reflexivity | reflexivity | discriminate |].
    destruct (Hfig (Scanner.Metadata (Some 1000000)) 100) as [Hpass _];
      [reflexivity | discriminate | vm_compute; reflexivity | discriminate |].
    destruct Hpass as (Hchat & _); [vm_compute; reflexivity |].
    rewrite Hchat. reflexivity.
Defined.
